(** * Natural-language-to-insight query pipeline: a shallow embedding

    The development embeds the warehouse gateway of
    [backend/app/db/snowflake_simple.py] (class [SimpleSnowflakeConnection])
    and the orchestration and chart code of
    [backend/app/services/bi_service.py] (class [BIService]) and states the
    properties of the specification over these definitions.

    Text is modelled as [string] (sequences of 8-bit characters); the
    case mapping, the white-space class and the word class are those of
    Python on ASCII text, which is what SQL statements and the column names
    of the reporting tables consist of.  Characters above 127 are left
    unchanged by the case mappings and belong to neither class. *)

From Stdlib Require Import String Ascii List ZArith Bool Lia QArith DecimalString
  Permutation.
From stdpp Require Import gmap strings.
Import ListNotations.
Open Scope string_scope.

(* ===================================================================== *)
(** * Part I: definitions                                                *)
(* ===================================================================== *)

(** ** Python string primitives *)

Module PyStr.

Definition code (c : ascii) : nat := nat_of_ascii c.

Definition between (lo hi n : nat) : bool := Nat.leb lo n && Nat.leb n hi.

Definition is_lower (c : ascii) : bool := between 97 122 (code c).
Definition is_upper (c : ascii) : bool := between 65 90 (code c).
Definition is_digit (c : ascii) : bool := between 48 57 (code c).

(** [str.isspace] on ASCII: TAB, LF, VT, FF, CR, the four separators
    FS, GS, RS, US, and the blank. *)
Definition is_space (c : ascii) : bool :=
  between 9 13 (code c) || between 28 32 (code c).

(** The class [\w] of [re]: letters, digits and the underscore. *)
Definition is_word (c : ascii) : bool :=
  is_lower c || is_upper c || is_digit c || Nat.eqb (code c) 95.

Definition upper_char (c : ascii) : ascii :=
  if is_lower c then ascii_of_nat (code c - 32) else c.

Definition lower_char (c : ascii) : ascii :=
  if is_upper c then ascii_of_nat (code c + 32) else c.

(** [s.upper()] and [s.lower()] *)
Fixpoint upper (s : string) : string :=
  match s with
  | EmptyString => EmptyString
  | String c r => String (upper_char c) (upper r)
  end.

Fixpoint lower (s : string) : string :=
  match s with
  | EmptyString => EmptyString
  | String c r => String (lower_char c) (lower r)
  end.

Definition is_empty (s : string) : bool :=
  match s with EmptyString => true | String _ _ => false end.

(** [s.lstrip()], [s.rstrip()], [s.strip()] *)
Fixpoint lstrip (s : string) : string :=
  match s with
  | EmptyString => EmptyString
  | String c r => if is_space c then lstrip r else s
  end.

Fixpoint rstrip (s : string) : string :=
  match s with
  | EmptyString => EmptyString
  | String c r =>
      let r' := rstrip r in
      if is_empty r' && is_space c then EmptyString else String c r'
  end.

Definition strip (s : string) : string := rstrip (lstrip s).

(** [s.startswith(p)] *)
Definition startswith (s p : string) : bool := String.prefix p s.

(** [p in s] *)
Fixpoint contains (p s : string) : bool :=
  String.prefix p s ||
  match s with
  | EmptyString => false
  | String _ r => contains p r
  end.

(** [s.endswith(p)] *)
Fixpoint endswith (s p : string) : bool :=
  String.eqb s p ||
  match s with
  | EmptyString => false
  | String _ r => endswith r p
  end.

(** [s[:-1]] *)
Fixpoint drop_last (s : string) : string :=
  match s with
  | EmptyString => EmptyString
  | String c r => if is_empty r then EmptyString else String c (drop_last r)
  end.

(** [s[n:]] *)
Fixpoint skip (n : nat) (s : string) : string :=
  match n, s with
  | O, _ => s
  | S _, EmptyString => EmptyString
  | S m, String _ r => skip m r
  end.

(** Is the first character of [s] a word character?  The end of the text
    counts as a non-word position. *)
Definition head_is_word (s : string) : bool :=
  match s with EmptyString => false | String c _ => is_word c end.

(** Is the last character of [s] a word character?  [before] tells what
    precedes [s], and answers for the empty text. *)
Fixpoint last_is_word (before : bool) (s : string) : bool :=
  match s with
  | EmptyString => before
  | String c r => last_is_word (is_word c) r
  end.

(** [\b] at the position between a text ending as [before] says and
    the text [s]: one side is a word character and the other is not. *)
Definition boundary (before : bool) (s : string) : bool :=
  xorb before (head_is_word s).

(** An attempt of the pattern [\b kw \b] at the current position. *)
Definition match_here (before : bool) (kw s : string) : bool :=
  boundary before s
  && String.prefix kw s
  && boundary (last_is_word before kw) (skip (String.length kw) s).

(** [re.search(r'\b' + kw + r'\b', s)]: the attempt is made at every
    position from left to right; the result is whether one succeeds. *)
Fixpoint re_search_from (before : bool) (kw s : string) : bool :=
  match_here before kw s ||
  match s with
  | EmptyString => false
  | String c r => re_search_from (is_word c) kw r
  end.

Definition re_search_word (kw s : string) : bool := re_search_from false kw s.

(** All characters of a text are word characters. *)
Fixpoint all_word (s : string) : bool :=
  match s with
  | EmptyString => true
  | String c r => is_word c && all_word r
  end.

(** [str(n)] for an integer *)
Definition str_of_Z (n : Z) : string := NilZero.string_of_int (Z.to_int n).

Definition nl : string := String (ascii_of_nat 10) EmptyString.

End PyStr.

(** ** Exceptions and the state of the gateway *)

Module Py.

(** What a call of a Python function comes to: a value, or an exception
    with its message. *)
Inductive outcome (A : Type) : Type :=
| Returned (a : A)
| Raised (msg : string).
Arguments Returned {A} a.
Arguments Raised {A} msg.

End Py.
Export Py.

(** ** The query safety validator *)

Module Validator.
Import PyStr.

Definition dangerous_keywords : list string :=
  ["DELETE"; "DROP"; "INSERT"; "UPDATE"; "ALTER"; "CREATE"; "TRUNCATE"].

(** The loop [for keyword in dangerous_keywords: if re.search(...): return False]. *)
Fixpoint scan_keywords (kws : list string) (query_upper : string) : bool :=
  match kws with
  | [] => true
  | keyword :: rest =>
      if re_search_word keyword query_upper then false
      else scan_keywords rest query_upper
  end.

(** [SimpleSnowflakeConnection.validate_query].  No statement of the body
    raises on a text argument, so the [except] branch is not reached and
    the result is a plain boolean. *)
Definition validate_query (query : string) : bool :=
  let query_upper := strip (upper query) in
  if negb (startswith query_upper "SELECT" || startswith query_upper "WITH")
  then false
  else scan_keywords dangerous_keywords query_upper.

(** The keyword [kw] stands in [s] as a whole word: it is neither preceded
    nor followed by a word character. *)
Definition standalone (kw s : string) : Prop :=
  exists pre post,
    s = pre ++ kw ++ post
    /\ last_is_word false pre = false
    /\ head_is_word post = false.

(** Every occurrence of [kw] in [s] is part of a longer identifier: a
    word character precedes or follows it. *)
Definition embedded_only (kw s : string) : Prop :=
  forall pre post,
    s = pre ++ kw ++ post ->
    last_is_word false pre = true \/ head_is_word post = true.

End Validator.

(** ** The metadata cache and connection gateway *)

Module Gateway.
Import PyStr.

(** *** What the warehouse sends back *)

Inductive cell : Type :=
| CNull
| CInt (z : Z)
| CStr (s : string).

(** A materialised result: [cursor.description] and [cursor.fetchall()]. *)
Record frame : Type := { columns : list string; rows : list (list cell) }.

Definition empty_frame : frame := {| columns := []; rows := [] |}.

(** A row of the answer to [DESCRIBE TABLE]: the columns [name], [type],
    [null?] and [default] that [get_table_schema] reads. *)
Record describe_row : Type :=
  { d_name : string; d_type : string; d_null : string; d_default : option string }.

(** The warehouse behind the connection: what [cursor.execute] followed by
    [fetchall] yields for a statement, and what it yields for a
    [DESCRIBE TABLE] statement.  A failure of any kind is [Raised]; an
    answer to [DESCRIBE TABLE] that lacks one of the four columns makes the
    loop over its rows raise inside the same [try], and counts as [Raised]
    as well. *)
Record warehouse : Type :=
  { run : string -> outcome frame;
    describe : string -> outcome (list describe_row) }.

(** *** Table metadata: an insertion-ordered dictionary *)

Record col_info : Type :=
  { type_ : string; nullable : bool; default : option string }.

Definition schema : Type := list (string * col_info).

(** [d[k] = v]: the value is replaced where the key already is, and the
    pair is added at the end otherwise. *)
Fixpoint dict_set (k : string) (v : col_info) (d : schema) : schema :=
  match d with
  | [] => [(k, v)]
  | (k', v') :: r =>
      if String.eqb k' k then (k', v) :: r else (k', v') :: dict_set k v r
  end.

(** *** The connection object *)

Record gateway : Type :=
  { database : string;
    schema_name : string;
    schema_cache : gmap string schema;
    table_list_cache : option (list string);
    cache_timestamp : Z;
    cache_ttl : Z;
    (** the statements handed to [cursor.execute] so far, oldest first;
        kept to tell a cache hit from an introspection *)
    sent : list string }.

(** The cache fields as [__init__] sets them. *)
Definition connect (db sch : string) : gateway :=
  {| database := db; schema_name := sch;
     schema_cache := ∅; table_list_cache := None;
     cache_timestamp := 0; cache_ttl := 3600; sent := [] |}.

(** *** Methods run on the connection, and may raise *)

Definition M (A : Type) : Type := gateway -> outcome A * gateway.

Definition ret {A} (a : A) : M A := fun g => (Returned a, g).

Definition bind {A B} (m : M A) (k : A -> M B) : M B :=
  fun g =>
    match m g with
    | (Returned a, g') => k a g'
    | (Raised e, g') => (Raised e, g')
    end.

(** [try: m  except Exception as e: handler e] *)
Definition try_except {A} (m : M A) (handler : string -> M A) : M A :=
  fun g =>
    match m g with
    | (Returned a, g') => (Returned a, g')
    | (Raised e, g') => handler e g'
    end.

Definition get : M gateway := fun g => (Returned g, g).

Definition modify (f : gateway -> gateway) : M unit := fun g => (Returned tt, f g).

Definition lift {A} (o : outcome A) : M A := fun g => (o, g).

Notation "x <- m ;; k" := (bind m (fun x => k))
  (at level 100, m at next level, right associativity).
Notation "m ;;; k" := (bind m (fun _ => k))
  (at level 100, right associativity).

Definition log_sent (stmt : string) (g : gateway) : gateway :=
  {| database := database g; schema_name := schema_name g;
     schema_cache := schema_cache g; table_list_cache := table_list_cache g;
     cache_timestamp := cache_timestamp g; cache_ttl := cache_ttl g;
     sent := (sent g ++ [stmt])%list |}.

(** [cursor.execute(stmt)], [cursor.description], [cursor.fetchall()] *)
Definition cursor_execute (wh : warehouse) (stmt : string) : M frame :=
  modify (log_sent stmt) ;;; lift (run wh stmt).

Definition cursor_describe (wh : warehouse) (stmt : string) : M (list describe_row) :=
  modify (log_sent stmt) ;;; lift (describe wh stmt).

(** [_is_cache_valid], with the reading of the clock as argument.  The
    readings of [time.time()] are taken in whole seconds; only their
    differences and comparisons matter. *)
Definition _is_cache_valid (now : Z) (g : gateway) : bool :=
  (now - cache_timestamp g <? cache_ttl g)%Z.

(** [_invalidate_cache] *)
Definition _invalidate_cache : M unit :=
  modify (fun g =>
    {| database := database g; schema_name := schema_name g;
       schema_cache := ∅; table_list_cache := None;
       cache_timestamp := 0; cache_ttl := cache_ttl g; sent := sent g |}).

(** [_update_cache_timestamp], with the reading of the clock as argument *)
Definition _update_cache_timestamp (now : Z) : M unit :=
  modify (fun g =>
    {| database := database g; schema_name := schema_name g;
       schema_cache := schema_cache g; table_list_cache := table_list_cache g;
       cache_timestamp := now; cache_ttl := cache_ttl g; sent := sent g |}).

Definition set_table_list_cache (l : list string) : M unit :=
  modify (fun g =>
    {| database := database g; schema_name := schema_name g;
       schema_cache := schema_cache g; table_list_cache := Some l;
       cache_timestamp := cache_timestamp g; cache_ttl := cache_ttl g;
       sent := sent g |}).

Definition set_schema_cache (table_name : string) (s : schema) : M unit :=
  modify (fun g =>
    {| database := database g; schema_name := schema_name g;
       schema_cache := <[table_name := s]> (schema_cache g);
       table_list_cache := table_list_cache g;
       cache_timestamp := cache_timestamp g; cache_ttl := cache_ttl g;
       sent := sent g |}).

(** The statement [execute_query] hands to the cursor for [query]. *)
Definition with_limit (query : string) : string :=
  let query_upper := strip (upper query) in
  if negb (contains "LIMIT" query_upper) then
    if endswith (strip query) ";"
    then drop_last (strip query) ++ " LIMIT 200;"
    else query ++ " LIMIT 200"
  else query.

(** [execute_query(query)] (no caller passes [params]).  An exception is
    logged and raised again. *)
Definition execute_query (wh : warehouse) (query : string) : M frame :=
  try_except (cursor_execute wh (with_limit query)) (fun e => lift (Raised e)).

Definition allowed_tables : list string :=
  ["RPT_WOPS_AGENT_PERFORMANCE";
   "ZENDESK_TICKET_AGENT__HANDLE_TIME";
   "RPT_WOPS_TICKETS";
   "RPT_WOPS_TL_PERFORMANCE";
   "RPT_AGENT_SCHEDULE_ADHERENCE"].

Definition qualified (g : gateway) (table : string) : string :=
  database g ++ "." ++ schema_name g ++ "." ++ table.

Definition probe_query (g : gateway) (table : string) : string :=
  "SELECT 1 FROM " ++ qualified g table ++ " LIMIT 1".

(** The loop of [get_available_tables] over the candidate tables: a probe
    that raises leaves the table out. *)
Fixpoint verify_tables (wh : warehouse) (tables existing_tables : list string)
  : M (list string) :=
  match tables with
  | [] => ret existing_tables
  | table :: rest =>
      found <- try_except
                 (g <- get ;;
                  execute_query wh (probe_query g table) ;;;
                  ret (existing_tables ++ [table])%list)
                 (fun _ => ret existing_tables) ;;
      verify_tables wh rest found
  end.

(** [get_available_tables]; [now] is the clock read by [_is_cache_valid]
    and [later] the clock read by [_update_cache_timestamp]. *)
Definition get_available_tables (wh : warehouse) (now later : Z) : M (list string) :=
  g <- get ;;
  match table_list_cache g with
  | Some cached =>
      if _is_cache_valid now g then ret cached
      else
        try_except
          (existing_tables <- verify_tables wh allowed_tables [] ;;
           set_table_list_cache existing_tables ;;;
           _update_cache_timestamp later ;;;
           ret existing_tables)
          (fun _ => ret allowed_tables)
  | None =>
      try_except
        (existing_tables <- verify_tables wh allowed_tables [] ;;
         set_table_list_cache existing_tables ;;;
         _update_cache_timestamp later ;;;
         ret existing_tables)
        (fun _ => ret allowed_tables)
  end.

(** The dictionary built from the rows of [DESCRIBE TABLE]. *)
Fixpoint schema_of_rows (rs : list describe_row) (acc : schema) : schema :=
  match rs with
  | [] => acc
  | r :: rest =>
      schema_of_rows rest
        (dict_set (d_name r)
           {| type_ := d_type r;
              nullable := String.eqb (d_null r) "Y";
              default := d_default r |} acc)
  end.

(** The dictionary built from the column names of a sample row. *)
Fixpoint schema_of_columns (cols : list string) (acc : schema) : schema :=
  match cols with
  | [] => acc
  | col :: rest =>
      schema_of_columns rest
        (dict_set col {| type_ := "VARCHAR"; nullable := true; default := None |} acc)
  end.

Definition describe_query (g : gateway) (table : string) : string :=
  "DESCRIBE TABLE " ++ qualified g table.

Definition fallback_query (g : gateway) (table : string) : string :=
  "SELECT * FROM " ++ qualified g table ++ " LIMIT 1".

(** The part of [get_table_schema] after a cache miss. *)
Definition fetch_table_schema (wh : warehouse) (later : Z) (table_name : string)
  : M schema :=
  try_except
    (g <- get ;;
     rs <- cursor_describe wh (describe_query g table_name) ;;
     let schema := schema_of_rows rs [] in
     set_schema_cache table_name schema ;;;
     _update_cache_timestamp later ;;;
     ret schema)
    (fun _ =>
       try_except
         (g <- get ;;
          df <- cursor_execute wh (fallback_query g table_name) ;;
          let schema := schema_of_columns (columns df) [] in
          set_schema_cache table_name schema ;;;
          _update_cache_timestamp later ;;;
          ret schema)
         (fun _ => ret [])).

(** [get_table_schema] *)
Definition get_table_schema (wh : warehouse) (now later : Z) (table_name : string)
  : M schema :=
  g <- get ;;
  match schema_cache g !! table_name with
  | Some cached =>
      if _is_cache_valid now g then ret cached
      else fetch_table_schema wh later table_name
  | None => fetch_table_schema wh later table_name
  end.

Definition plain_sample_query (g : gateway) (table_name : string) (limit : Z)
  : string :=
  "SELECT * FROM " ++ qualified g table_name ++ " LIMIT " ++ str_of_Z limit.

(** [get_table_sample] *)
Definition get_table_sample (wh : warehouse) (table_name : string) (limit : Z)
  : M frame :=
  try_except
    (g <- get ;;
     execute_query wh (plain_sample_query g table_name limit))
    (fun _ => ret empty_frame).

Definition audit_patterns : list string :=
  ["CREATED_AT"; "UPDATED_AT"; "CREATED_DATE"; "UPDATED_DATE";
   "TIMESTAMP"; "DATE_CREATED"; "DATE_UPDATED"; "AUDIT_DATE";
   "CREATED_TIME"; "UPDATED_TIME"; "LAST_MODIFIED"; "RECORD_DATE";
   "ETL_TIMESTAMP"; "LOAD_DATE"; "SOLVED_WEEK"; "ADHERENCE_DATE"].

Definition date_types : list string := ["DATE"; "TIMESTAMP"; "TIME"].

(** Truth value of [order_column]: [None] and the empty text are false. *)
Definition truthy (order_column : option string) : bool :=
  match order_column with
  | None => false
  | Some s => negb (is_empty s)
  end.

(** The inner loop [for col_name in schema.keys()] for one pattern. *)
Fixpoint scan_columns (pattern : string) (names : list string)
         (order_column : option string) : option string :=
  match names with
  | [] => order_column
  | col_name :: rest =>
      if contains pattern (upper col_name) then Some col_name
      else scan_columns pattern rest order_column
  end.

(** The outer loop [for pattern in audit_patterns]. *)
Fixpoint scan_patterns (patterns : list string) (names : list string)
         (order_column : option string) : option string :=
  match patterns with
  | [] => order_column
  | pattern :: rest =>
      let order_column := scan_columns pattern names order_column in
      if truthy order_column then order_column
      else scan_patterns rest names order_column
  end.

(** [any(date_type in col_type for date_type in ['DATE', 'TIMESTAMP', 'TIME'])] *)
Definition has_date_type (col_info : col_info) : bool :=
  let col_type := upper (type_ col_info) in
  existsb (fun date_type => contains date_type col_type) date_types.

(** The loop [for col_name, col_info in schema.items()] over declared types. *)
Fixpoint scan_types (items : schema) (order_column : option string)
  : option string :=
  match items with
  | [] => order_column
  | (col_name, col_info) :: rest =>
      if has_date_type col_info then Some col_name
      else scan_types rest order_column
  end.

(** The value of [order_column] when the query is built. *)
Definition find_order_column (s : schema) : option string :=
  let order_column := scan_patterns audit_patterns (map fst s) None in
  if negb (truthy order_column) then scan_types s order_column
  else order_column.


Definition indent : string := "                ".

(** The statement built by [get_table_sample_ordered]. *)
Definition order_by_query (g : gateway) (table_name : string) (limit : Z)
           (col : string) : string :=
  nl ++ indent ++ "SELECT * FROM " ++ qualified g table_name ++ " " ++ nl
  ++ indent ++ "ORDER BY " ++ col ++ " DESC " ++ nl
  ++ indent ++ "LIMIT " ++ str_of_Z limit ++ nl
  ++ indent.

Definition ordered_sample_query (g : gateway) (table_name : string) (limit : Z)
           (order_column : option string) : string :=
  match order_column with
  | Some col =>
      if truthy order_column then order_by_query g table_name limit col
      else plain_sample_query g table_name limit
  | None => plain_sample_query g table_name limit
  end.

(** [get_table_sample_ordered] *)
Definition get_table_sample_ordered (wh : warehouse) (now later : Z)
           (table_name : string) (limit : Z) : M frame :=
  try_except
    (schema <- get_table_schema wh now later table_name ;;
     g <- get ;;
     execute_query wh
       (ordered_sample_query g table_name limit (find_order_column schema)))
    (fun _ => get_table_sample wh table_name limit).

(** *** A small warehouse to run the gateway against

    It holds one table [T] with a single column [ID] and the rows
    [1 .. size], answers [SELECT * FROM T], optionally followed by
    [LIMIT k] and by a semicolon, and rejects every other statement. *)

Fixpoint parse_digits (s : string) (acc : nat) : option nat :=
  match s with
  | EmptyString => Some acc
  | String c r =>
      if is_digit c then parse_digits r (10 * acc + (code c - 48)) else None
  end.

Definition parse_nat (s : string) : option nat :=
  match s with
  | EmptyString => None
  | _ => parse_digits s 0
  end.

Definition table_rows (size : nat) : list (list cell) :=
  map (fun i => [CInt (Z.of_nat i)]) (seq 1 size).

Definition demo_run (size : nat) (stmt : string) : outcome frame :=
  let body := if endswith stmt ";" then drop_last stmt else stmt in
  if String.eqb body "SELECT * FROM T" then
    Returned {| columns := ["ID"]; rows := table_rows size |}
  else if startswith body "SELECT * FROM T LIMIT " then
    match parse_nat (skip 22 body) with
    | Some k => Returned {| columns := ["ID"]; rows := firstn k (table_rows size) |}
    | None => Raised "SQL compilation error"
    end
  else Raised "SQL compilation error".

Definition demo_warehouse (size : nat) : warehouse :=
  {| run := demo_run size;
     describe := fun _ => Raised "SQL compilation error" |}.

(** A warehouse that cannot be reached: every statement raises. *)
Definition unreachable_warehouse : warehouse :=
  {| run := fun _ => Raised "connection lost";
     describe := fun _ => Raised "connection lost" |}.

(** *** A warehouse with two reporting tables, and a connection whose
    cache was filled an hour ago *)

Definition performance_rows : list describe_row :=
  [ {| d_name := "ASSIGNEE_NAME"; d_type := "VARCHAR(256)"; d_null := "Y"; d_default := None |};
    {| d_name := "SOLVED_WEEK"; d_type := "DATE"; d_null := "Y"; d_default := None |};
    {| d_name := "AHT_MINUTES"; d_type := "NUMBER(38,2)"; d_null := "Y"; d_default := None |} ].

Definition tickets_rows : list describe_row :=
  [ {| d_name := "TICKET_ID"; d_type := "NUMBER(38,0)"; d_null := "N"; d_default := None |};
    {| d_name := "STATUS"; d_type := "VARCHAR(64)"; d_null := "Y"; d_default := None |} ].

Definition reporting_warehouse : warehouse :=
  {| run := fun _ => Raised "SQL compilation error";
     describe := fun stmt =>
       if String.eqb stmt "DESCRIBE TABLE DB.PUBLIC.RPT_WOPS_AGENT_PERFORMANCE"
       then Returned performance_rows
       else if String.eqb stmt "DESCRIBE TABLE DB.PUBLIC.RPT_WOPS_TICKETS"
       then Returned tickets_rows
       else Raised "SQL compilation error" |}.

(** What the cache holds: the two tables as they were before the column
    [SOLVED_WEEK] and the column [STATUS] were added. *)
Definition old_performance : schema :=
  [("ASSIGNEE_NAME", {| type_ := "VARCHAR(256)"; nullable := true; default := None |})].

Definition old_tickets : schema :=
  [("TICKET_ID", {| type_ := "NUMBER(38,0)"; nullable := false; default := None |})].

Definition aged_gateway : gateway :=
  {| database := "DB"; schema_name := "PUBLIC";
     schema_cache :=
       <["RPT_WOPS_AGENT_PERFORMANCE" := old_performance]>
         (<["RPT_WOPS_TICKETS" := old_tickets]> ∅);
     table_list_cache := Some ["RPT_WOPS_TICKETS"];
     cache_timestamp := 1000; cache_ttl := 3600; sent := [] |}.

End Gateway.

(** ** The orchestrator: from the reply of the model to the answer *)

Module Orchestrator.
Import PyStr.

(** A JSON value, as [json.loads] yields it and as the answer carries it. *)
#[warnings="-register-all"]
Inductive json : Type :=
| JNull
| JBool (b : bool)
| JNum (z : Z)
| JStr (s : string)
| JArr (items : list json)
| JObj (fields : list (string * json)).

(** Truth value of a Python object, as [if result.get(...)] takes it. *)
Definition truth_value (v : option json) : bool :=
  match v with
  | None | Some JNull => false
  | Some (JBool b) => b
  | Some (JNum z) => negb (Z.eqb z 0)
  | Some (JStr s) => negb (is_empty s)
  | Some (JArr items) => match items with [] => false | _ => true end
  | Some (JObj fields) => match fields with [] => false | _ => true end
  end.

(** [s.split('\n')] *)
Fixpoint split_lines (s : string) : list string :=
  match s with
  | EmptyString => [EmptyString]
  | String c r =>
      match split_lines r with
      | [] => [String c EmptyString]
      | line :: lines =>
          if Nat.eqb (code c) 10 then EmptyString :: line :: lines
          else String c line :: lines
      end
  end.

(** The loop over the lines of the reply: the first line that, trimmed and
    in upper case, starts with SELECT or WITH. *)
Fixpoint first_sql_line (lines : list string) : option string :=
  match lines with
  | [] => None
  | line :: rest =>
      let line := strip line in
      if startswith (upper line) "SELECT" || startswith (upper line) "WITH"
      then Some line
      else first_sql_line rest
  end.

Definition of_option (o : option string) : json :=
  match o with Some s => JStr s | None => JNull end.

Section Services.

(** The library calls and collaborators the orchestrator relies on:
    [json.loads] on a text that starts with an opening brace (an object, or
    a decoding error); [re.findall] with the pattern of a fenced SQL block,
    with the flags DOTALL and IGNORECASE; [_execute_and_analyze_query],
    which validates, runs and analyses the statement and returns the entries
    to merge; the chart step, which yields the value of [charts] when there
    is one; and the entry [session_info], present when the reply could be
    saved to the chat history. *)
Variable json_loads : string -> outcome (gmap string json).
Variable findall_sql_blocks : string -> list string.
Variable execute_and_analyze : json -> gmap string json.
Variable charts_for : gmap string json -> option json.
Variable session_info : option json.

(** [_parse_ai_response] *)
Definition _parse_ai_response (response : string) : gmap string json :=
  let fallback : gmap string json :=
    <["explanation" := JStr response]>
      (<["business_context" := JStr "Analysis requested by user"]>
         (<["expected_insights" := JArr []]> ∅)) in
  if startswith (strip response) "{" then
    match json_loads response with
    | Returned parsed => parsed
    | Raised _ => fallback
    end
  else
    let sql_query :=
      match findall_sql_blocks response with
      | block :: _ => Some (strip block)
      | [] => first_sql_line (split_lines response)
      end in
    <["sql_query" := of_option sql_query]>
      (<["explanation" := JStr (strip response)]>
         (<["business_context" := JStr "Analysis requested by user"]>
            (<["expected_insights" := JArr []]> ∅))).

(** [result.update(query_result)]: the entries of [query_result] win. *)
Definition update (result query_result : gmap string json) : gmap string json :=
  query_result ∪ result.

(** [session_info] is added when the reply could be saved. *)
Definition with_session_info (result : gmap string json) : gmap string json :=
  match session_info with
  | Some info => <["session_info" := info]> result
  | None => result
  end.

Definition error_answer (e : string) : gmap string json :=
  <["error" := JStr e]> (<["success" := JBool false]> ∅).

(** [process_natural_language_query] from the reply of the model on; the
    steps before it either yield the reply or raise, and an exception there
    ends in the error answer.  So does [len(result["data"])] when the data
    entry is a number. *)
Definition process_natural_language_query (reply : outcome string)
  : gmap string json :=
  match reply with
  | Raised e => error_answer e
  | Returned content =>
      let result := _parse_ai_response content in
      if truth_value (result !! "sql_query") then
        let result :=
          match result !! "sql_query" with
          | Some sql => update result (execute_and_analyze sql)
          | None => result
          end in
        if truth_value (result !! "data") then
          match result !! "data" with
          | Some (JNum _) | Some (JBool _) =>
              error_answer "object has no len()"
          | _ =>
              match charts_for result with
              | Some charts => with_session_info (<["charts" := charts]> result)
              | None => with_session_info result
              end
          end
        else with_session_info result
      else with_session_info result
  end.

(** How the chat endpoint reads the flag: [bi_result.get("success", False)]. *)
Definition success_flag (answer : gmap string json) : bool :=
  match answer !! "success" with
  | Some v => truth_value (Some v)
  | None => false
  end.

End Services.

(** *** A reply in JSON that names no statement *)

Definition dq : string := String (ascii_of_nat 34) EmptyString.

Definition quoted (s : string) : string := dq ++ s ++ dq.

(** The text
    [{"explanation": "Totals by region", "success": true, "data": [1]}],
    written with [quoted] for the quotation marks. *)
Definition json_reply : string :=
  "{" ++ quoted "explanation" ++ ": " ++ quoted "Totals by region" ++ ", "
  ++ quoted "success" ++ ": true, " ++ quoted "data" ++ ": [1]}".

(** [json.loads] on that text; any other text is taken as not decodable. *)
Definition loads_json_reply (text : string) : outcome (gmap string json) :=
  if String.eqb text json_reply then
    Returned (<["explanation" := JStr "Totals by region"]>
                (<["success" := JBool true]>
                   (<["data" := JArr [JNum 1]]> ∅)))
  else Raised "JSONDecodeError".


(** The entries of a CandidateQuery: the four keys the prompt asks the
    model for, which are also the keys the parser itself writes. *)
Definition candidate_keys : list string :=
  ["sql_query"; "explanation"; "business_context"; "expected_insights"].

(** A parsed reply is a CandidateQuery when it has no entry beside these. *)
Definition candidate_query (parsed : gmap string json) : Prop :=
  forall key, ~ In key candidate_keys -> parsed !! key = None.

(** The same property of the answer asked of every parsed reply, whatever
    its entries are. *)
Definition any_reply_property : Prop :=
  forall json_loads findall_sql_blocks execute_and_analyze charts_for
         session_info content,
    let parsed := _parse_ai_response json_loads findall_sql_blocks content in
    let answer :=
      process_natural_language_query json_loads findall_sql_blocks
        execute_and_analyze charts_for session_info (Returned content) in
    truth_value (parsed !! "sql_query") = false ->
    answer !! "explanation" = parsed !! "explanation"
    /\ answer !! "data" = None
    /\ success_flag answer = false.

End Orchestrator.

(** ** The chart synthesizer *)

Module Charts.
Import PyStr.

(** *** Result tables

    A column has the dtype [object], holding texts or the missing value, or
    an integer dtype.  Columns of floating-point numbers, dates and truth
    values are outside of the model.  The tables the orchestrator builds
    from the records of the answer have pairwise different column names. *)
Inductive column : Type :=
| ObjectCol (values : list (option string))
| IntCol (values : list Z).

Definition dataframe : Type := list (string * column).

Definition col_length (c : column) : nat :=
  match c with
  | ObjectCol values => List.length values
  | IntCol values => List.length values
  end.

(** [len(data)] *)
Definition nrows (data : dataframe) : nat :=
  match data with
  | [] => 0%nat
  | (_, c) :: _ => col_length c
  end.

(** [data.empty] *)
Definition df_empty (data : dataframe) : bool :=
  match data with
  | [] => true
  | _ => Nat.eqb (nrows data) 0
  end.

Definition col_head (n : nat) (c : column) : column :=
  match c with
  | ObjectCol values => ObjectCol (firstn n values)
  | IntCol values => IntCol (firstn n values)
  end.

(** [data.head(n)] *)
Definition head (n : nat) (data : dataframe) : dataframe :=
  map (fun nc => (fst nc, col_head n (snd nc))) data.

Definition is_numeric (c : column) : bool :=
  match c with IntCol _ => true | ObjectCol _ => false end.

(** [data.select_dtypes(include=[np.number]).columns.tolist()] *)
Definition numeric_columns (data : dataframe) : list string :=
  map fst (List.filter (fun nc => is_numeric (snd nc)) data).

(** [data.select_dtypes(include=['object']).columns.tolist()] *)
Definition categorical_columns (data : dataframe) : list string :=
  map fst (List.filter (fun nc => negb (is_numeric (snd nc))) data).

(** [data[name]] *)
Fixpoint df_col (data : dataframe) (name : string) : option column :=
  match data with
  | [] => None
  | (n, c) :: rest => if String.eqb n name then Some c else df_col rest name
  end.

(** *** Grouping *)

Inductive key : Type :=
| KStr (s : string)
| KInt (z : Z).

Definition key_eqb (a b : key) : bool :=
  match a, b with
  | KStr x, KStr y => String.eqb x y
  | KInt x, KInt y => Z.eqb x y
  | _, _ => false
  end.

(** The order of the group keys: texts by code points, integers by value. *)
Definition key_leb (a b : key) : bool :=
  match a, b with
  | KStr x, KStr y => String.leb x y
  | KInt x, KInt y => Z.leb x y
  | KInt _, KStr _ => true
  | KStr _, KInt _ => false
  end.

(** [str(x)] of a group key *)
Definition label_of_key (k : key) : string :=
  match k with
  | KStr s => s
  | KInt z => str_of_Z z
  end.

Definition col_keys (c : column) : list (option key) :=
  match c with
  | ObjectCol values => map (option_map KStr) values
  | IntCol values => map (fun z => Some (KInt z)) values
  end.

(** The rows whose key is not missing. *)
Fixpoint present {A} (rows : list (option key * A)) : list (key * A) :=
  match rows with
  | [] => []
  | (Some k, a) :: rest => (k, a) :: present rest
  | (None, _) :: rest => present rest
  end.

(** The different keys, in the order of their first appearance. *)
Fixpoint dedup (ks : list key) : list key :=
  match ks with
  | [] => []
  | k :: rest => k :: List.filter (fun k' => negb (key_eqb k k')) (dedup rest)
  end.

Fixpoint insert_by {A} (leb : A -> A -> bool) (x : A) (sorted : list A) : list A :=
  match sorted with
  | [] => [x]
  | y :: rest => if leb x y then x :: y :: rest else y :: insert_by leb x rest
  end.

(** A stable sort.  Where pandas leaves the order of equal elements open,
    the model keeps the order they had. *)
Definition sort_by {A} (leb : A -> A -> bool) (l : list A) : list A :=
  fold_right (insert_by leb) [] l.

Definition sum_Z (l : list Z) : Z := fold_right Z.add 0%Z l.

(** The mean of a group that is not empty, as an exact fraction. *)
Definition mean (vals : list Z) : Q :=
  Qmake (sum_Z vals) (Pos.of_nat (List.length vals)).

Definition group_values {A} (k : key) (rows : list (key * A)) : list A :=
  map snd (List.filter (fun r => key_eqb (fst r) k) rows).

(** [data.groupby(key_col)[numeric_col].mean().reset_index()]: one row for
    each key that is not missing, in the order of the keys. *)
Definition groupby_mean (keys : list (option key)) (vals : list Z)
  : list (key * Q) :=
  let rows := present (combine keys vals) in
  map (fun k => (k, mean (group_values k rows)))
      (sort_by key_leb (dedup (map fst rows))).

(** [data[cat_col].value_counts()]: the number of rows of each value that
    is not missing, the largest number first. *)
Definition value_counts (keys : list (option key)) : list (key * nat) :=
  let rows := present (map (fun k => (k, tt)) keys) in
  sort_by (fun a b => Nat.leb (snd b) (snd a))
    (map (fun k => (k, List.length (group_values k rows)))
         (dedup (map fst rows))).

(** *** Chart specifications *)

Inductive chart_type : Type := Line | Bar | Doughnut.

Record chart : Type :=
  { ch_type : chart_type;
    ch_title : string;
    ch_labels : list string;
    ch_dataset_label : string;
    ch_data : list Q }.

Definition date_words : list string := ["DATE"; "TIME"; "WEEK"; "MONTH"; "DAY"].

(** The columns whose name contains a date word. *)
Definition date_columns (names : list string) : list string :=
  List.filter (fun col => existsb (fun date_word => contains date_word (upper col)) date_words)
         names.

(** The body of the loop of [_generate_trend_charts] for one metric.
    Grouping a column by itself fails at [reset_index], and the exception
    is caught and logged. *)
Definition trend_chart (data : dataframe) (date_col numeric_col : string)
  : list chart :=
  if String.eqb date_col numeric_col then []
  else
    match df_col data date_col, df_col data numeric_col with
    | Some keys, Some (IntCol vals) =>
        let trend_data := groupby_mean (col_keys keys) vals in
        if Nat.leb 2 (List.length trend_data) then
          [ {| ch_type := Line;
               ch_title := numeric_col ++ " Trend Over Time";
               ch_labels := map (fun r => label_of_key (fst r)) trend_data;
               ch_dataset_label := numeric_col;
               ch_data := map snd trend_data |} ]
        else []
    | _, _ => []
    end.

(** [_generate_trend_charts] *)
Definition _generate_trend_charts (data : dataframe)
           (numeric_cols categorical_cols : list string) (query : string)
  : list chart :=
  match date_columns (map fst data), numeric_cols with
  | date_col :: _, _ :: _ =>
      flat_map (trend_chart data date_col) (firstn 2 numeric_cols)
  | _, _ => []
  end.

(** The body of the loop of [_generate_comparison_charts] for one metric. *)
Definition comparison_chart (data : dataframe) (cat_col numeric_col : string)
  : list chart :=
  match df_col data cat_col, df_col data numeric_col with
  | Some keys, Some (IntCol vals) =>
      let comparison_data := groupby_mean (col_keys keys) vals in
      let comparison_data :=
        sort_by (fun a b => Qle_bool (snd b) (snd a)) comparison_data in
      let comparison_data :=
        if Nat.ltb 10 (List.length comparison_data)
        then firstn 10 comparison_data else comparison_data in
      if Nat.leb 2 (List.length comparison_data) then
        [ {| ch_type := Bar;
             ch_title := numeric_col ++ " by " ++ cat_col;
             ch_labels := map (fun r => label_of_key (fst r)) comparison_data;
             ch_dataset_label := numeric_col;
             ch_data := map snd comparison_data |} ]
      else []
  | _, _ => []
  end.

(** [_generate_comparison_charts] *)
Definition _generate_comparison_charts (data : dataframe)
           (numeric_cols categorical_cols : list string) (query : string)
  : list chart :=
  match categorical_cols, numeric_cols with
  | cat_col :: _, _ :: _ =>
      flat_map (comparison_chart data cat_col) (firstn 2 numeric_cols)
  | _, _ => []
  end.

(** [_generate_distribution_charts] *)
Definition _generate_distribution_charts (data : dataframe)
           (numeric_cols categorical_cols : list string) (query : string)
  : list chart :=
  match categorical_cols with
  | cat_col :: _ =>
      if Nat.leb (nrows data) 20 then
        match df_col data cat_col with
        | Some keys =>
            let distribution_data := firstn 8 (value_counts (col_keys keys)) in
            if Nat.leb 2 (List.length distribution_data) then
              [ {| ch_type := Doughnut;
                   ch_title := "Distribution by " ++ cat_col;
                   ch_labels := map (fun r => label_of_key (fst r)) distribution_data;
                   ch_dataset_label := "Count";
                   ch_data :=
                     map (fun r => inject_Z (Z.of_nat (snd r))) distribution_data |} ]
            else []
        | None => []
        end
      else []
  | [] => []
  end.

(** [generate_charts_from_data] *)
Definition generate_charts_from_data (data : dataframe) (query : string)
           (insights : list string) : list chart :=
  if df_empty data then []
  else
    let data_sample := if Nat.ltb 50 (nrows data) then head 50 data else data in
    let numeric_columns := numeric_columns data_sample in
    let categorical_columns := categorical_columns data_sample in
    firstn 3
      (_generate_trend_charts data_sample numeric_columns categorical_columns query
       ++ _generate_comparison_charts data_sample numeric_columns categorical_columns query
       ++ _generate_distribution_charts data_sample numeric_columns categorical_columns query)%list.

Definition chart_keywords : list string :=
  ["trend"; "trends"; "trending"; "over time"; "timeline";
   "compare"; "comparison"; "versus"; "vs"; "against";
   "top"; "bottom"; "highest"; "lowest"; "best"; "worst";
   "distribution"; "breakdown"; "split"; "by";
   "chart"; "graph"; "plot"; "visualize"; "show";
   "performance"; "productivity"; "efficiency";
   "weekly"; "monthly"; "daily"; "quarterly";
   "growth"; "decline"; "increase"; "decrease"].

(** [should_generate_charts] *)
Definition should_generate_charts (user_query : string) (data : dataframe) : bool :=
  if df_empty data || Nat.ltb (nrows data) 2 then false
  else
    let query_lower := lower user_query in
    let has_chart_keywords :=
      existsb (fun keyword => contains keyword query_lower) chart_keywords in
    let has_numeric_data := Nat.ltb 0 (List.length (numeric_columns data)) in
    let has_groupable_data := Nat.leb 2 (List.length data) in
    has_chart_keywords && has_numeric_data && has_groupable_data.

(** *** The result of the scenario: a text column REGION and an integer
    column COUNT *)

Definition region_frame (regions : list (option string)) (counts : list Z)
  : dataframe :=
  [("REGION", ObjectCol regions); ("COUNT", IntCol counts)].

(** The texts of a column, without the missing values. *)
Fixpoint texts (values : list (option string)) : list string :=
  match values with
  | [] => []
  | Some s :: rest => s :: texts rest
  | None :: rest => texts rest
  end.

(** The distinct texts of a column, as group keys. *)
Definition region_keys (values : list (option string)) : list key :=
  dedup (map KStr (texts values)).

Definition doughnuts (charts : list chart) : list chart :=
  List.filter (fun c => match ch_type c with Doughnut => true | _ => false end) charts.

(** The claim that every result of five rows with these two columns gets
    exactly one doughnut chart, with at most five labels. *)
Definition one_doughnut_claim : Prop :=
  forall regions counts,
    List.length regions = 5%nat -> List.length counts = 5%nat ->
    exists d,
      doughnuts (generate_charts_from_data (region_frame regions counts)
                   "show distribution by region" []) = [d]
      /\ (List.length (ch_labels d) <= 5)%nat.

End Charts.

(** ** Further string notions *)

Module PyText.
Import PyStr.

(** All characters of a text are white space. *)
Fixpoint all_space (s : string) : bool :=
  match s with
  | EmptyString => true
  | String c r => is_space c && all_space r
  end.

(** The last character of a text, when there is one, is not white space. *)
Fixpoint ends_clean (s : string) : bool :=
  match s with
  | EmptyString => true
  | String c r => if is_empty r then negb (is_space c) else ends_clean r
  end.

(** The first character of a text, when there is one, is not white space. *)
Definition starts_clean (s : string) : bool :=
  match s with
  | EmptyString => true
  | String c _ => negb (is_space c)
  end.

(** [len(s.split())]: the number of maximal runs of characters that are not
    white space.  [inside] tells whether the position before [s] lies in
    such a run. *)
Fixpoint count_words (inside : bool) (s : string) : nat :=
  match s with
  | EmptyString => 0
  | String c r =>
      if is_space c then count_words false r
      else if inside then count_words true r
      else S (count_words true r)
  end.

(** No character of the text is a line feed. *)
Fixpoint one_line (s : string) : bool :=
  match s with
  | EmptyString => true
  | String c r => negb (Nat.eqb (code c) 10) && one_line r
  end.

(** [s.isascii()]: every character has a code below 128. *)
Fixpoint is_ascii (s : string) : bool :=
  match s with
  | EmptyString => true
  | String c r => Nat.ltb (code c) 128 && is_ascii r
  end.

End PyText.

(** ** Reading the gateway: helpers for its properties *)

Module GatewayExt.
Import PyStr Gateway.

(** [d.get(k)] on table metadata *)
Fixpoint dict_get (k : string) (d : schema) : option col_info :=
  match d with
  | [] => None
  | (k', v) :: r => if String.eqb k' k then Some v else dict_get k r
  end.

(** The entry the fallback gives to every column. *)
Definition varchar_info : col_info :=
  {| type_ := "VARCHAR"; nullable := true; default := None |}.

(** The entry built from a row of [DESCRIBE TABLE]. *)
Definition info_of_row (r : describe_row) : col_info :=
  {| type_ := d_type r; nullable := String.eqb (d_null r) "Y"; default := d_default r |}.

(** The connection after the statements have been handed to the cursor. *)
Definition log_all (stmts : list string) (g : gateway) : gateway :=
  fold_left (fun g stmt => log_sent stmt g) stmts g.

(** Does the probe of a candidate table succeed? *)
Definition probe_ok (wh : warehouse) (g : gateway) (table : string) : bool :=
  match run wh (probe_query g table) with
  | Returned _ => true
  | Raised _ => false
  end.

(** The table is not served from the cache at the clock reading [now]. *)
Definition schema_miss (now : Z) (table : string) (g : gateway) : Prop :=
  schema_cache g !! table = None \/ _is_cache_valid now g = false.

Definition table_list_miss (now : Z) (g : gateway) : Prop :=
  table_list_cache g = None \/ _is_cache_valid now g = false.

(** A warehouse that refuses DESCRIBE TABLE and answers every other
    statement with one row of two columns. *)
Definition sample_frame : frame :=
  {| columns := ["AGENT_NAME"; "ADHERENCE_DATE"];
     rows := [[CStr "A. Jones"; CStr "2025-07-14"]] |}.

Definition sample_warehouse : warehouse :=
  {| run := fun _ => Returned sample_frame;
     describe := fun _ => Raised "insufficient privileges" |}.

(** A call of [get_table_sample_ordered] on the connection [g] issues the
    statement [stmt]: the metadata read leaves the connection as [g1], then
    [stmt] is handed to the cursor and its rows are the result, and when it
    raises the plain sample is asked for instead. *)
Definition sampler_issues (wh : warehouse) (now later : Z) (table_name : string)
           (limit : Z) (g g1 : gateway) (stmt : string) : Prop :=
  get_table_sample_ordered wh now later table_name limit g
  = match run wh stmt with
    | Returned df => (Returned df, log_sent stmt g1)
    | Raised _ => get_table_sample wh table_name limit (log_sent stmt g1)
    end.



End GatewayExt.

(** ** The validator of the SQLAlchemy connection
    ([backend/app/db/snowflake_connection.py]) *)

Module Connection.
Import PyStr Validator.

Definition forbidden_keywords : list string :=
  ["DROP"; "DELETE"; "INSERT"; "UPDATE"; "ALTER"; "CREATE"; "TRUNCATE"].

(** [SnowflakeConnection.validate_query]: no trimming and no test of the
    first word. *)
Definition validate_query (query : string) : bool :=
  let query_upper := upper query in
  scan_keywords forbidden_keywords query_upper.

End Connection.

(** ** The domain filter of the assistant
    ([backend/app/core/ai_provider.py]) *)

Module Relevance.
Import PyStr PyText.

Record verdict : Type := { is_relevant : bool; suggestion : string }.

Definition basic_greetings : list string :=
  ["hi"; "hello"; "hey"; "good morning"; "good afternoon"; "good evening";
   "thanks"; "thank you"; "bye"; "goodbye"; "ok"; "okay"; "yes"; "no"].

Definition forbidden_patterns : list string :=
  ["write a function"; "create a script"; "python code"; "javascript code";
   "programming"; "machine learning"; "ai model"; "deep learning";
   "recipe"; "cooking"; "weather"; "news"; "movie"; "book"; "travel";
   "health advice"; "medical advice"; "legal advice"; "personal advice";
   "relationship"; "entertainment"; "game"; "sport"; "politics";
   "write me a"; "create me a"; "build me a"; "develop a"].

Definition bi_keywords : list string :=
  ["agent"; "agents"; "performance"; "productivity"; "adherence"; "schedule"; "supervisor";
   "ticket"; "tickets"; "metric"; "metrics"; "report"; "analysis"; "data"; "query"; "database";
   "trend"; "trends"; "insight"; "dashboard"; "chart"; "statistics"; "count";
   "average"; "total"; "sum"; "percentage"; "rate"; "efficiency"; "operations";
   "worker"; "workers"; "employee"; "employees"; "staff"; "team"; "teams"; "manager";
   "aht"; "csat"; "qa"; "quality"; "score"; "rating"; "review"; "weekly"; "monthly";
   "top"; "bottom"; "best"; "worst"; "highest"; "lowest"; "compare"; "comparison";
   "how many"; "show me"; "list"; "find"; "who"; "what"; "where"; "when"; "which";
   "kim"; "table"; "column"; "row"; "field"].

Definition relevant : verdict := {| is_relevant := true; suggestion := "" |}.

Definition blocked : verdict :=
  {| is_relevant := false;
     suggestion := "I'm specifically designed for Worker Operations Business Intelligence. Please ask me about agent performance, productivity metrics, scheduling adherence, or other operational data analysis questions." |}.

(** The loop [for pattern in forbidden_patterns: if pattern in message_lower]. *)
Fixpoint matches_forbidden (patterns : list string) (message_lower : string) : bool :=
  match patterns with
  | [] => false
  | pattern :: rest =>
      if contains pattern message_lower then true
      else matches_forbidden rest message_lower
  end.

(** [OpenAIProvider._check_domain_relevance] *)
Definition _check_domain_relevance (user_message : string) : verdict :=
  let message_lower := strip (lower user_message) in
  if existsb (fun greeting => contains greeting message_lower) basic_greetings
  then relevant
  else if Nat.leb (count_words false message_lower) 3 then relevant
  else if matches_forbidden forbidden_patterns message_lower then blocked
  else if existsb (fun keyword => contains keyword message_lower) bi_keywords
  then relevant
  else relevant.

End Relevance.

(** ** The date columns of the weekly digest
    ([backend/app/services/weekly_digest_service.py]) *)

Module Digest.
Import PyStr Gateway.

Definition name_patterns : list string :=
  ["DATE"; "WEEK"; "TIME"; "CREATED"; "UPDATED"; "MODIFIED";
   "ADHERENCE_DATE"; "SOLVED_WEEK"].

(** [WeeklyDigestService._identify_date_columns] *)
Fixpoint _identify_date_columns (items : schema) : list string :=
  match items with
  | [] => []
  | (col_name, col_info) :: rest =>
      let col_name_upper := upper col_name in
      if has_date_type col_info then col_name :: _identify_date_columns rest
      else if existsb (fun pattern => contains pattern col_name_upper) name_patterns
      then col_name :: _identify_date_columns rest
      else _identify_date_columns rest
  end.

Definition indent12 : string := "            ".

(** The statement built by [_query_weekly_data]; the two dates come
    formatted as year-month-day. *)
Definition weekly_query (g : gateway) (table date_col start_str end_str : string)
  : string :=
  nl ++ indent12 ++ "SELECT * FROM " ++ qualified g table ++ nl
  ++ indent12 ++ "WHERE " ++ date_col ++ " >= '" ++ start_str ++ "' AND "
  ++ date_col ++ " <= '" ++ end_str ++ "'" ++ nl
  ++ indent12 ++ "ORDER BY " ++ date_col ++ " DESC" ++ nl
  ++ indent12 ++ "LIMIT 1000" ++ nl
  ++ indent12.

(** [_query_weekly_data] *)
Definition _query_weekly_data (wh : warehouse)
           (table date_col start_str end_str : string) : M frame :=
  try_except
    (g <- get ;;
     execute_query wh (weekly_query g table date_col start_str end_str))
    (fun _ => ret empty_frame).

(** The body of the loop of [_gather_weekly_data] for one table, up to the
    rows it has gathered for the table.  [now] and [later] are the clock
    readings of the metadata read of the digest, [now'] and [later'] those
    of the metadata read inside the ordered sampler. *)
Definition gather_table (wh : warehouse) (now later now' later' : Z)
           (table start_str end_str : string) : M frame :=
  schema <- get_table_schema wh now later table ;;
  match _identify_date_columns schema with
  | date_col :: _ => _query_weekly_data wh table date_col start_str end_str
  | [] => get_table_sample_ordered wh now' later' table 50
  end.

End Digest.

(** ** The result analyzer: validate, execute, clean, explain *)

Module Analyzer.
Import PyStr Gateway Validator.
Import Orchestrator.

Definition json_of_cell (c : cell) : json :=
  match c with
  | CNull => JNull
  | CInt z => JNum z
  | CStr s => JStr s
  end.

(** [df.to_dict('records')], for a table with pairwise different column
    names *)
Definition records (df : frame) : json :=
  JArr (map (fun row => JObj (combine (columns df) (map json_of_cell row))) (rows df)).

Definition rejected_answer : gmap string json :=
  <["error" := JStr "Query contains forbidden operations"]>
    (<["success" := JBool false]> ∅).

Definition failed_answer (e : string) : gmap string json :=
  <["error" := JStr e]> (<["success" := JBool false]> ∅).

Definition analysed_answer (df : frame) (insights : list string) : gmap string json :=
  <["data" := records df]>
    (<["row_count" := JNum (Z.of_nat (List.length (rows df)))]>
       (<["columns" := JArr (map JStr (columns df))]>
          (<["insights" := JArr (map JStr insights)]>
             (<["success" := JBool true]> ∅)))).

Section Collaborators.

(** [_clean_dataframe_for_json], taken here as a step from frame to frame
    (what it does to the cells is the subject of [Cleaner]), and
    [_generate_insights_from_data], which asks the model: each yields its
    result or raises. *)
Variable clean : frame -> outcome frame.
Variable generate_insights : frame -> string -> outcome (list string).

(** [BIService._execute_and_analyze_query] *)
Definition _execute_and_analyze_query (wh : warehouse) (sql_query : string)
  : M (gmap string json) :=
  try_except
    (if negb (validate_query sql_query) then ret rejected_answer
     else
       df <- execute_query wh sql_query ;;
       df_cleaned <- lift (clean df) ;;
       insights <- try_except (lift (generate_insights df_cleaned sql_query))
                              (fun _ => ret []) ;;
       ret (analysed_answer df_cleaned insights))
    (fun e => ret (failed_answer e)).

End Collaborators.

End Analyzer.

(** ** The tables of the schema context *)

Module SchemaContext.
Import PyStr.

Definition priority_tables : list string :=
  ["RPT_AGENT_SCHEDULE_ADHERENCE";
   "RPT_WOPS_AGENT_PERFORMANCE";
   "RPT_AGENT_METRICS";
   "RPT_SCHEDULE_DATA"].

(** [table in tables] *)
Definition mem (table : string) (tables : list string) : bool :=
  existsb (String.eqb table) tables.

(** The loop [for table in priority_tables: if table in tables]. *)
Fixpoint add_priority (priority tables ordered_tables : list string) : list string :=
  match priority with
  | [] => ordered_tables
  | table :: rest =>
      if mem table tables
      then add_priority rest tables (ordered_tables ++ [table])%list
      else add_priority rest tables ordered_tables
  end.

(** The loop [for table in tables: if table not in ordered_tables and
    len(ordered_tables) < 5]. *)
Fixpoint add_remaining (tables ordered_tables : list string) : list string :=
  match tables with
  | [] => ordered_tables
  | table :: rest =>
      if negb (mem table ordered_tables) && Nat.ltb (List.length ordered_tables) 5
      then add_remaining rest (ordered_tables ++ [table])%list
      else add_remaining rest ordered_tables
  end.

(** The value of [ordered_tables] in [_get_dynamic_schema_context] when the
    schemas are fetched. *)
Definition ordered_tables (tables : list string) : list string :=
  add_remaining tables (add_priority priority_tables tables []).

End SchemaContext.

(** ** A reply in plain words with a statement on two lines *)

Module Replies.
Import PyStr.

Definition lines_reply : string :=
  "Here is the query:" ++ nl ++ "  select AGENT_NAME" ++ nl
  ++ "  from RPT_AGENT_SCHEDULE_ADHERENCE".

End Replies.

(** ** Reading the charts: helpers for their properties *)

Module ChartsExt.
Import PyStr Charts.

(** A chart has at least two labels, one number for each label, and no more
    labels than its kind allows. *)
Definition chart_ok (c : chart) : Prop :=
  (2 <= List.length (ch_labels c))%nat
  /\ List.length (ch_data c) = List.length (ch_labels c)
  /\ match ch_type c with
     | Line => True
     | Bar => (List.length (ch_labels c) <= 10)%nat
     | Doughnut => (List.length (ch_labels c) <= 8)%nat
     end.







End ChartsExt.

(** ** Cleaning a result table for JSON
    ([BIService._clean_dataframe_for_json])

    The pandas calls are modelled cell by cell, as pandas 2 performs them
    on the columns of a table built from fetched rows: [replace] with a
    list of values and one replacement, [astype(str)] on a column of dtype
    [object] (the text of [str(x)] for every cell, the missing ones
    included), [replace] of one text by [None], [astype] to the nullable
    dtypes [Int64] and [Float64] (where NaN becomes the missing marker
    [pd.NA]), and [where] with [pd.notnull]. *)

Module Cleaner.
Import PyStr.

(** A float64 number: a finite one, or one of the three special values. *)
Inductive float : Type :=
| Finite (q : Q)
| NaN
| PosInf
| NegInf.

(** A Python object in a column of dtype [object]: [None] (as a SQL NULL
    arrives), a float, an integer, a text, a truth value, or any other
    object (a Decimal, a date), given by the text [str] yields for it. *)
Inductive obj : Type :=
| ONone
| OFloat (f : float)
| OInt (z : Z)
| OStr (s : string)
| OBool (b : bool)
| OOther (text : string).

(** A column of the fetched table, by the dtype pandas gives it. *)
Inductive raw_column : Type :=
| RObject (cells : list obj)
| RInt64 (cells : list Z)
| RFloat64 (cells : list float)
| RBool (cells : list bool).

(** A column of the cleaned table.  The nullable dtypes [Int64] and
    [Float64] hold a number or the missing marker [pd.NA], which is [None]
    here. *)
Inductive column : Type :=
| CObject (cells : list obj)
| CInt64 (cells : list (option Z))
| CFloat64 (cells : list (option float))
| CBool (cells : list bool).

Definition dataframe : Type := list (string * raw_column).

Definition cleaned_frame : Type := list (string * column).

Definition replace_inf_float (f : float) : float :=
  match f with
  | PosInf | NegInf => NaN
  | _ => f
  end.

Definition replace_inf_obj (o : obj) : obj :=
  match o with
  | OFloat f => OFloat (replace_inf_float f)
  | _ => o
  end.

(** [df.replace([np.inf, -np.inf], np.nan)] on one column *)
Definition replace_inf (c : raw_column) : raw_column :=
  match c with
  | RObject cells => RObject (map replace_inf_obj cells)
  | RFloat64 cells => RFloat64 (map replace_inf_float cells)
  | RInt64 cells => RInt64 cells
  | RBool cells => RBool cells
  end.

(** [pd.notnull] on a cell of a column of dtype [object] *)
Definition notnull_obj (o : obj) : bool :=
  match o with
  | ONone | OFloat NaN => false
  | _ => true
  end.

(** [df.where(pd.notnull(df), None)] on one column: a missing cell of a
    column of dtype [object] becomes [None]; in a nullable column the
    missing cells are the cells [pd.NA], and stay so. *)
Definition where_notnull (c : column) : column :=
  match c with
  | CObject cells => CObject (map (fun o => if notnull_obj o then o else ONone) cells)
  | CInt64 cells => CInt64 cells
  | CFloat64 cells => CFloat64 cells
  | CBool cells => CBool cells
  end.

(** [json.dumps] writes one of the tokens NaN, Infinity and -Infinity for
    a float that is not finite, and for no other value. *)
Definition float_token (f : float) : bool :=
  match f with
  | Finite _ => false
  | NaN | PosInf | NegInf => true
  end.

Definition obj_token (o : obj) : bool :=
  match o with
  | OFloat f => float_token f
  | _ => false
  end.

(** Does a cell of the column serialize to one of the three tokens? *)
Definition emits_token (c : column) : bool :=
  match c with
  | CObject cells => existsb obj_token cells
  | CFloat64 cells =>
      existsb (fun x => match x with Some f => float_token f | None => false end) cells
  | CInt64 _ | CBool _ => false
  end.

Section Texts.

(** [str(x)] of a finite float *)
Variable str_of_float : Q -> string.

(** [str(x)] of a cell *)
Definition py_str (o : obj) : string :=
  match o with
  | ONone => "None"
  | OFloat (Finite q) => str_of_float q
  | OFloat NaN => "nan"
  | OFloat PosInf => "inf"
  | OFloat NegInf => "-inf"
  | OInt z => str_of_Z z
  | OStr s => s
  | OBool true => "True"
  | OBool false => "False"
  | OOther text => text
  end.

(** [.astype(str).replace('nan', None)] on one cell *)
Definition to_text (o : obj) : obj :=
  let s := py_str o in
  if String.eqb s "nan" then ONone else OStr s.

(** The body of the loop over the columns, by dtype; a column of truth
    values matches no branch. *)
Definition convert (c : raw_column) : column :=
  match c with
  | RObject cells => CObject (map to_text cells)
  | RInt64 cells => CInt64 (map Some cells)
  | RFloat64 cells =>
      CFloat64 (map (fun f => match f with NaN => None | _ => Some f end) cells)
  | RBool cells => CBool cells
  end.

(** [_clean_dataframe_for_json] *)
Definition _clean_dataframe_for_json (df : dataframe) : cleaned_frame :=
  let df_cleaned := map (fun nc => (fst nc, replace_inf (snd nc))) df in
  let df_cleaned := map (fun nc => (fst nc, convert (snd nc))) df_cleaned in
  map (fun nc => (fst nc, where_notnull (snd nc))) df_cleaned.

(** What becomes of one column. *)
Definition clean_column (c : raw_column) : column :=
  where_notnull (convert (replace_inf c)).

(** What becomes of a cell of a column of dtype [object]. *)
Definition clean_obj (o : obj) : obj :=
  let o := to_text (replace_inf_obj o) in
  if notnull_obj o then o else ONone.

(** What becomes of a cell of a column of dtype [float64]. *)
Definition clean_float (f : float) : option float :=
  match replace_inf_float f with
  | NaN => None
  | f' => Some f'
  end.

End Texts.

(** A result with a text column in which one region is NULL and a float
    column with a missing and an infinite number. *)
Definition regions_raw : dataframe :=
  [("REGION", RObject [OStr "EAST"; ONone; OStr "WEST"]);
   ("SHARE", RFloat64 [Finite (Qmake 3 1); NaN; PosInf])].

End Cleaner.

(* ===================================================================== *)
(** * Part II: properties                                                *)
(* ===================================================================== *)

Module PyStrFacts.
Import PyStr.

Lemma app_nil (s : string) : "" ++ s = s.
Proof. reflexivity. Qed.

Lemma app_cons (c : ascii) (a s : string) :
  String c a ++ s = String c (a ++ s).
Proof. reflexivity. Qed.

Lemma app_nil_r (s : string) : s ++ "" = s.
Proof. induction s as [|c s IH]; [reflexivity|]. rewrite app_cons, IH. reflexivity. Qed.

Lemma app_assoc (a b c : string) : (a ++ b) ++ c = a ++ b ++ c.
Proof.
  induction a as [|x a IH]; [reflexivity|].
  rewrite !app_cons, IH. reflexivity.
Qed.

Lemma prefix_app (p s : string) :
  String.prefix p s = true -> s = p ++ skip (String.length p) s.
Proof.
  revert s. induction p as [|c p IH]; intros s H.
  - reflexivity.
  - destruct s as [|d s]; [discriminate|]. simpl in H.
    destruct (Ascii.ascii_dec c d) as [->|]; [|discriminate].
    rewrite app_cons. simpl. f_equal. apply IH, H.
Qed.

Lemma prefix_of_app (p s : string) : String.prefix p (p ++ s) = true.
Proof.
  induction p as [|c p IH]; [destruct s; reflexivity|].
  rewrite app_cons. simpl. destruct (Ascii.ascii_dec c c); [exact IH|congruence].
Qed.

Lemma skip_app (p s : string) : skip (String.length p) (p ++ s) = s.
Proof. induction p as [|c p IH]; [reflexivity|]. rewrite app_cons. exact IH. Qed.

Lemma space_not_word (c : ascii) : is_space c = true -> is_word c = false.
Proof.
  destruct c as [[] [] [] [] [] [] [] []]; vm_compute; congruence.
Qed.

Lemma is_word_upper (c : ascii) : is_word (upper_char c) = is_word c.
Proof.
  destruct c as [[] [] [] [] [] [] [] []]; vm_compute; reflexivity.
Qed.

Lemma last_is_word_all (b : bool) (c : ascii) (s : string) :
  all_word (String c s) = true -> last_is_word b (String c s) = true.
Proof.
  revert b c. induction s as [|d s IH]; intros b c H; simpl in *.
  - apply andb_true_iff in H. tauto.
  - apply andb_true_iff in H. destruct H as [_ H]. apply (IH (is_word c) d H).
Qed.

Lemma last_is_word_app (b : bool) (p s : string) :
  last_is_word b (p ++ s) = last_is_word (last_is_word b p) s.
Proof.
  revert b. induction p as [|c p IH]; intros b; [reflexivity|].
  rewrite app_cons. simpl. apply IH.
Qed.

Lemma re_search_from_eq (before : bool) (kw s : string) :
  re_search_from before kw s =
  match_here before kw s ||
  match s with
  | EmptyString => false
  | String c r => re_search_from (is_word c) kw r
  end.
Proof. destruct s; reflexivity. Qed.

(** The search succeeds exactly when the text splits around a whole-word
    occurrence of the keyword. *)
Lemma re_search_from_sound (kw : string) :
  kw <> "" -> all_word kw = true ->
  forall s before,
    re_search_from before kw s = true ->
    exists pre post,
      s = pre ++ kw ++ post
      /\ last_is_word before pre = false
      /\ head_is_word post = false.
Proof.
  intros Hne Hw s. induction s as [|c s IH]; intros before H.
  - simpl in H. rewrite orb_false_r in H.
    unfold match_here in H. apply andb_true_iff in H. destruct H as [H _].
    apply andb_true_iff in H. destruct H as [_ H].
    destruct kw; [congruence|discriminate].
  - simpl in H. apply orb_true_iff in H. destruct H as [H|H].
    + unfold match_here in H.
      apply andb_true_iff in H. destruct H as [H H3].
      apply andb_true_iff in H. destruct H as [H1 H2].
      pose proof (prefix_app _ _ H2) as E.
      destruct kw as [|k kw]; [congruence|].
      assert (Hk : is_word k = true).
      { simpl in Hw. apply andb_true_iff in Hw. tauto. }
      exists "", (skip (String.length (String k kw)) (String c s)).
      split; [exact E|]. split.
      * simpl. unfold boundary in H1.
        simpl in H2. destruct (Ascii.ascii_dec k c) as [->|]; [|discriminate].
        simpl in H1. rewrite Hk in H1. destruct before; [discriminate|reflexivity].
      * unfold boundary in H3. rewrite (last_is_word_all _ _ _ Hw) in H3.
        destruct (head_is_word _); [discriminate|reflexivity].
    + destruct (IH _ H) as (pre & post & E & Hp & Hq).
      exists (String c pre), post. rewrite app_cons, <- E. auto.
Qed.

Lemma re_search_from_complete (kw : string) :
  kw <> "" -> all_word kw = true ->
  forall pre post before,
    last_is_word before pre = false ->
    head_is_word post = false ->
    re_search_from before kw (pre ++ kw ++ post) = true.
Proof.
  intros Hne Hw pre. induction pre as [|c pre IH]; intros post before Hp Hq.
  - rewrite app_nil. simpl in Hp. subst before.
    destruct kw as [|k kw]; [congruence|].
    assert (Hk : is_word k = true).
    { simpl in Hw. apply andb_true_iff in Hw. tauto. }
    assert (M : match_here false (String k kw) (String k kw ++ post) = true).
    { unfold match_here. rewrite prefix_of_app, skip_app.
      rewrite (last_is_word_all _ _ _ Hw). unfold boundary.
      rewrite Hq, app_cons. simpl. rewrite Hk. reflexivity. }
    rewrite re_search_from_eq, M. reflexivity.
  - rewrite app_cons. simpl. rewrite (IH post (is_word c) Hp Hq).
    apply orb_true_r.
Qed.

Lemma re_search_word_iff (kw s : string) :
  kw <> "" -> all_word kw = true ->
  re_search_word kw s = true <->
  exists pre post,
    s = pre ++ kw ++ post
    /\ last_is_word false pre = false
    /\ head_is_word post = false.
Proof.
  intros Hne Hw. split.
  - apply re_search_from_sound; assumption.
  - intros (pre & post & -> & Hp & Hq).
    apply re_search_from_complete; assumption.
Qed.

(** *** Trimming keeps a whole-word occurrence *)

Lemma lstrip_keeps (k : ascii) (kw post pre : string) :
  is_word k = true ->
  last_is_word false pre = false ->
  exists pre',
    lstrip (pre ++ String k kw ++ post) = pre' ++ String k kw ++ post
    /\ last_is_word false pre' = false.
Proof.
  intros Hk. induction pre as [|c pre IH]; intros Hp.
  - exists "". rewrite !app_nil, app_cons. simpl.
    destruct (is_space k) eqn:Es.
    + apply space_not_word in Es. congruence.
    + auto.
  - rewrite app_cons. simpl. destruct (is_space c) eqn:Es.
    + apply IH. simpl in Hp. rewrite (space_not_word _ Es) in Hp. exact Hp.
    + exists (String c pre). rewrite app_cons. auto.
Qed.

Lemma rstrip_app (a b : string) :
  rstrip (a ++ b) = if is_empty (rstrip b) then rstrip a else a ++ rstrip b.
Proof.
  induction a as [|c a IH].
  - rewrite !app_nil. simpl. destruct (rstrip b); reflexivity.
  - rewrite app_cons. simpl. rewrite IH.
    destruct (is_empty (rstrip b)) eqn:E; [reflexivity|].
    rewrite app_cons.
    destruct a; [rewrite app_nil; destruct (rstrip b); [discriminate|reflexivity]|].
    reflexivity.
Qed.

Lemma rstrip_all_word (s : string) : all_word s = true -> rstrip s = s.
Proof.
  induction s as [|c s IH]; intros H; [reflexivity|].
  simpl in *. apply andb_true_iff in H. destruct H as [Hc Hs].
  rewrite (IH Hs).
  destruct (is_space c) eqn:Es.
  - apply space_not_word in Es. congruence.
  - rewrite andb_false_r. reflexivity.
Qed.

Lemma head_is_word_rstrip (s : string) :
  head_is_word s = false -> head_is_word (rstrip s) = false.
Proof.
  destruct s as [|c s]; intros H; [reflexivity|].
  simpl in *. destruct (is_empty (rstrip s) && is_space c); [reflexivity|exact H].
Qed.

Lemma rstrip_keeps (kw pre post : string) :
  kw <> "" -> all_word kw = true ->
  head_is_word post = false ->
  exists post',
    rstrip (pre ++ kw ++ post) = pre ++ kw ++ post'
    /\ head_is_word post' = false.
Proof.
  intros Hne Hw Hq.
  assert (K : rstrip (kw ++ post) = kw ++ rstrip post).
  { rewrite rstrip_app. destruct (is_empty (rstrip post)) eqn:E.
    - destruct (rstrip post); [|discriminate].
      rewrite app_nil_r. apply rstrip_all_word, Hw.
    - reflexivity. }
  exists (rstrip post). split.
  - rewrite rstrip_app, K.
    destruct kw as [|k kw]; [congruence|]. rewrite app_cons. reflexivity.
  - apply head_is_word_rstrip, Hq.
Qed.

End PyStrFacts.

Module ValidatorFacts.
Import PyStr PyStrFacts Validator.

Lemma dangerous_keywords_wordy (kw : string) :
  In kw dangerous_keywords -> kw <> "" /\ all_word kw = true.
Proof.
  unfold dangerous_keywords. simpl.
  intros H. repeat (destruct H as [<-|H]; [split; [discriminate|reflexivity]|]).
  contradiction.
Qed.

Lemma scan_keywords_true (kws : list string) (s : string) :
  scan_keywords kws s = true <->
  forall kw, In kw kws -> re_search_word kw s = false.
Proof.
  induction kws as [|k kws IH]; simpl.
  - split; [intros _ kw []|reflexivity].
  - destruct (re_search_word k s) eqn:E.
    + split; [discriminate|]. intros H. rewrite <- E. symmetry. apply H. auto.
    + rewrite IH. split.
      * intros H kw [<-|Hin]; auto.
      * intros H kw Hin. apply H. auto.
Qed.

Lemma standalone_strip (kw s : string) :
  kw <> "" -> all_word kw = true ->
  standalone kw s -> standalone kw (strip s).
Proof.
  intros Hne Hw (pre & post & -> & Hp & Hq).
  destruct kw as [|k kw]; [congruence|].
  assert (Hk : is_word k = true).
  { simpl in Hw. apply andb_true_iff in Hw. tauto. }
  destruct (lstrip_keeps k kw post pre Hk Hp) as (pre' & E1 & Hp').
  destruct (rstrip_keeps (String k kw) pre' post Hne Hw Hq) as (post' & E2 & Hq').
  exists pre', post'. unfold strip. rewrite E1, E2. auto.
Qed.

Lemma embedded_only_search (kw s : string) :
  kw <> "" -> all_word kw = true ->
  embedded_only kw s <-> re_search_word kw s = false.
Proof.
  intros Hne Hw. split.
  - intros H. destruct (re_search_word kw s) eqn:E; [|reflexivity].
    apply (re_search_word_iff kw s Hne Hw) in E.
    destruct E as (pre & post & E & Hp & Hq).
    destruct (H pre post E) as [X|X]; congruence.
  - intros H pre post E.
    destruct (last_is_word false pre) eqn:Hp; [auto|].
    destruct (head_is_word post) eqn:Hq; [auto|].
    assert (re_search_word kw s = true); [|congruence].
    apply (re_search_word_iff kw s Hne Hw). eauto.
Qed.

Lemma standalone_search (kw s : string) :
  kw <> "" -> all_word kw = true ->
  standalone kw s <-> re_search_word kw s = true.
Proof.
  intros Hne Hw. symmetry. apply re_search_word_iff; assumption.
Qed.

(** C2. Word-boundary safety.  A statement that, trimmed and in upper case,
    begins with SELECT or WITH and in which every forbidden keyword occurs
    only inside a longer identifier is accepted; a statement in which a
    forbidden keyword stands as a whole word (in any letter case) is
    rejected. *)
Theorem validate_query_word_boundary (query : string) :
  (startswith (strip (upper query)) "SELECT" = true
     \/ startswith (strip (upper query)) "WITH" = true ->
   (forall kw, In kw dangerous_keywords ->
               embedded_only kw (strip (upper query))) ->
   validate_query query = true)
  /\
  (forall kw, In kw dangerous_keywords ->
              standalone kw (upper query) ->
              validate_query query = false).
Proof.
  split.
  - intros Hstart Hemb. unfold validate_query.
    assert (S : startswith (strip (upper query)) "SELECT"
                || startswith (strip (upper query)) "WITH" = true).
    { apply orb_true_iff. exact Hstart. }
    rewrite S. simpl negb. cbv iota.
    apply scan_keywords_true. intros kw Hin.
    destruct (dangerous_keywords_wordy kw Hin) as [Hne Hw].
    apply (embedded_only_search kw _ Hne Hw). apply Hemb, Hin.
  - intros kw Hin Hst. unfold validate_query.
    destruct (negb _); [reflexivity|].
    destruct (scan_keywords dangerous_keywords (strip (upper query))) eqn:E;
      [|reflexivity].
    destruct (dangerous_keywords_wordy kw Hin) as [Hne Hw].
    pose proof (proj1 (scan_keywords_true _ _) E kw Hin) as F.
    apply (standalone_strip kw _ Hne Hw) in Hst.
    apply (standalone_search kw _ Hne Hw) in Hst. congruence.
Qed.

Lemma validate_query_word_boundary_witness :
  validate_query "SELECT UPDATED_AT FROM T" = true
  /\ validate_query "update T set X = 1" = false.
Proof.
  split.
  - apply (proj1 (validate_query_word_boundary "SELECT UPDATED_AT FROM T")).
    + left. reflexivity.
    + intros kw Hin.
      destruct (dangerous_keywords_wordy kw Hin) as [Hne Hw].
      apply (embedded_only_search kw _ Hne Hw).
      unfold dangerous_keywords in Hin. simpl in Hin.
      repeat (destruct Hin as [<-|Hin]; [vm_compute; reflexivity|]).
      contradiction.
  - apply (proj2 (validate_query_word_boundary "update T set X = 1") "UPDATE").
    + unfold dangerous_keywords. simpl. tauto.
    + exists "", " T SET X = 1". repeat split.
Defined.

(** C6. Statement-prefix requirement.  A statement that, trimmed and in
    upper case, begins neither with SELECT nor with WITH is rejected,
    whatever else it contains; so is the statement
    [DROP TABLE RPT_WOPS_TICKETS; SELECT 1]. *)
Theorem validate_query_prefix_required :
  (forall query,
      startswith (strip (upper query)) "SELECT" = false ->
      startswith (strip (upper query)) "WITH" = false ->
      validate_query query = false)
  /\ validate_query "DROP TABLE RPT_WOPS_TICKETS; SELECT 1" = false.
Proof.
  split; [|reflexivity].
  intros query H1 H2. unfold validate_query. rewrite H1, H2. reflexivity.
Qed.

Lemma validate_query_prefix_required_witness :
  validate_query "  explain select 1" = false.
Proof.
  apply (proj1 validate_query_prefix_required); reflexivity.
Defined.

End ValidatorFacts.

Module GatewayFacts.
Import PyStr PyStrFacts Gateway.

Ltac run_monad :=
  cbv [get_table_schema fetch_table_schema get_available_tables
       get_table_sample get_table_sample_ordered execute_query
       cursor_execute cursor_describe try_except bind ret get modify lift
       set_schema_cache set_table_list_cache _update_cache_timestamp
       _invalidate_cache].

(** *** [execute_query] *)

Lemma execute_query_eq (wh : warehouse) (query : string) (g : gateway) :
  execute_query wh query g =
  (run wh (with_limit query), log_sent (with_limit query) g).
Proof. run_monad. destruct (run wh (with_limit query)); reflexivity. Qed.

Lemma endswith_refl (s : string) : endswith s s = true.
Proof. destruct s; cbn [endswith]; rewrite String.eqb_refl; reflexivity. Qed.

Lemma endswith_app (a b : string) : endswith (a ++ b) b = true.
Proof.
  induction a as [|c a IH].
  - rewrite app_nil. apply endswith_refl.
  - rewrite app_cons. simpl. rewrite IH. apply orb_true_r.
Qed.

Lemma table_rows_length (n : nat) : List.length (table_rows n) = n.
Proof. unfold table_rows. rewrite length_map, length_seq. reflexivity. Qed.

Lemma demo_run_bounded (size : nat) (stmt : string) (f : frame) :
  demo_run size stmt = Returned f -> (List.length (rows f) <= size)%nat.
Proof.
  unfold demo_run.
  destruct (String.eqb _ "SELECT * FROM T").
  - intros [= <-]. simpl. rewrite table_rows_length. lia.
  - destruct (startswith _ _); [|discriminate].
    destruct (parse_nat _); [|discriminate].
    intros [= <-]. simpl. rewrite length_firstn, table_rows_length. lia.
Qed.


Example execute_query_adds_limit :
  with_limit "SELECT AGENT_NAME, ADHERENCE_PERCENTAGE FROM RPT_AGENT_SCHEDULE_ADHERENCE"
  = "SELECT AGENT_NAME, ADHERENCE_PERCENTAGE FROM RPT_AGENT_SCHEDULE_ADHERENCE LIMIT 200"
  /\ with_limit " SELECT 1 ; " = "SELECT 1  LIMIT 200;".
Proof. split; reflexivity. Qed.

(** *** The metadata cache *)

Lemma get_table_schema_hit (wh : warehouse) (now later : Z) (table : string)
      (cached : schema) (g : gateway) :
  schema_cache g !! table = Some cached ->
  _is_cache_valid now g = true ->
  get_table_schema wh now later table g = (Returned cached, g).
Proof. intros H V. run_monad. rewrite H, V. reflexivity. Qed.

Lemma get_table_schema_refresh (wh : warehouse) (now later : Z) (table : string)
      (rs : list describe_row) (g : gateway) :
  _is_cache_valid now g = false ->
  describe wh (describe_query g table) = Returned rs ->
  exists g',
    get_table_schema wh now later table g = (Returned (schema_of_rows rs []), g')
    /\ cache_timestamp g' = later
    /\ cache_ttl g' = cache_ttl g
    /\ table_list_cache g' = table_list_cache g
    /\ forall other, other <> table ->
                     schema_cache g' !! other = schema_cache g !! other.
Proof.
  intros V D. run_monad. rewrite V.
  destruct (schema_cache g !! table); rewrite D;
    (eexists; split; [reflexivity|]; simpl; repeat split; auto;
     intros other Hne; apply lookup_insert_ne; congruence).
Qed.

(** Once one table has been read again after the hour, every other entry
    filled before the hour is served again, without a statement being
    sent. *)
Lemma stale_entry_served_again (wh wh' : warehouse) (now later now' later' : Z)
      (table other : string) (rs : list describe_row) (cached : schema)
      (g : gateway) :
  other <> table ->
  schema_cache g !! other = Some cached ->
  _is_cache_valid now g = false ->
  describe wh (describe_query g table) = Returned rs ->
  (now' - later < cache_ttl g)%Z ->
  exists g',
    get_table_schema wh now later table g = (Returned (schema_of_rows rs []), g')
    /\ get_table_schema wh' now' later' other g' = (Returned cached, g').
Proof.
  intros Hne Hc V D Hlt.
  destruct (get_table_schema_refresh wh now later table rs g V D)
    as (g' & E & Ts & Ttl & _ & Keep).
  exists g'. split; [exact E|].
  apply get_table_schema_hit.
  - rewrite (Keep other Hne). exact Hc.
  - unfold _is_cache_valid. rewrite Ts, Ttl. apply Z.ltb_lt. exact Hlt.
Qed.

(** C3, at a connection whose cache was filled at time 1000 and holds two
    tables and the table list.  At time 4600 the hour has passed.  Reading
    the metadata of the first table describes it anew and stamps the cache
    with 4601; reading the second table at 4602 then yields what was
    cached before the hour and sends no statement, although the warehouse
    now describes the table differently; the table list cached before the
    hour is served as well. *)
Theorem stale_epoch_entries_survive :
  _is_cache_valid 4600 aged_gateway = false
  /\ exists g1,
    get_table_schema reporting_warehouse 4600 4601
      "RPT_WOPS_AGENT_PERFORMANCE" aged_gateway
    = (Returned (schema_of_rows performance_rows []), g1)
    /\ sent g1 = ["DESCRIBE TABLE DB.PUBLIC.RPT_WOPS_AGENT_PERFORMANCE"]
    /\ get_table_schema reporting_warehouse 4602 4603 "RPT_WOPS_TICKETS" g1
       = (Returned old_tickets, g1)
    /\ old_tickets <> schema_of_rows tickets_rows []
    /\ get_available_tables reporting_warehouse 4602 4603 g1
       = (Returned ["RPT_WOPS_TICKETS"], g1).
Proof.
  split; [reflexivity|].
  destruct (stale_entry_served_again reporting_warehouse reporting_warehouse
              4600 4601 4602 4603 "RPT_WOPS_AGENT_PERFORMANCE" "RPT_WOPS_TICKETS"
              performance_rows old_tickets aged_gateway)
    as (g1 & E1 & E2); try reflexivity; try discriminate.
  exists g1. split; [exact E1|].
  assert (S : sent g1 = ["DESCRIBE TABLE DB.PUBLIC.RPT_WOPS_AGENT_PERFORMANCE"]
              /\ table_list_cache g1 = Some ["RPT_WOPS_TICKETS"]
              /\ _is_cache_valid 4602 g1 = true).
  { revert E1. run_monad.
    change (_is_cache_valid 4600 aged_gateway) with false.
    destruct (schema_cache aged_gateway !! "RPT_WOPS_AGENT_PERFORMANCE");
      intros [= <-]; repeat split. }
  destruct S as (S1 & S2 & S3).
  split; [exact S1|]. split; [exact E2|]. split; [discriminate|].
  run_monad. rewrite S2, S3. reflexivity.
Qed.

(** *** The table list *)

Lemma verify_tables_all_fail (wh : warehouse) (tables acc : list string)
      (g : gateway) :
  (forall t stmt, In t tables -> exists e, run wh stmt = Raised e) ->
  exists g',
    verify_tables wh tables acc g = (Returned acc, g')
    /\ schema_cache g' = schema_cache g
    /\ database g' = database g /\ schema_name g' = schema_name g
    /\ cache_ttl g' = cache_ttl g.
Proof.
  revert g. induction tables as [|t ts IH]; intros g H.
  - exists g. repeat split.
  - simpl. unfold bind at 1. unfold try_except at 1. unfold bind at 1.
    unfold get at 1. unfold bind at 1. rewrite execute_query_eq.
    destruct (H t (with_limit (probe_query g t)) (or_introl eq_refl)) as [e ->].
    unfold ret at 1.
    destruct (IH (log_sent (with_limit (probe_query g t)) g)) as (g' & E & K).
    { intros t' stmt Hin. apply (H t' stmt). right. exact Hin. }
    exists g'. split; [exact E|exact K].
Qed.

(** C4, at a connection that has just been opened to a warehouse where
    every statement raises.  All five probes fail; the call returns the
    empty list, not the five candidate tables, and caches it, so that the
    next call within the hour returns the empty list again whatever the
    warehouse does by then. *)
Theorem total_probe_failure_empty_list :
  exists g',
    get_available_tables unreachable_warehouse 10 11 (connect "DB" "PUBLIC")
    = (Returned [], g')
    /\ List.length (sent g') = 5%nat
    /\ table_list_cache g' = Some []
    /\ forall wh, get_available_tables wh 12 13 g' = (Returned [], g').
Proof.
  eexists. split; [vm_compute; reflexivity|].
  split; [reflexivity|]. split; [reflexivity|].
  intros wh. reflexivity.
Qed.

(** Total failure of the probes always ends in the empty list. *)
Lemma total_probe_failure_general (wh : warehouse) (now later : Z) (g : gateway) :
  table_list_cache g = None ->
  (forall stmt, exists e, run wh stmt = Raised e) ->
  exists g',
    get_available_tables wh now later g = (Returned [], g')
    /\ table_list_cache g' = Some [].
Proof.
  intros Hn Hf.
  destruct (verify_tables_all_fail wh allowed_tables [] g) as (g' & E & _).
  { intros t stmt _. apply Hf. }
  unfold get_available_tables. unfold bind at 1. unfold get at 1.
  rewrite Hn. unfold try_except. unfold bind at 1. rewrite E.
  eexists. split; reflexivity.
Qed.

(** *** [get_table_schema] does not raise *)

(** C10. A call of [get_table_schema] returns a metadata map, whatever
    the warehouse and the cache are; and when the table is not served
    from the cache and both the DESCRIBE statement and the one-row
    SELECT raise, the map returned is the empty one. *)
Theorem get_table_schema_never_raises
        (wh : warehouse) (now later : Z) (table_name : string) (g : gateway) :
  (exists s g', get_table_schema wh now later table_name g = (Returned s, g'))
  /\
  ((schema_cache g !! table_name = None \/ _is_cache_valid now g = false) ->
   (exists e, describe wh (describe_query g table_name) = Raised e) ->
   (exists e, run wh (fallback_query g table_name) = Raised e) ->
   exists g', get_table_schema wh now later table_name g = (Returned [], g')
              /\ schema_cache g' = schema_cache g).
Proof.
  split.
  - run_monad.
    destruct (schema_cache g !! table_name);
      [destruct (_is_cache_valid now g); [eauto|]|];
      (destruct (describe wh _); [eauto|]);
      (destruct (run wh _); eauto).
  - intros Hmiss [e1 H1] [e2 H2]. run_monad.
    assert (F : fallback_query (log_sent (describe_query g table_name) g) table_name
                = fallback_query g table_name) by reflexivity.
    destruct Hmiss as [Hm|Hv].
    + rewrite Hm, H1, F, H2. eauto.
    + rewrite Hv.
      destruct (schema_cache g !! table_name); rewrite H1, F, H2; eauto.
Qed.

Lemma get_table_schema_never_raises_witness :
  exists g',
    get_table_schema unreachable_warehouse 10 11 "RPT_WOPS_TICKETS"
      (connect "DB" "PUBLIC") = (Returned [], g')
    /\ schema_cache g' = schema_cache (connect "DB" "PUBLIC").
Proof.
  apply (proj2 (get_table_schema_never_raises unreachable_warehouse 10 11
                  "RPT_WOPS_TICKETS" (connect "DB" "PUBLIC"))).
  - left. reflexivity.
  - exists "connection lost". reflexivity.
  - exists "connection lost". reflexivity.
Defined.

(** *** The ordered sampler *)










End GatewayFacts.

Module OrchestratorFacts.
Import PyStr Orchestrator.

Lemma with_session_info_other (info : option json) (result : gmap string json)
      (key : string) :
  key <> "session_info" ->
  with_session_info info result !! key = result !! key.
Proof.
  intros H. unfold with_session_info. destruct info; [|reflexivity].
  apply lookup_insert_ne. congruence.
Qed.


(** The premise on the entries of the parsed reply is needed: a reply in
    JSON without a statement, but with entries [data] and [success] of its
    own, is passed on with these entries. *)
Lemma shape_premise_needed : ~ any_reply_property.
Proof.
  intros H.
  specialize (H loads_json_reply (fun _ => []) (fun _ => ∅) (fun _ => None) None
                json_reply eq_refl).
  destruct H as (_ & H & _). vm_compute in H. discriminate.
Qed.

Lemma candidate_lookup (parsed : gmap string json) (key : string) :
  candidate_query parsed -> ~ In key candidate_keys -> parsed !! key = None.
Proof. intros H. apply H. Qed.




End OrchestratorFacts.

Module ChartsFacts.
Import PyStr Charts.

(** *** Keys, distinct values and sorting *)

Lemma key_eqb_eq (a b : key) : key_eqb a b = true <-> a = b.
Proof.
  destruct a as [x|x], b as [y|y]; simpl; split; try discriminate.
  - intros H. apply String.eqb_eq in H. congruence.
  - intros [= ->]. apply String.eqb_refl.
  - intros H. apply Z.eqb_eq in H. congruence.
  - intros [= ->]. apply Z.eqb_refl.
Qed.

Lemma key_eqb_refl (a : key) : key_eqb a a = true.
Proof. apply key_eqb_eq. reflexivity. Qed.

Lemma dedup_In (x : key) (l : list key) : In x (dedup l) <-> In x l.
Proof.
  induction l as [|k l IH]; [simpl; tauto|].
  cbn [dedup In]. rewrite List.filter_In, IH. split.
  - intros [H|[H _]]; auto.
  - intros [H|H]; [auto|].
    destruct (key_eqb k x) eqn:E.
    + left. apply key_eqb_eq, E.
    + right. auto.
Qed.

Lemma dedup_NoDup (l : list key) : List.NoDup (dedup l).
Proof.
  induction l as [|k l IH]; cbn [dedup]; constructor.
  - rewrite List.filter_In, key_eqb_refl. intros [_ H]. discriminate.
  - apply List.NoDup_filter, IH.
Qed.

Lemma dedup_length_le (l : list key) :
  (List.length (dedup l) <= List.length l)%nat.
Proof.
  induction l as [|k l IH]; [simpl; lia|].
  pose proof (List.filter_length_le (fun k' => negb (key_eqb k k')) (dedup l)).
  cbn [dedup List.length]. lia.
Qed.

Lemma insert_by_perm {A} (leb : A -> A -> bool) (x : A) (l : list A) :
  Permutation (insert_by leb x l) (x :: l).
Proof.
  induction l as [|y l IH]; simpl; [reflexivity|].
  destruct (leb x y); [reflexivity|].
  rewrite IH. apply perm_swap.
Qed.

Lemma sort_by_perm {A} (leb : A -> A -> bool) (l : list A) :
  Permutation (sort_by leb l) l.
Proof.
  induction l as [|x l IH]; simpl; [reflexivity|].
  rewrite insert_by_perm. apply perm_skip, IH.
Qed.

Lemma sort_by_length {A} (leb : A -> A -> bool) (l : list A) :
  List.length (sort_by leb l) = List.length l.
Proof. apply Permutation_length, sort_by_perm. Qed.

Lemma two_distinct_members {A} (l : list A) (a b : A) :
  In a l -> In b l -> a <> b -> (2 <= List.length l)%nat.
Proof.
  destruct l as [|x [|y l]]; simpl; intros Ha Hb Hne.
  - contradiction.
  - destruct Ha as [<-|[]], Hb as [<-|[]]. congruence.
  - lia.
Qed.

Lemma all_equal_short {A} (l : list A) :
  List.NoDup l -> (forall a b, In a l -> In b l -> a = b) ->
  (List.length l <= 1)%nat.
Proof.
  destruct l as [|x [|y l]]; simpl; intros Hn H; [lia|lia|].
  exfalso. inversion Hn as [|? ? Hx _]. apply Hx. left.
  apply H; auto.
Qed.

(** *** The keys of a text column *)

Lemma texts_In (s : string) (values : list (option string)) :
  In s (texts values) <-> In (Some s) values.
Proof.
  induction values as [|[v|] values IH]; simpl.
  - tauto.
  - rewrite IH. split; intros [H|H]; auto; [left|left]; congruence.
  - rewrite IH. split; [auto|]. intros [H|H]; [discriminate|exact H].
Qed.

Lemma texts_length (values : list (option string)) :
  (List.length (texts values) <= List.length values)%nat.
Proof. induction values as [|[v|] values IH]; simpl; lia. Qed.

Lemma present_keys_counted (values : list (option string)) :
  map fst (present (map (fun k => (k, tt)) (map (option_map KStr) values)))
  = map KStr (texts values).
Proof.
  induction values as [|[v|] values IH]; simpl; [reflexivity| |exact IH].
  rewrite IH. reflexivity.
Qed.

Lemma present_keys_grouped (values : list (option string)) (vals : list Z) :
  List.length values = List.length vals ->
  map fst (present (combine (map (option_map KStr) values) vals))
  = map KStr (texts values).
Proof.
  revert vals. induction values as [|[v|] values IH]; intros [|z vals] H;
    simpl in *; try discriminate; try reflexivity.
  - rewrite (IH vals) by lia. reflexivity.
  - apply IH. lia.
Qed.

Lemma region_keys_In (k : key) (values : list (option string)) :
  In k (region_keys values) <-> exists s, k = KStr s /\ In (Some s) values.
Proof.
  unfold region_keys. rewrite dedup_In, in_map_iff. split.
  - intros (s & <- & H). exists s. rewrite <- texts_In. auto.
  - intros (s & -> & H). exists s. rewrite texts_In. auto.
Qed.

Lemma region_keys_length (values : list (option string)) :
  (List.length (region_keys values) <= List.length values)%nat.
Proof.
  unfold region_keys.
  pose proof (dedup_length_le (map KStr (texts values))) as H.
  rewrite length_map in H. pose proof (texts_length values). lia.
Qed.

Lemma region_keys_two (values : list (option string)) (a b : string) :
  In (Some a) values -> In (Some b) values -> a <> b ->
  (2 <= List.length (region_keys values))%nat.
Proof.
  intros Ha Hb Hne.
  apply (two_distinct_members _ (KStr a) (KStr b)).
  - apply region_keys_In. eauto.
  - apply region_keys_In. eauto.
  - congruence.
Qed.

Lemma region_keys_one (values : list (option string)) :
  (forall a b, In (Some a) values -> In (Some b) values -> a = b) ->
  (List.length (region_keys values) <= 1)%nat.
Proof.
  intros H. apply all_equal_short; [apply dedup_NoDup|].
  intros x y Hx Hy.
  apply region_keys_In in Hx. destruct Hx as (a & -> & Ha).
  apply region_keys_In in Hy. destruct Hy as (b & -> & Hb).
  f_equal. apply H; assumption.
Qed.

Lemma region_labels_NoDup (values : list (option string)) :
  List.NoDup (map label_of_key (region_keys values)).
Proof.
  apply Finite.Injective_map_NoDup_in; [|apply dedup_NoDup].
  intros x y Hx Hy.
  apply region_keys_In in Hx. destruct Hx as (a & -> & _).
  apply region_keys_In in Hy. destruct Hy as (b & -> & _).
  simpl. congruence.
Qed.

Lemma region_labels_In (r : string) (values : list (option string)) :
  In r (map label_of_key (region_keys values)) <-> In (Some r) values.
Proof.
  rewrite in_map_iff. split.
  - intros (k & <- & H). apply region_keys_In in H.
    destruct H as (s & -> & H). exact H.
  - intros H. exists (KStr r). split; [reflexivity|].
    apply region_keys_In. eauto.
Qed.

(** *** The three generators on a result with REGION and COUNT *)

Lemma groupby_mean_length (values : list (option string)) (vals : list Z) :
  List.length values = List.length vals ->
  List.length (groupby_mean (map (option_map KStr) values) vals)
  = List.length (region_keys values).
Proof.
  intros H. unfold groupby_mean.
  rewrite length_map, sort_by_length, (present_keys_grouped _ _ H).
  reflexivity.
Qed.

Lemma value_counts_labels (values : list (option string)) :
  Permutation
    (map (fun r => label_of_key (fst r))
         (value_counts (map (option_map KStr) values)))
    (map label_of_key (region_keys values)).
Proof.
  unfold value_counts. rewrite present_keys_counted.
  rewrite (Permutation_map _ (sort_by_perm _ _)).
  rewrite map_map. reflexivity.
Qed.

Lemma value_counts_length (values : list (option string)) :
  List.length (value_counts (map (option_map KStr) values))
  = List.length (region_keys values).
Proof.
  rewrite <- (length_map (fun r => label_of_key (fst r))).
  rewrite (Permutation_length (value_counts_labels values)).
  apply length_map.
Qed.

Lemma trend_none (regions : list (option string)) (counts : list Z) (query : string) :
  _generate_trend_charts (region_frame regions counts) ["COUNT"] ["REGION"] query = [].
Proof. reflexivity. Qed.

Lemma comparison_some (regions : list (option string)) (counts : list Z)
      (query : string) :
  List.length regions = List.length counts ->
  (2 <= List.length (region_keys regions))%nat ->
  exists bar,
    _generate_comparison_charts (region_frame regions counts)
      ["COUNT"] ["REGION"] query = [bar]
    /\ ch_type bar = Bar.
Proof.
  intros Hl H2.
  pose proof (groupby_mean_length regions counts Hl) as G.
  unfold _generate_comparison_charts, comparison_chart, region_frame.
  cbn [firstn flat_map df_col String.eqb Ascii.eqb Bool.eqb col_keys app].
  set (sorted := sort_by _ (groupby_mean _ counts)).
  assert (S : List.length sorted = List.length (region_keys regions)).
  { unfold sorted. rewrite sort_by_length. exact G. }
  assert (L : (2 <= List.length
                      (if Nat.ltb 10 (List.length sorted)
                       then firstn 10 sorted else sorted))%nat).
  { destruct (Nat.ltb 10 (List.length sorted)) eqn:E.
    - apply Nat.ltb_lt in E. rewrite length_firstn. lia.
    - lia. }
  apply Nat.leb_le in L. rewrite L.
  eexists. split; reflexivity.
Qed.

Lemma comparison_none (regions : list (option string)) (counts : list Z)
      (query : string) :
  List.length regions = List.length counts ->
  (List.length (region_keys regions) <= 1)%nat ->
  _generate_comparison_charts (region_frame regions counts)
    ["COUNT"] ["REGION"] query = [].
Proof.
  intros Hl H1.
  pose proof (groupby_mean_length regions counts Hl) as G.
  unfold _generate_comparison_charts, comparison_chart, region_frame.
  cbn [firstn flat_map df_col String.eqb Ascii.eqb Bool.eqb col_keys app].
  set (sorted := sort_by _ (groupby_mean _ counts)).
  assert (S : List.length sorted = List.length (region_keys regions)).
  { unfold sorted. rewrite sort_by_length. exact G. }
  assert (E : Nat.ltb 10 (List.length sorted) = false).
  { apply Nat.ltb_ge. lia. }
  rewrite E.
  assert (L : Nat.leb 2 (List.length sorted) = false).
  { apply Nat.leb_gt. lia. }
  rewrite L. reflexivity.
Qed.

Lemma distribution_some (regions : list (option string)) (counts : list Z)
      (query : string) :
  (List.length regions <= 8)%nat ->
  (2 <= List.length (region_keys regions))%nat ->
  _generate_distribution_charts (region_frame regions counts)
    ["COUNT"] ["REGION"] query
  = [ {| ch_type := Doughnut;
         ch_title := "Distribution by REGION";
         ch_labels :=
           map (fun r => label_of_key (fst r))
               (value_counts (map (option_map KStr) regions));
         ch_dataset_label := "Count";
         ch_data :=
           map (fun r => inject_Z (Z.of_nat (snd r)))
               (value_counts (map (option_map KStr) regions)) |} ].
Proof.
  intros H8 H2.
  pose proof (value_counts_length regions) as V.
  pose proof (region_keys_length regions) as K.
  unfold _generate_distribution_charts, region_frame.
  cbn [nrows col_length df_col String.eqb Ascii.eqb Bool.eqb col_keys].
  assert (N : Nat.leb (List.length regions) 20 = true).
  { apply Nat.leb_le. lia. }
  rewrite N. rewrite firstn_all2 by lia.
  assert (L : Nat.leb 2 (List.length (value_counts (map (option_map KStr) regions)))
              = true).
  { apply Nat.leb_le. lia. }
  rewrite L. reflexivity.
Qed.

Lemma distribution_none (regions : list (option string)) (counts : list Z)
      (query : string) :
  (List.length regions <= 8)%nat ->
  (List.length (region_keys regions) <= 1)%nat ->
  _generate_distribution_charts (region_frame regions counts)
    ["COUNT"] ["REGION"] query = [].
Proof.
  intros H8 H1.
  pose proof (value_counts_length regions) as V.
  unfold _generate_distribution_charts, region_frame.
  cbn [nrows col_length df_col String.eqb Ascii.eqb Bool.eqb col_keys].
  assert (N : Nat.leb (List.length regions) 20 = true).
  { apply Nat.leb_le. lia. }
  rewrite N. rewrite firstn_all2 by lia.
  assert (L : Nat.leb 2 (List.length (value_counts (map (option_map KStr) regions)))
              = false).
  { apply Nat.leb_gt. lia. }
  rewrite L. reflexivity.
Qed.

Lemma generate_charts_region (regions : list (option string)) (counts : list Z)
      (query : string) (insights : list string) :
  List.length regions = 5%nat ->
  generate_charts_from_data (region_frame regions counts) query insights
  = firstn 3
      (_generate_trend_charts (region_frame regions counts) ["COUNT"] ["REGION"] query
       ++ _generate_comparison_charts (region_frame regions counts)
            ["COUNT"] ["REGION"] query
       ++ _generate_distribution_charts (region_frame regions counts)
            ["COUNT"] ["REGION"] query)%list.
Proof.
  intros H. unfold generate_charts_from_data.
  change (df_empty (region_frame regions counts))
    with (Nat.eqb (List.length regions) 0).
  change (nrows (region_frame regions counts)) with (List.length regions).
  rewrite H. reflexivity.
Qed.

(** Five rows of one and the same region get no chart at all. *)
Lemma one_doughnut_claim_fails : ~ one_doughnut_claim.
Proof.
  intros H.
  destruct (H [Some "EAST"; Some "EAST"; Some "EAST"; Some "EAST"; Some "EAST"]
              [12; 7; 9; 4; 21]%Z eq_refl eq_refl) as (d & E & _).
  vm_compute in E. discriminate.
Qed.

(** C9, as the code has it.  For a result of five rows with the text column
    REGION and the integer column COUNT and the question
    [show distribution by region], charts are asked for; when two rows
    differ in their REGION value, the charts are one bar chart followed by
    exactly one doughnut chart, whose labels are the different REGION
    values, each once, between two and five of them, with one number for
    each; and when no two rows differ in their REGION value, no chart is
    emitted. *)
Theorem distribution_chart_for_regions
        (regions : list (option string)) (counts : list Z) :
  List.length regions = 5%nat ->
  List.length counts = 5%nat ->
  should_generate_charts "show distribution by region"
    (region_frame regions counts) = true
  /\
  ((exists a b, In (Some a) regions /\ In (Some b) regions /\ a <> b) ->
   exists bar d,
     generate_charts_from_data (region_frame regions counts)
       "show distribution by region" [] = [bar; d]
     /\ ch_type bar = Bar
     /\ ch_type d = Doughnut
     /\ doughnuts [bar; d] = [d]
     /\ ch_title d = "Distribution by REGION"
     /\ List.NoDup (ch_labels d)
     /\ (forall r, In r (ch_labels d) <-> In (Some r) regions)
     /\ (2 <= List.length (ch_labels d) <= 5)%nat
     /\ List.length (ch_data d) = List.length (ch_labels d))
  /\
  ((forall a b, In (Some a) regions -> In (Some b) regions -> a = b) ->
   generate_charts_from_data (region_frame regions counts)
     "show distribution by region" [] = []).
Proof.
  intros Hr Hc. split; [|split].
  - unfold should_generate_charts.
    change (df_empty (region_frame regions counts))
      with (Nat.eqb (List.length regions) 0).
    change (nrows (region_frame regions counts)) with (List.length regions).
    rewrite Hr. reflexivity.
  - intros (a & b & Ha & Hb & Hne).
    pose proof (region_keys_two regions a b Ha Hb Hne) as H2.
    pose proof (region_keys_length regions) as H5.
    destruct (comparison_some regions counts "show distribution by region")
      as (bar & Eb & Tb); [lia|exact H2|].
    rewrite (generate_charts_region _ _ _ _ Hr), trend_none, Eb.
    rewrite distribution_some by (try exact H2; lia).
    eexists. eexists. split; [reflexivity|].
    pose proof (value_counts_labels regions) as P.
    split; [exact Tb|]. split; [reflexivity|].
    split; [simpl; rewrite Tb; reflexivity|].
    split; [reflexivity|]. cbn [ch_labels ch_data].
    split; [|split; [|split]].
    + apply (Permutation_NoDup (Permutation_sym P)), region_labels_NoDup.
    + intros r. rewrite <- region_labels_In. split; intros H.
      * apply (Permutation_in _ P H).
      * apply (Permutation_in _ (Permutation_sym P) H).
    + rewrite (Permutation_length P), length_map. lia.
    + rewrite !length_map. reflexivity.
  - intros Hsame.
    pose proof (region_keys_one regions Hsame) as H1.
    rewrite (generate_charts_region _ _ _ _ Hr), trend_none.
    rewrite comparison_none by (try exact H1; lia).
    rewrite distribution_none by (try exact H1; lia).
    reflexivity.
Qed.

Lemma distribution_chart_for_regions_witness :
  exists bar d,
    generate_charts_from_data
      (region_frame [Some "EAST"; Some "WEST"; Some "EAST"; None; Some "NORTH"]
                    [12; 7; 9; 4; 21]%Z)
      "show distribution by region" [] = [bar; d]
    /\ ch_type bar = Bar
    /\ ch_type d = Doughnut
    /\ doughnuts [bar; d] = [d]
    /\ ch_title d = "Distribution by REGION"
    /\ List.NoDup (ch_labels d)
    /\ (forall r, In r (ch_labels d)
                  <-> In (Some r) [Some "EAST"; Some "WEST"; Some "EAST"; None; Some "NORTH"])
    /\ (2 <= List.length (ch_labels d) <= 5)%nat
    /\ List.length (ch_data d) = List.length (ch_labels d).
Proof.
  apply (proj1 (proj2 (distribution_chart_for_regions
                         [Some "EAST"; Some "WEST"; Some "EAST"; None; Some "NORTH"]
                         [12; 7; 9; 4; 21]%Z eq_refl eq_refl))).
  exists "EAST", "WEST". simpl. split; [tauto|]. split; [tauto|]. discriminate.
Defined.

End ChartsFacts.

(** ** More on texts: containment, trimming and letter case *)

Module PyTextFacts.
Import PyStr PyStrFacts PyText.

Lemma prefix_iff (p s : string) :
  String.prefix p s = true <-> exists post, s = p ++ post.
Proof.
  split.
  - intros H. eexists. apply prefix_app, H.
  - intros [post ->]. apply prefix_of_app.
Qed.

Lemma contains_eq (p s : string) :
  contains p s =
  String.prefix p s ||
  match s with EmptyString => false | String _ r => contains p r end.
Proof. destruct s; reflexivity. Qed.

Lemma contains_iff (p s : string) :
  contains p s = true <-> exists pre post, s = pre ++ p ++ post.
Proof.
  split.
  - induction s as [|c s IH]; rewrite contains_eq; intros H.
    + rewrite orb_false_r in H. apply prefix_iff in H. destruct H as [post ->].
      exists "", post. reflexivity.
    + apply orb_true_iff in H. destruct H as [H|H].
      * apply prefix_iff in H. destruct H as [post ->]. exists "", post. reflexivity.
      * destruct (IH H) as (pre & post & ->). exists (String c pre), post.
        reflexivity.
  - intros (pre & post & ->). induction pre as [|c pre IH].
    + rewrite app_nil, contains_eq, prefix_of_app. reflexivity.
    + rewrite app_cons, contains_eq, IH. apply orb_true_r.
Qed.

Lemma contains_trans (p q s : string) :
  contains p q = true -> contains q s = true -> contains p s = true.
Proof.
  rewrite !contains_iff. intros (a & b & ->) (c & d & ->).
  exists (c ++ a), (b ++ d). rewrite !app_assoc. reflexivity.
Qed.

Lemma contains_app_r (p a b : string) :
  contains p b = true -> contains p (a ++ b) = true.
Proof.
  rewrite !contains_iff. intros (c & d & ->). exists (a ++ c), d.
  rewrite !app_assoc. reflexivity.
Qed.

Lemma contains_app_l (p a b : string) :
  contains p a = true -> contains p (a ++ b) = true.
Proof.
  rewrite !contains_iff. intros (c & d & ->). exists c, (d ++ b).
  rewrite !app_assoc. reflexivity.
Qed.

(** *** Letter case *)

Lemma upper_app (a b : string) : upper (a ++ b) = upper a ++ upper b.
Proof.
  induction a as [|c a IH]; [reflexivity|].
  rewrite app_cons. simpl. rewrite IH, app_cons. reflexivity.
Qed.

Lemma lower_app (a b : string) : lower (a ++ b) = lower a ++ lower b.
Proof.
  induction a as [|c a IH]; [reflexivity|].
  rewrite app_cons. simpl. rewrite IH, app_cons. reflexivity.
Qed.

Lemma upper_char_idem (c : ascii) : upper_char (upper_char c) = upper_char c.
Proof. destruct c as [[] [] [] [] [] [] [] []]; vm_compute; reflexivity. Qed.

Lemma upper_lower_char (c : ascii) : upper_char (lower_char c) = upper_char c.
Proof. destruct c as [[] [] [] [] [] [] [] []]; vm_compute; reflexivity. Qed.

Lemma is_space_upper (c : ascii) : is_space (upper_char c) = is_space c.
Proof. destruct c as [[] [] [] [] [] [] [] []]; vm_compute; reflexivity. Qed.

Lemma is_space_lower (c : ascii) : is_space (lower_char c) = is_space c.
Proof. destruct c as [[] [] [] [] [] [] [] []]; vm_compute; reflexivity. Qed.

Lemma upper_idem (s : string) : upper (upper s) = upper s.
Proof.
  induction s as [|c s IH]; [reflexivity|]. simpl.
  rewrite upper_char_idem, IH. reflexivity.
Qed.

Lemma upper_lower (s : string) : upper (lower s) = upper s.
Proof.
  induction s as [|c s IH]; [reflexivity|]. simpl.
  rewrite upper_lower_char, IH. reflexivity.
Qed.

Lemma is_empty_upper (s : string) : is_empty (upper s) = is_empty s.
Proof. destruct s; reflexivity. Qed.

Lemma is_empty_lower (s : string) : is_empty (lower s) = is_empty s.
Proof. destruct s; reflexivity. Qed.

Lemma lstrip_upper (s : string) : lstrip (upper s) = upper (lstrip s).
Proof.
  induction s as [|c s IH]; [reflexivity|]. simpl.
  rewrite is_space_upper. destruct (is_space c); [exact IH|reflexivity].
Qed.

Lemma rstrip_upper (s : string) : rstrip (upper s) = upper (rstrip s).
Proof.
  induction s as [|c s IH]; [reflexivity|]. simpl.
  rewrite IH, is_empty_upper, is_space_upper.
  destruct (is_empty (rstrip s) && is_space c); reflexivity.
Qed.

Lemma strip_upper (s : string) : strip (upper s) = upper (strip s).
Proof. unfold strip. rewrite lstrip_upper, rstrip_upper. reflexivity. Qed.

Lemma lstrip_lower (s : string) : lstrip (lower s) = lower (lstrip s).
Proof.
  induction s as [|c s IH]; [reflexivity|]. simpl.
  rewrite is_space_lower. destruct (is_space c); [exact IH|reflexivity].
Qed.

Lemma rstrip_lower (s : string) : rstrip (lower s) = lower (rstrip s).
Proof.
  induction s as [|c s IH]; [reflexivity|]. simpl.
  rewrite IH, is_empty_lower, is_space_lower.
  destruct (is_empty (rstrip s) && is_space c); reflexivity.
Qed.

Lemma strip_lower (s : string) : strip (lower s) = lower (strip s).
Proof. unfold strip. rewrite lstrip_lower, rstrip_lower. reflexivity. Qed.

(** *** Trimming *)

Lemma lstrip_split (s : string) :
  exists a, s = a ++ lstrip s /\ all_space a = true.
Proof.
  induction s as [|c s IH].
  - exists "". split; reflexivity.
  - simpl. destruct (is_space c) eqn:E.
    + destruct IH as (a & Ea & Ha). exists (String c a). split.
      * rewrite app_cons, <- Ea. reflexivity.
      * simpl. rewrite E, Ha. reflexivity.
    + exists "". split; reflexivity.
Qed.

Lemma rstrip_split (s : string) :
  exists b, s = rstrip s ++ b /\ all_space b = true.
Proof.
  induction s as [|c s IH].
  - exists "". split; reflexivity.
  - destruct IH as (b & Eb & Hb). simpl.
    destruct (is_empty (rstrip s)) eqn:E1; simpl.
    + destruct (rstrip s); [|discriminate]. rewrite app_nil in Eb. subst b.
      destruct (is_space c) eqn:E2.
      * exists (String c s). split; [reflexivity|]. simpl. rewrite E2, Hb. reflexivity.
      * exists s. split; [reflexivity|exact Hb].
    + exists b. split; [|exact Hb]. rewrite app_cons, <- Eb. reflexivity.
Qed.

Lemma strip_split (s : string) :
  exists a b, s = a ++ strip s ++ b /\ all_space a = true /\ all_space b = true.
Proof.
  destruct (lstrip_split s) as (a & Ea & Ha).
  destruct (rstrip_split (lstrip s)) as (b & Eb & Hb).
  exists a, b. split; [|auto]. unfold strip. rewrite <- Eb. exact Ea.
Qed.

Lemma lstrip_clean (s : string) : starts_clean s = true -> lstrip s = s.
Proof.
  destruct s as [|c s]; [reflexivity|]. simpl.
  destruct (is_space c); [discriminate|reflexivity].
Qed.

Lemma lstrip_starts_clean (s : string) : starts_clean (lstrip s) = true.
Proof.
  induction s as [|c s IH]; [reflexivity|]. simpl.
  destruct (is_space c) eqn:E; [exact IH|]. simpl. rewrite E. reflexivity.
Qed.

Lemma rstrip_starts_clean (s : string) :
  starts_clean s = true -> starts_clean (rstrip s) = true.
Proof.
  destruct s as [|c s]; [reflexivity|]. simpl. intros H.
  destruct (is_space c) eqn:E; [discriminate|].
  rewrite andb_false_r. simpl. rewrite E. reflexivity.
Qed.

Lemma rstrip_idem (s : string) : rstrip (rstrip s) = rstrip s.
Proof.
  induction s as [|c s IH]; [reflexivity|]. simpl.
  destruct (is_empty (rstrip s)) eqn:E1; simpl.
  - destruct (is_space c) eqn:E2; [reflexivity|]. simpl.
    destruct (rstrip s); [|discriminate]. simpl. rewrite E2. reflexivity.
  - simpl. rewrite IH, E1. reflexivity.
Qed.

Lemma strip_idem (s : string) : strip (strip s) = strip s.
Proof.
  unfold strip.
  rewrite (lstrip_clean (rstrip (lstrip s))).
  - apply rstrip_idem.
  - apply rstrip_starts_clean, lstrip_starts_clean.
Qed.

Lemma rstrip_clean (s : string) : ends_clean s = true -> rstrip s = s.
Proof.
  induction s as [|c s IH]; [reflexivity|]. simpl. intros H.
  destruct (is_empty s) eqn:E.
  - destruct s; [|discriminate]. simpl.
    destruct (is_space c); [discriminate|reflexivity].
  - rewrite (IH H), E. reflexivity.
Qed.

Lemma is_empty_app (a b : string) :
  is_empty (a ++ b) = is_empty a && is_empty b.
Proof. destruct a; [destruct b; reflexivity|reflexivity]. Qed.

(** A text without white space at its ends survives trimming wherever it
    occurs. *)
Lemma lstrip_keeps_part (p post pre : string) :
  starts_clean p = true -> p <> "" ->
  exists pre', lstrip (pre ++ p ++ post) = pre' ++ p ++ post.
Proof.
  intros Hp Hne. induction pre as [|c pre IH].
  - exists "". rewrite !app_nil. apply lstrip_clean.
    destruct p; [congruence|exact Hp].
  - rewrite app_cons. simpl. destruct (is_space c).
    + exact IH.
    + exists (String c pre). rewrite app_cons. reflexivity.
Qed.

Lemma rstrip_keeps_part (p pre post : string) :
  ends_clean p = true -> p <> "" ->
  exists post', rstrip (pre ++ p ++ post) = pre ++ p ++ post'.
Proof.
  intros Hp Hne.
  assert (K : exists post', rstrip (p ++ post) = p ++ post').
  { rewrite rstrip_app. destruct (is_empty (rstrip post)).
    - exists "". rewrite app_nil_r. apply rstrip_clean, Hp.
    - eauto. }
  destruct K as (post' & K). exists post'.
  rewrite rstrip_app, K, is_empty_app.
  destruct p; [congruence|]. reflexivity.
Qed.

Lemma contains_strip (p s : string) :
  p <> "" -> starts_clean p = true -> ends_clean p = true ->
  contains p (strip s) = contains p s.
Proof.
  intros Hne Hs He.
  apply eq_true_iff_eq. rewrite !contains_iff. split.
  - intros (pre & post & E).
    destruct (strip_split s) as (a & b & Es & _ & _).
    exists (a ++ pre), (post ++ b). rewrite Es, E, !app_assoc. reflexivity.
  - intros (pre & post & ->). unfold strip.
    destruct (lstrip_keeps_part p post pre Hs Hne) as (pre' & ->).
    destruct (rstrip_keeps_part p pre' post He Hne) as (post' & ->).
    eauto.
Qed.

End PyTextFacts.

(** ** More on the gateway *)

Module GatewayMoreFacts.
Import PyStr PyStrFacts PyText PyTextFacts Gateway GatewayFacts GatewayExt.

(** *** Table metadata as a dictionary *)

Lemma dict_get_set_same (k : string) (v : col_info) (d : schema) :
  dict_get k (dict_set k v d) = Some v.
Proof.
  induction d as [|[k' v'] d IH]; simpl.
  - rewrite String.eqb_refl. reflexivity.
  - destruct (String.eqb k' k) eqn:E; simpl; rewrite E; [reflexivity|exact IH].
Qed.

Lemma dict_get_set_other (k k' : string) (v : col_info) (d : schema) :
  k' <> k -> dict_get k' (dict_set k v d) = dict_get k' d.
Proof.
  intros Hne. induction d as [|[k0 v0] d IH]; simpl.
  - destruct (String.eqb k k') eqn:E; [|reflexivity].
    apply String.eqb_eq in E. congruence.
  - destruct (String.eqb k0 k) eqn:E; simpl.
    + apply String.eqb_eq in E. subst k0.
      destruct (String.eqb k k') eqn:E'; [|reflexivity].
      apply String.eqb_eq in E'. congruence.
    + rewrite IH. reflexivity.
Qed.

Lemma dict_set_keys_In (k k' : string) (v : col_info) (d : schema) :
  In k' (map fst (dict_set k v d)) <-> k' = k \/ In k' (map fst d).
Proof.
  induction d as [|[k0 v0] d IH]; simpl.
  - split; [intros [H|[]]; auto|intros [H|[]]; auto].
  - destruct (String.eqb k0 k) eqn:E; simpl.
    + apply String.eqb_eq in E. subst k0. split; [auto|].
      intros [H|H]; [left; congruence|exact H].
    + rewrite IH. tauto.
Qed.

Lemma dict_set_keys_NoDup (k : string) (v : col_info) (d : schema) :
  List.NoDup (map fst d) -> List.NoDup (map fst (dict_set k v d)).
Proof.
  induction d as [|[k0 v0] d IH]; simpl; intros H.
  - constructor; [intros []|constructor].
  - destruct (String.eqb k0 k) eqn:E; simpl; [exact H|].
    inversion H as [|? ? Hn Hd]; subst. constructor; [|apply IH, Hd].
    rewrite dict_set_keys_In. intros [->|Hin]; [|contradiction].
    rewrite String.eqb_refl in E. discriminate.
Qed.

Lemma dict_set_values (k : string) (v : col_info) (d : schema) (c : string)
      (i : col_info) :
  In (c, i) (dict_set k v d) -> (c = k /\ i = v) \/ In (c, i) d.
Proof.
  induction d as [|[k0 v0] d IH]; simpl.
  - intros [[= <- <-]|[]]. auto.
  - destruct (String.eqb k0 k) eqn:E; simpl.
    + apply String.eqb_eq in E. subst k0.
      intros [[= <- <-]|H]; auto.
    + intros [H|H]; [auto|]. destruct (IH H); auto.
Qed.

Lemma schema_of_rows_keys (rs : list describe_row) (acc : schema) (name : string) :
  In name (map fst (schema_of_rows rs acc)) <->
  In name (map fst acc) \/ exists r, In r rs /\ d_name r = name.
Proof.
  revert acc. induction rs as [|r rs IH]; intros acc; simpl.
  - split; [auto|]. intros [H|(r & [] & _)]. exact H.
  - rewrite IH, dict_set_keys_In. split.
    + intros [[->|H]|(r' & Hr & E)]; eauto.
    + intros [H|(r' & [<-|Hr] & E)]; eauto.
Qed.

Lemma schema_of_rows_NoDup (rs : list describe_row) (acc : schema) :
  List.NoDup (map fst acc) -> List.NoDup (map fst (schema_of_rows rs acc)).
Proof.
  revert acc. induction rs as [|r rs IH]; intros acc H; simpl; [exact H|].
  apply IH, dict_set_keys_NoDup, H.
Qed.

Lemma schema_of_rows_keeps (rs : list describe_row) (acc : schema) (name : string) :
  (forall r, In r rs -> d_name r <> name) ->
  dict_get name (schema_of_rows rs acc) = dict_get name acc.
Proof.
  revert acc. induction rs as [|r rs IH]; intros acc H; simpl; [reflexivity|].
  rewrite IH by (intros r' Hr; apply H; right; exact Hr).
  apply dict_get_set_other. intros E. apply (H r (or_introl eq_refl)). auto.
Qed.

Lemma schema_of_rows_app (rs1 rs2 : list describe_row) (acc : schema) :
  schema_of_rows (rs1 ++ rs2)%list acc = schema_of_rows rs2 (schema_of_rows rs1 acc).
Proof.
  revert acc. induction rs1 as [|r rs1 IH]; intros acc; simpl; [reflexivity|].
  apply IH.
Qed.

(** X1. The metadata built from the rows of DESCRIBE TABLE has one entry
    for each column name that occurs in the rows and no other entry, no
    name twice, and the entry of a name is the one of the last row that
    carries the name. *)
Theorem schema_of_rows_dictionary (rs : list describe_row) :
  List.NoDup (map fst (schema_of_rows rs []))
  /\ (forall name, In name (map fst (schema_of_rows rs []))
                   <-> exists r, In r rs /\ d_name r = name)
  /\ (forall pre r post,
         rs = (pre ++ r :: post)%list ->
         (forall r', In r' post -> d_name r' <> d_name r) ->
         dict_get (d_name r) (schema_of_rows rs []) = Some (info_of_row r)).
Proof.
  split; [|split].
  - apply schema_of_rows_NoDup. constructor.
  - intros name. rewrite schema_of_rows_keys. simpl. tauto.
  - intros pre r post -> Hlast.
    rewrite schema_of_rows_app. simpl.
    rewrite (schema_of_rows_keeps post _ _ Hlast).
    apply dict_get_set_same.
Qed.

Lemma schema_of_rows_dictionary_witness :
  dict_get "AHT_MINUTES"
    (schema_of_rows
       [ {| d_name := "AHT_MINUTES"; d_type := "VARCHAR"; d_null := "Y"; d_default := None |};
         {| d_name := "SOLVED_WEEK"; d_type := "DATE"; d_null := "N"; d_default := None |};
         {| d_name := "AHT_MINUTES"; d_type := "NUMBER"; d_null := "N"; d_default := None |} ] [])
  = Some {| type_ := "NUMBER"; nullable := false; default := None |}.
Proof.
  apply (proj2 (proj2 (schema_of_rows_dictionary _))
           [ {| d_name := "AHT_MINUTES"; d_type := "VARCHAR"; d_null := "Y"; d_default := None |};
             {| d_name := "SOLVED_WEEK"; d_type := "DATE"; d_null := "N"; d_default := None |} ]
           {| d_name := "AHT_MINUTES"; d_type := "NUMBER"; d_null := "N"; d_default := None |}
           []).
  - reflexivity.
  - intros r' [].
Defined.

Lemma schema_of_columns_values (cols : list string) (acc : schema) (c : string)
      (i : col_info) :
  In (c, i) (schema_of_columns cols acc) ->
  In (c, i) acc \/ (In c cols /\ i = varchar_info).
Proof.
  revert acc. induction cols as [|col cols IH]; intros acc; simpl; [auto|].
  intros H. destruct (IH _ H) as [H'|[H1 H2]]; [|auto].
  destruct (dict_set_values _ _ _ _ _ H') as [[-> ->]|H'']; auto.
Qed.

Lemma schema_of_columns_get (cols : list string) (acc : schema) (c : string) :
  In c cols -> dict_get c (schema_of_columns cols acc) = Some varchar_info.
Proof.
  revert acc. induction cols as [|col cols IH]; intros acc; simpl; [intros []|].
  intros [->|H]; [|apply IH, H].
  destruct (in_dec string_dec c cols) as [Hin|Hout]; [apply IH, Hin|].
  assert (K : forall cs a, ~ In c cs ->
                dict_get c (schema_of_columns cs a) = dict_get c a).
  { clear. induction cs as [|x cs IH]; intros a Hn; simpl; [reflexivity|].
    rewrite IH by (intros H; apply Hn; right; exact H).
    apply dict_get_set_other. intros E. apply Hn. left. auto. }
  rewrite (K cols _ Hout). apply dict_get_set_same.
Qed.

Lemma schema_of_columns_NoDup (cols : list string) (acc : schema) :
  List.NoDup (map fst acc) -> List.NoDup (map fst (schema_of_columns cols acc)).
Proof.
  revert acc. induction cols as [|c cols IH]; intros acc H; simpl; [exact H|].
  apply IH, dict_set_keys_NoDup, H.
Qed.

(** X2. When the table is not served from the cache, DESCRIBE TABLE raises
    and the one-row SELECT succeeds, [get_table_schema] returns a map that
    gives every column of the sample the type VARCHAR, nullable, without
    default, and has no other entry; the map is cached under the table name,
    the cache is stamped with the clock reading, and the two statements are
    the only ones sent. *)
Theorem get_table_schema_fallback
        (wh : warehouse) (now later : Z) (table_name : string) (g : gateway)
        (e : string) (df : frame) :
  schema_miss now table_name g ->
  describe wh (describe_query g table_name) = Raised e ->
  run wh (fallback_query g table_name) = Returned df ->
  exists s g',
    get_table_schema wh now later table_name g = (Returned s, g')
    /\ s = schema_of_columns (columns df) []
    /\ (forall c, In c (columns df) -> dict_get c s = Some varchar_info)
    /\ (forall c i, In (c, i) s -> In c (columns df) /\ i = varchar_info)
    /\ List.NoDup (map fst s)
    /\ schema_cache g' !! table_name = Some s
    /\ cache_timestamp g' = later
    /\ sent g' = (sent g ++ [describe_query g table_name; fallback_query g table_name])%list.
Proof.
  intros Hmiss H1 H2.
  exists (schema_of_columns (columns df) []).
  assert (F : fallback_query (log_sent (describe_query g table_name) g) table_name
              = fallback_query g table_name) by reflexivity.
  assert (P : forall s0 : schema,
             s0 = schema_of_columns (columns df) [] ->
             (forall c, In c (columns df) -> dict_get c s0 = Some varchar_info)
             /\ (forall c i, In (c, i) s0 -> In c (columns df) /\ i = varchar_info)
             /\ List.NoDup (map fst s0)).
  { intros s0 ->. split; [|split].
    - intros c Hc. apply schema_of_columns_get, Hc.
    - intros c i Hin. destruct (schema_of_columns_values _ _ _ _ Hin) as [[]|H]; exact H.
    - apply schema_of_columns_NoDup. constructor. }
  destruct (P _ eq_refl) as (P1 & P2 & P3).
  eexists. split.
  - run_monad. destruct Hmiss as [Hm|Hv].
    + rewrite Hm, H1, F, H2. reflexivity.
    + rewrite Hv. destruct (schema_cache g !! table_name); rewrite H1, F, H2; reflexivity.
  - split; [reflexivity|]. split; [exact P1|]. split; [exact P2|]. split; [exact P3|].
    simpl. split; [apply lookup_insert_eq|]. split; [reflexivity|].
    rewrite <- List.app_assoc. reflexivity.
Qed.

Lemma get_table_schema_fallback_witness :
  exists s g',
    get_table_schema sample_warehouse 10 11 "T" (connect "X" "Y") = (Returned s, g')
    /\ s = schema_of_columns (columns sample_frame) []
    /\ (forall c, In c (columns sample_frame) -> dict_get c s = Some varchar_info)
    /\ (forall c i, In (c, i) s -> In c (columns sample_frame) /\ i = varchar_info)
    /\ List.NoDup (map fst s)
    /\ schema_cache g' !! "T" = Some s
    /\ cache_timestamp g' = 11%Z
    /\ sent g' = (sent (connect "X" "Y")
                  ++ [describe_query (connect "X" "Y") "T";
                      fallback_query (connect "X" "Y") "T"])%list.
Proof.
  exact (get_table_schema_fallback sample_warehouse 10 11 "T" (connect "X" "Y")
           "insufficient privileges" sample_frame
           (or_introl eq_refl) eq_refl eq_refl).
Defined.

Lemma get_table_schema_returns
      (wh : warehouse) (now later : Z) (table_name : string) (g : gateway) :
  exists s g', get_table_schema wh now later table_name g = (Returned s, g').
Proof.
  run_monad.
  destruct (schema_cache g !! table_name);
    [destruct (_is_cache_valid now g); [eauto|]|];
    (destruct (describe wh _); [eauto|]);
    (destruct (run wh _); eauto).
Qed.

(** *** Statements that carry their own LIMIT *)

Lemma limit_word_kept (s : string) :
  contains "LIMIT" (strip s) = contains "LIMIT" s.
Proof. apply contains_strip; [discriminate|reflexivity|reflexivity]. Qed.

Lemma with_limit_fixed (query : string) :
  contains "LIMIT" (upper query) = true -> with_limit query = query.
Proof.
  intros H. unfold with_limit. rewrite strip_upper.
  rewrite <- strip_upper, limit_word_kept, H. reflexivity.
Qed.

Ltac find_limit :=
  rewrite ?upper_app;
  repeat (first [ reflexivity
                | apply contains_app_l; reflexivity
                | apply contains_app_r ]).

Lemma probe_query_limit (g : gateway) (table : string) :
  with_limit (probe_query g table) = probe_query g table.
Proof. apply with_limit_fixed. unfold probe_query. find_limit. Qed.

Lemma plain_sample_query_limit (g : gateway) (table : string) (limit : Z) :
  with_limit (plain_sample_query g table limit) = plain_sample_query g table limit.
Proof. apply with_limit_fixed. unfold plain_sample_query. find_limit. Qed.

Lemma order_by_query_limit (g : gateway) (table : string) (limit : Z) (col : string) :
  with_limit (order_by_query g table limit col) = order_by_query g table limit col.
Proof. apply with_limit_fixed. unfold order_by_query. find_limit. Qed.

Lemma ordered_sample_query_limit (g : gateway) (table : string) (limit : Z)
      (order_column : option string) :
  with_limit (ordered_sample_query g table limit order_column)
  = ordered_sample_query g table limit order_column.
Proof.
  unfold ordered_sample_query. destruct order_column as [col|].
  - destruct (Gateway.truthy (Some col));
      [apply order_by_query_limit|apply plain_sample_query_limit].
  - apply plain_sample_query_limit.
Qed.

(** X3. The text of the statement [execute_query] hands to the cursor
    always contains the letters LIMIT, in upper or lower case, be it as a
    word of its own or inside a longer name; and capping is idempotent: a
    statement that went through the capping once is not changed by a second
    pass. *)
Theorem with_limit_idempotent (query : string) :
  contains "LIMIT" (upper (with_limit query)) = true
  /\ with_limit (with_limit query) = with_limit query.
Proof.
  assert (H : contains "LIMIT" (upper (with_limit query)) = true).
  { unfold with_limit.
    destruct (contains "LIMIT" (strip (upper query))) eqn:E; simpl negb; cbv iota.
    - rewrite limit_word_kept in E. exact E.
    - destruct (endswith (strip query) ";"); find_limit. }
  split; [exact H|apply with_limit_fixed, H].
Qed.

(** *** The caches *)

Lemma sent_log_all (stmts : list string) (g : gateway) :
  sent (log_all stmts g) = (sent g ++ stmts)%list.
Proof.
  revert g. induction stmts as [|stmt stmts IH]; intros g; simpl.
  - rewrite List.app_nil_r. reflexivity.
  - unfold log_all in IH. rewrite IH. simpl. rewrite <- List.app_assoc. reflexivity.
Qed.

(** X4. After a successful DESCRIBE TABLE for a table that was not served
    from the cache, every further call for that table within the TTL of the
    fill returns the very same metadata, sends no statement and leaves the
    connection as it is, whatever the warehouse would answer by then. *)
Theorem get_table_schema_idempotent
        (wh : warehouse) (now later : Z) (table_name : string)
        (rs : list describe_row) (g : gateway) :
  schema_miss now table_name g ->
  describe wh (describe_query g table_name) = Returned rs ->
  exists g',
    get_table_schema wh now later table_name g
    = (Returned (schema_of_rows rs []), g')
    /\ sent g' = (sent g ++ [describe_query g table_name])%list
    /\ forall wh' now' later',
        (now' - later < cache_ttl g)%Z ->
        get_table_schema wh' now' later' table_name g'
        = (Returned (schema_of_rows rs []), g').
Proof.
  intros Hmiss D.
  eexists. split; [|split].
  - run_monad. destruct Hmiss as [Hm|Hv].
    + rewrite Hm, D. reflexivity.
    + rewrite Hv. destruct (schema_cache g !! table_name); rewrite D; reflexivity.
  - reflexivity.
  - intros wh' now' later' Hlt. apply get_table_schema_hit.
    + simpl. apply lookup_insert_eq.
    + unfold _is_cache_valid. simpl. apply Z.ltb_lt. exact Hlt.
Qed.

Lemma get_table_schema_idempotent_witness :
  exists g',
    get_table_schema reporting_warehouse 4600 4601 "RPT_WOPS_TICKETS" aged_gateway
    = (Returned (schema_of_rows tickets_rows []), g')
    /\ sent g' = (sent aged_gateway
                  ++ [describe_query aged_gateway "RPT_WOPS_TICKETS"])%list
    /\ forall wh' now' later',
        (now' - 4601 < cache_ttl aged_gateway)%Z ->
        get_table_schema wh' now' later' "RPT_WOPS_TICKETS" g'
        = (Returned (schema_of_rows tickets_rows []), g').
Proof.
  exact (get_table_schema_idempotent reporting_warehouse 4600 4601
           "RPT_WOPS_TICKETS" tickets_rows aged_gateway
           (or_intror eq_refl) eq_refl).
Defined.

Lemma verify_tables_filter (wh : warehouse) (tables acc : list string) (g : gateway) :
  verify_tables wh tables acc g
  = (Returned (acc ++ List.filter (probe_ok wh g) tables)%list,
     log_all (map (probe_query g) tables) g).
Proof.
  revert acc g. induction tables as [|t ts IH]; intros acc g.
  - simpl. rewrite List.app_nil_r. reflexivity.
  - cbn [verify_tables]. unfold bind at 1. unfold try_except at 1.
    unfold bind at 1. unfold get at 1. unfold bind at 1.
    rewrite execute_query_eq, probe_query_limit.
    cbn [List.filter map].
    destruct (run wh (probe_query g t)) as [f|e] eqn:R.
    + assert (P : probe_ok wh g t = true) by (unfold probe_ok; rewrite R; reflexivity).
      rewrite P. unfold ret at 1. rewrite IH. rewrite <- List.app_assoc. reflexivity.
    + assert (P : probe_ok wh g t = false) by (unfold probe_ok; rewrite R; reflexivity).
      rewrite P. unfold ret at 1. rewrite IH. reflexivity.
Qed.

(** X5. When the table list is not served from the cache,
    [get_available_tables] sends one probe for each of the five candidate
    tables, in their order, and returns exactly the candidates whose probe
    succeeded, in that order; it never raises; it caches the list and
    stamps the cache, and every call within the TTL of the fill returns the
    same list without sending a statement. *)
Theorem get_available_tables_refresh
        (wh : warehouse) (now later : Z) (g : gateway) :
  table_list_miss now g ->
  exists g',
    get_available_tables wh now later g
    = (Returned (List.filter (probe_ok wh g) allowed_tables), g')
    /\ sent g' = (sent g ++ map (probe_query g) allowed_tables)%list
    /\ table_list_cache g' = Some (List.filter (probe_ok wh g) allowed_tables)
    /\ cache_timestamp g' = later
    /\ schema_cache g' = schema_cache g
    /\ forall wh' now' later',
        (now' - later < cache_ttl g)%Z ->
        get_available_tables wh' now' later' g'
        = (Returned (List.filter (probe_ok wh g) allowed_tables), g').
Proof.
  intros Hmiss.
  assert (E : exists g',
             get_available_tables wh now later g
             = (Returned (List.filter (probe_ok wh g) allowed_tables), g')
             /\ g' = {| database := database g; schema_name := schema_name g;
                        schema_cache := schema_cache g;
                        table_list_cache :=
                          Some (List.filter (probe_ok wh g) allowed_tables);
                        cache_timestamp := later; cache_ttl := cache_ttl g;
                        sent := sent (log_all (map (probe_query g) allowed_tables) g) |}).
  { eexists. split; [|reflexivity].
    unfold get_available_tables. unfold bind at 1. unfold get at 1.
    assert (R : try_except
                  (existing_tables <- verify_tables wh allowed_tables [] ;;
                   set_table_list_cache existing_tables ;;;
                   _update_cache_timestamp later ;;;
                   ret existing_tables)
                  (fun _ => ret allowed_tables) g
                = (Returned (List.filter (probe_ok wh g) allowed_tables),
                   {| database := database g; schema_name := schema_name g;
                      schema_cache := schema_cache g;
                      table_list_cache :=
                        Some (List.filter (probe_ok wh g) allowed_tables);
                      cache_timestamp := later; cache_ttl := cache_ttl g;
                      sent := sent (log_all (map (probe_query g) allowed_tables) g) |})).
    { unfold try_except. unfold bind at 1. rewrite verify_tables_filter.
      reflexivity. }
    destruct Hmiss as [Hn|Hv].
    - rewrite Hn. exact R.
    - destruct (table_list_cache g); [rewrite Hv|]; exact R. }
  destruct E as (g' & E & ->). eexists. split; [exact E|].
  split; [apply sent_log_all|]. split; [reflexivity|].
  split; [reflexivity|]. split; [reflexivity|].
  intros wh' now' later' Hlt. unfold get_available_tables.
  unfold bind at 1. unfold get at 1. cbn [table_list_cache].
  assert (V : _is_cache_valid now'
                {| database := database g; schema_name := schema_name g;
                   schema_cache := schema_cache g;
                   table_list_cache :=
                     Some (List.filter (probe_ok wh g) allowed_tables);
                   cache_timestamp := later; cache_ttl := cache_ttl g;
                   sent := sent (log_all (map (probe_query g) allowed_tables) g) |}
              = true).
  { unfold _is_cache_valid. simpl. apply Z.ltb_lt. exact Hlt. }
  rewrite V. reflexivity.
Qed.

Lemma get_available_tables_refresh_witness :
  exists g',
    get_available_tables sample_warehouse 10 11 (connect "DB" "PUBLIC")
    = (Returned (List.filter (probe_ok sample_warehouse (connect "DB" "PUBLIC"))
                   allowed_tables), g')
    /\ sent g' = (sent (connect "DB" "PUBLIC")
                  ++ map (probe_query (connect "DB" "PUBLIC")) allowed_tables)%list
    /\ table_list_cache g'
       = Some (List.filter (probe_ok sample_warehouse (connect "DB" "PUBLIC"))
                 allowed_tables)
    /\ cache_timestamp g' = 11%Z
    /\ schema_cache g' = schema_cache (connect "DB" "PUBLIC")
    /\ forall wh' now' later',
        (now' - 11 < cache_ttl (connect "DB" "PUBLIC"))%Z ->
        get_available_tables wh' now' later' g'
        = (Returned (List.filter (probe_ok sample_warehouse (connect "DB" "PUBLIC"))
                       allowed_tables), g').
Proof.
  exact (get_available_tables_refresh sample_warehouse 10 11 (connect "DB" "PUBLIC")
           (or_introl eq_refl)).
Defined.

(** X6. After [_invalidate_cache] nothing is served from the cache, whatever
    the clock says: the next [get_table_schema] begins by sending DESCRIBE
    TABLE and the next [get_available_tables] sends the five probes.  The
    TTL and the connection parameters are kept. *)
Theorem invalidate_forces_refetch (g : gateway) :
  exists g0,
    _invalidate_cache g = (Returned tt, g0)
    /\ schema_cache g0 = ∅ /\ table_list_cache g0 = None
    /\ cache_ttl g0 = cache_ttl g /\ sent g0 = sent g
    /\ (forall wh now later table_name,
           exists r g' rest,
             get_table_schema wh now later table_name g0 = (r, g')
             /\ sent g' = (sent g ++ describe_query g table_name :: rest)%list)
    /\ (forall wh now later,
           exists g',
             get_available_tables wh now later g0
             = (Returned (List.filter (probe_ok wh g) allowed_tables), g')
             /\ sent g' = (sent g ++ map (probe_query g) allowed_tables)%list).
Proof.
  exists {| database := database g; schema_name := schema_name g;
            schema_cache := ∅; table_list_cache := None;
            cache_timestamp := 0; cache_ttl := cache_ttl g;
            sent := sent g |}.
  split; [reflexivity|].
  split; [reflexivity|]. split; [reflexivity|].
  split; [reflexivity|]. split; [reflexivity|]. split.
  - intros wh now later table_name. run_monad.
    cbn [schema_cache]. rewrite lookup_empty.
    destruct (describe wh _) as [rs|e] eqn:D.
    + eexists _, _, []. split; reflexivity.
    + destruct (run wh _) as [f|e'] eqn:R.
      * eexists _, _, [_]. split; [reflexivity|]. simpl.
        rewrite <- List.app_assoc. reflexivity.
      * eexists _, _, [_]. split; [reflexivity|]. simpl.
        rewrite <- List.app_assoc. reflexivity.
  - intros wh now later.
    destruct (get_available_tables_refresh wh now later
                {| database := database g; schema_name := schema_name g;
                   schema_cache := ∅; table_list_cache := None;
                   cache_timestamp := 0; cache_ttl := cache_ttl g;
                   sent := sent g |} (or_introl eq_refl))
      as (g' & E & S & _).
    exists g'. split; [exact E|exact S].
Qed.

(** *** Samples *)

Lemma get_table_sample_eq
      (wh : warehouse) (table_name : string) (limit : Z) (g : gateway) :
  get_table_sample wh table_name limit g
  = (match run wh (plain_sample_query g table_name limit) with
     | Returned df => Returned df
     | Raised _ => Returned empty_frame
     end,
     log_sent (plain_sample_query g table_name limit) g).
Proof.
  unfold get_table_sample, try_except. unfold bind at 1. unfold get at 1.
  rewrite execute_query_eq, plain_sample_query_limit.
  destruct (run wh _); reflexivity.
Qed.

(** X7. [get_table_sample] sends exactly one statement, the plain sample
    with the limit of the caller (the cap of 200 rows is not added), returns
    the rows the warehouse yields for it, and returns the empty table
    instead of raising when the warehouse fails. *)
Theorem get_table_sample_safe
        (wh : warehouse) (table_name : string) (limit : Z) (g : gateway) :
  get_table_sample wh table_name limit g
  = (match run wh (plain_sample_query g table_name limit) with
     | Returned df => Returned df
     | Raised _ => Returned empty_frame
     end,
     log_sent (plain_sample_query g table_name limit) g).
Proof. apply get_table_sample_eq. Qed.

(** X8. [get_table_sample_ordered] never raises.  It reads the metadata,
    sends the ordered statement with the limit of the caller, and returns
    its rows; when that statement fails it falls back to the plain sample,
    and so returns the empty table when the warehouse fails throughout. *)
Theorem get_table_sample_ordered_safe
        (wh : warehouse) (now later : Z) (table_name : string) (limit : Z)
        (g : gateway) :
  exists s g1,
    get_table_schema wh now later table_name g = (Returned s, g1)
    /\ get_table_sample_ordered wh now later table_name limit g
       = match run wh (ordered_sample_query g1 table_name limit (find_order_column s)) with
         | Returned df =>
             (Returned df,
              log_sent (ordered_sample_query g1 table_name limit (find_order_column s)) g1)
         | Raised _ =>
             get_table_sample wh table_name limit
               (log_sent (ordered_sample_query g1 table_name limit (find_order_column s)) g1)
         end
    /\ exists df g', get_table_sample_ordered wh now later table_name limit g
                     = (Returned df, g').
Proof.
  destruct (get_table_schema_returns wh now later table_name g) as (s & g1 & E).
  exists s, g1. split; [exact E|].
  assert (R : get_table_sample_ordered wh now later table_name limit g
              = match run wh (ordered_sample_query g1 table_name limit (find_order_column s)) with
                | Returned df =>
                    (Returned df,
                     log_sent (ordered_sample_query g1 table_name limit (find_order_column s)) g1)
                | Raised _ =>
                    get_table_sample wh table_name limit
                      (log_sent (ordered_sample_query g1 table_name limit (find_order_column s)) g1)
                end).
  { unfold get_table_sample_ordered, try_except. unfold bind at 1. rewrite E.
    unfold bind at 1. unfold get at 1.
    rewrite execute_query_eq, ordered_sample_query_limit.
    destruct (run wh _); reflexivity. }
  split; [exact R|]. rewrite R.
  destruct (run wh _).
  - eauto.
  - rewrite get_table_sample_eq. destruct (run wh _); eauto.
Qed.

End GatewayMoreFacts.

(** ** The row cap of [execute_query] *)

Module RowCapFacts.
Import PyStr PyStrFacts PyText PyTextFacts Validator ValidatorFacts.
Import Gateway GatewayFacts GatewayMoreFacts.



(** The clause is added at the end of the text, whatever the text is: after
    a line comment it is part of the comment. *)
Example limit_clause_in_comment :
  with_limit "SELECT * FROM T -- every row"
  = "SELECT * FROM T -- every row LIMIT 200".
Proof. reflexivity. Qed.



End RowCapFacts.

(** ** The ordered sampler *)

Module SamplerFacts.
Import PyStr PyStrFacts PyText PyTextFacts.
Import Gateway GatewayFacts GatewayExt GatewayMoreFacts.


Lemma sampler_sends
      (wh : warehouse) (now later : Z) (table_name : string) (limit : Z)
      (g g1 : gateway) (s : schema) :
  get_table_schema wh now later table_name g = (Returned s, g1) ->
  sampler_issues wh now later table_name limit g g1
    (ordered_sample_query g1 table_name limit (find_order_column s)).
Proof.
  intros E. unfold sampler_issues, get_table_sample_ordered, try_except.
  unfold bind at 1. rewrite E. unfold bind at 1. unfold get at 1.
  rewrite execute_query_eq, ordered_sample_query_limit.
  destruct (run wh _); reflexivity.
Qed.



End SamplerFacts.

(** ** More on the validators *)

Module ValidatorMoreFacts.
Import PyStr PyStrFacts PyText PyTextFacts Validator ValidatorFacts.

(** X9. For a statement of ASCII characters the verdict of
    [validate_query] does not depend on letter case nor on white space
    around the statement: the statement, its upper-case form, its
    lower-case form and its trimmed form are all accepted or all rejected. *)
Theorem validate_query_case_and_trim (query : string) :
  is_ascii query = true ->
  validate_query (upper query) = validate_query query
  /\ validate_query (lower query) = validate_query query
  /\ validate_query (strip query) = validate_query query.
Proof.
  intros _. unfold validate_query. split; [|split].
  - rewrite upper_idem. reflexivity.
  - rewrite upper_lower. reflexivity.
  - rewrite <- strip_upper, strip_idem. reflexivity.
Qed.

Lemma validate_query_case_and_trim_witness :
  validate_query (upper "  Select Updated_At From Tickets ")
  = validate_query "  Select Updated_At From Tickets "
  /\ validate_query (lower "  Select Updated_At From Tickets ")
     = validate_query "  Select Updated_At From Tickets "
  /\ validate_query (strip "  Select Updated_At From Tickets ")
     = validate_query "  Select Updated_At From Tickets ".
Proof.
  apply (validate_query_case_and_trim "  Select Updated_At From Tickets ").
  reflexivity.
Defined.

Lemma all_space_last (a : string) :
  all_space a = true -> last_is_word false a = false.
Proof.
  induction a as [|c a IH]; [reflexivity|]. simpl. intros H.
  apply andb_true_iff in H. destruct H as [Hc Ha].
  rewrite (space_not_word _ Hc). apply IH, Ha.
Qed.

Lemma all_space_head (b : string) :
  all_space b = true -> head_is_word b = false.
Proof.
  destruct b as [|c b]; [reflexivity|]. simpl. intros H.
  apply andb_true_iff in H. destruct H as [Hc _].
  apply space_not_word, Hc.
Qed.

Lemma head_is_word_app (a b : string) :
  head_is_word a = false -> head_is_word b = false ->
  head_is_word (a ++ b) = false.
Proof. destruct a; [rewrite app_nil; auto|auto]. Qed.

Lemma standalone_unstrip (kw s : string) :
  standalone kw (strip s) -> standalone kw s.
Proof.
  intros (pre & post & E & Hp & Hq).
  destruct (strip_split s) as (a & b & Es & Ha & Hb).
  exists (a ++ pre), (post ++ b). split; [|split].
  - rewrite Es, E, !app_assoc. reflexivity.
  - rewrite last_is_word_app, (all_space_last _ Ha). exact Hp.
  - apply head_is_word_app; [exact Hq|apply all_space_head, Hb].
Qed.

Lemma re_search_word_strip (kw s : string) :
  kw <> "" -> all_word kw = true ->
  re_search_word kw (strip s) = re_search_word kw s.
Proof.
  intros Hne Hw. apply eq_true_iff_eq.
  rewrite <- !(standalone_search kw _ Hne Hw). split.
  - apply standalone_unstrip.
  - apply standalone_strip; assumption.
Qed.

Lemma forbidden_keywords_same (kw : string) :
  In kw Connection.forbidden_keywords <-> In kw dangerous_keywords.
Proof.
  unfold Connection.forbidden_keywords, dangerous_keywords. simpl. tauto.
Qed.

(** X10. The validator of the gateway is the validator of the SQLAlchemy
    connection with the test of the first word added: a statement is
    accepted by the gateway exactly when it begins, trimmed and in upper
    case, with SELECT or WITH and the connection validator accepts it.  In
    particular every statement the gateway accepts is accepted by the
    connection validator. *)
Theorem validate_query_is_stricter (query : string) :
  validate_query query
  = (startswith (strip (upper query)) "SELECT"
     || startswith (strip (upper query)) "WITH")
    && Connection.validate_query query.
Proof.
  unfold validate_query, Connection.validate_query.
  assert (E : scan_keywords dangerous_keywords (strip (upper query))
              = scan_keywords Connection.forbidden_keywords (upper query)).
  { apply eq_true_iff_eq. rewrite !scan_keywords_true. split.
    - intros H kw Hin. apply forbidden_keywords_same in Hin.
      destruct (dangerous_keywords_wordy kw Hin) as [Hne Hw].
      rewrite <- (re_search_word_strip kw _ Hne Hw). apply H, Hin.
    - intros H kw Hin.
      destruct (dangerous_keywords_wordy kw Hin) as [Hne Hw].
      rewrite (re_search_word_strip kw _ Hne Hw).
      apply H, forbidden_keywords_same, Hin. }
  rewrite E.
  destruct (startswith (strip (upper query)) "SELECT"
            || startswith (strip (upper query)) "WITH"); reflexivity.
Qed.

(** *** Validation and capping *)

Lemma prefix_word_app (kw s w : string) :
  all_word kw = true -> head_is_word w = false ->
  String.prefix kw (s ++ w) = true -> String.prefix kw s = true.
Proof.
  revert s. induction kw as [|k kw IH]; intros s Hw Hh H.
  - destruct s; reflexivity.
  - simpl in Hw. apply andb_true_iff in Hw. destruct Hw as [Hk Hw].
    destruct s as [|c s].
    + rewrite app_nil in H. destruct w as [|x w]; [discriminate|].
      simpl in H, Hh. destruct (Ascii.ascii_dec k x) as [->|]; [|discriminate].
      congruence.
    + rewrite app_cons in H. simpl in *.
      destruct (Ascii.ascii_dec k c); [|discriminate].
      apply IH; assumption.
Qed.

Lemma prefix_app_l (p s w : string) :
  String.prefix p s = true -> String.prefix p (s ++ w) = true.
Proof.
  rewrite !prefix_iff. intros [post ->]. exists (post ++ w).
  apply app_assoc.
Qed.

Lemma head_is_word_app_l (r w : string) :
  head_is_word w = false -> head_is_word (r ++ w) = head_is_word r.
Proof. intros H. destruct r; [rewrite app_nil; exact H|reflexivity]. Qed.

Lemma match_here_app (before : bool) (kw s w : string) :
  kw <> "" -> all_word kw = true -> head_is_word w = false ->
  match_here before kw (s ++ w) = match_here before kw s.
Proof.
  intros Hne Hw Hh. unfold match_here.
  destruct (String.prefix kw s) eqn:P.
  - rewrite (prefix_app_l _ _ w P).
    pose proof (prefix_app _ _ P) as E.
    set (r := skip (String.length kw) s) in *.
    assert (S : skip (String.length kw) (s ++ w) = r ++ w).
    { rewrite E at 1. rewrite app_assoc. apply skip_app. }
    rewrite S. unfold boundary. rewrite (head_is_word_app_l r w Hh).
    destruct s as [|c s]; [|reflexivity].
    destruct kw; [congruence|discriminate].
  - destruct (String.prefix kw (s ++ w)) eqn:P'.
    + rewrite (prefix_word_app kw s w Hw Hh P') in P. discriminate.
    + rewrite !andb_false_r. reflexivity.
Qed.

Lemma re_search_from_nil (before : bool) (kw : string) :
  kw <> "" -> re_search_from before kw "" = false.
Proof.
  intros Hne. simpl. unfold match_here.
  destruct kw; [congruence|]. simpl. rewrite andb_false_r. reflexivity.
Qed.

(** The search in a text followed by a tail that does not begin with a word
    character is the search in the text or the search in the tail. *)
Lemma re_search_from_app (kw u w : string) :
  kw <> "" -> all_word kw = true -> head_is_word w = false ->
  forall before,
    re_search_from before kw (u ++ w)
    = re_search_from before kw u || re_search_from (last_is_word before u) kw w.
Proof.
  intros Hne Hw Hh. induction u as [|c u IH]; intros before.
  - rewrite app_nil, (re_search_from_nil _ _ Hne). reflexivity.
  - rewrite (re_search_from_eq before kw (String c u ++ w)).
    rewrite (match_here_app before kw (String c u) w Hne Hw Hh).
    rewrite app_cons, IH. simpl. rewrite orb_assoc. reflexivity.
Qed.

Lemma prefix_after_space (k c : ascii) (kw r : string) :
  is_word k = true -> is_space c = true ->
  String.prefix (String k kw) (String c r) = false.
Proof.
  intros Hk Hc. simpl. destruct (Ascii.ascii_dec k c) as [->|]; [|reflexivity].
  rewrite (space_not_word _ Hc) in Hk. discriminate.
Qed.

Lemma search_after_spaces (kw b t : string) :
  kw <> "" -> all_word kw = true -> all_space b = true ->
  (forall before, re_search_from before kw t = false) ->
  forall before, re_search_from before kw (b ++ t) = false.
Proof.
  intros Hne Hw Hb Ht. induction b as [|c b IH]; intros before.
  - rewrite app_nil. apply Ht.
  - simpl in Hb. apply andb_true_iff in Hb. destruct Hb as [Hc Hb].
    rewrite app_cons, re_search_from_eq, (IH Hb).
    unfold match_here. destruct kw as [|k kw]; [congruence|].
    simpl in Hw. apply andb_true_iff in Hw. destruct Hw as [Hk _].
    rewrite (prefix_after_space k c kw _ Hk Hc).
    rewrite andb_false_r. reflexivity.
Qed.

Lemma cap_tail_clean (kw : string) (before : bool) :
  In kw dangerous_keywords ->
  re_search_from before kw " LIMIT 200" = false
  /\ re_search_from before kw " LIMIT 200;" = false
  /\ re_search_from before kw ";" = false.
Proof.
  unfold dangerous_keywords. simpl. intros H.
  repeat (destruct H as [<-|H]; [destruct before; vm_compute; auto|]).
  contradiction.
Qed.

Lemma lstrip_app (v t : string) :
  lstrip v <> "" -> lstrip (v ++ t) = lstrip v ++ t.
Proof.
  induction v as [|c v IH]; intros H; [simpl in H; congruence|].
  rewrite app_cons. simpl in *. destruct (is_space c); [apply IH, H|].
  rewrite app_cons. reflexivity.
Qed.

Lemma drop_last_upper (s : string) : drop_last (upper s) = upper (drop_last s).
Proof.
  induction s as [|c s IH]; [reflexivity|]. simpl.
  rewrite is_empty_upper, IH. destruct (is_empty s); reflexivity.
Qed.

Lemma endswith_eq (s p : string) :
  endswith s p =
  String.eqb s p || match s with EmptyString => false | String _ r => endswith r p end.
Proof. destruct s; reflexivity. Qed.

Lemma endswith_char (s : string) (c : ascii) :
  endswith s (String c "") = true -> s = drop_last s ++ String c "".
Proof.
  induction s as [|d s IH]; rewrite endswith_eq; intros H.
  - discriminate.
  - apply orb_true_iff in H. destruct H as [H|H].
    + apply String.eqb_eq in H. rewrite H. reflexivity.
    + pose proof (IH H) as E. simpl.
      destruct s as [|x s]; [discriminate|]. simpl is_empty. cbv iota.
      rewrite app_cons. f_equal. exact E.
Qed.

Lemma endswith_semicolon_upper (s : string) :
  endswith s ";" = true -> endswith (upper s) ";" = true.
Proof.
  induction s as [|d s IH]; rewrite endswith_eq; intros H; [discriminate|].
  apply orb_true_iff in H. destruct H as [H|H].
  - apply String.eqb_eq in H. rewrite H. reflexivity.
  - change (upper (String d s)) with (String (upper_char d) (upper s)).
    rewrite endswith_eq, (IH H). apply orb_true_r.
Qed.

Lemma strip_starts_clean (s : string) : starts_clean (strip s) = true.
Proof. apply rstrip_starts_clean, lstrip_starts_clean. Qed.

Lemma starts_with_word_nonempty (u : string) :
  startswith u "SELECT" || startswith u "WITH" = true -> u <> "".
Proof. intros H ->. discriminate. Qed.

(** What [validate_query] checks, on the trimmed upper-case text. *)
Lemma validate_query_true (query : string) :
  validate_query query = true <->
  (startswith (strip (upper query)) "SELECT"
   || startswith (strip (upper query)) "WITH") = true
  /\ forall kw, In kw dangerous_keywords ->
                re_search_word kw (strip (upper query)) = false.
Proof.
  unfold validate_query.
  destruct (startswith (strip (upper query)) "SELECT"
            || startswith (strip (upper query)) "WITH"); cbn [negb].
  - rewrite scan_keywords_true. tauto.
  - split; [discriminate|]. intros [H _]. discriminate.
Qed.

Lemma starts_kept (u w : string) :
  startswith u "SELECT" || startswith u "WITH" = true ->
  startswith (u ++ w) "SELECT" || startswith (u ++ w) "WITH" = true.
Proof.
  unfold startswith. intros H. apply orb_true_iff in H. apply orb_true_iff.
  destruct H as [H|H]; [left|right]; apply prefix_app_l, H.
Qed.

Lemma starts_before_semicolon (d : string) :
  startswith (d ++ ";") "SELECT" || startswith (d ++ ";") "WITH" = true ->
  startswith d "SELECT" || startswith d "WITH" = true.
Proof.
  unfold startswith. intros H. apply orb_true_iff in H. apply orb_true_iff.
  destruct H as [H|H]; [left|right];
    apply (prefix_word_app _ d ";"); auto.
Qed.

(** X11. Capping keeps a statement valid: when [validate_query] accepts a
    statement, it also accepts the statement [execute_query] hands to the
    cursor for it, with LIMIT 200 added or not. *)
Theorem capped_statement_still_valid (query : string) :
  validate_query query = true ->
  validate_query (Gateway.with_limit query) = true.
Proof.
  intros V. pose proof V as V0.
  apply validate_query_true in V. destruct V as [P K].
  unfold Gateway.with_limit.
  destruct (contains "LIMIT" (strip (upper query))); simpl negb; cbv iota;
    [exact V0|].
  pose proof (starts_with_word_nonempty _ P) as Hne.
  destruct (endswith (strip query) ";") eqn:Semi.
  - (* the semicolon is taken off and put back after the cap *)
    assert (U : strip (upper query) = drop_last (strip (upper query)) ++ ";").
    { apply endswith_char. rewrite strip_upper.
      apply endswith_semicolon_upper, Semi. }
    set (d := drop_last (strip (upper query))) in *.
    assert (Pd : startswith d "SELECT" || startswith d "WITH" = true).
    { apply starts_before_semicolon. rewrite <- U. exact P. }
    pose proof (starts_with_word_nonempty _ Pd) as Hd.
    assert (Cd : starts_clean d = true).
    { pose proof (strip_starts_clean (upper query)) as C. rewrite U in C.
      destruct d; [congruence|exact C]. }
    assert (S : strip (upper (drop_last (strip query) ++ " LIMIT 200;"))
                = d ++ " LIMIT 200;").
    { rewrite upper_app, <- drop_last_upper, <- strip_upper. fold d.
      unfold strip. rewrite lstrip_clean.
      - rewrite rstrip_app. reflexivity.
      - destruct d; [congruence|exact Cd]. }
    apply validate_query_true. rewrite S. split; [apply starts_kept, Pd|].
    intros kw Hin. destruct (dangerous_keywords_wordy kw Hin) as [Hk Hw].
    pose proof (K kw Hin) as Kd. rewrite U in Kd.
    unfold re_search_word in *.
    rewrite (re_search_from_app kw d ";" Hk Hw eq_refl) in Kd.
    apply orb_false_iff in Kd. destruct Kd as [Kd _].
    rewrite (re_search_from_app kw d " LIMIT 200;" Hk Hw eq_refl), Kd.
    apply (cap_tail_clean kw _ Hin).
  - (* the cap is put at the end *)
    destruct (rstrip_split (lstrip (upper query))) as (b & Eb & Hb).
    fold (strip (upper query)) in Eb.
    assert (L : lstrip (upper query) <> "").
    { intros E. rewrite E in Eb. destruct (strip (upper query)); [congruence|discriminate]. }
    assert (S : strip (upper (query ++ " LIMIT 200"))
                = strip (upper query) ++ (b ++ " LIMIT 200")).
    { rewrite upper_app. unfold strip at 1. rewrite (lstrip_app _ _ L).
      rewrite rstrip_app. cbn [rstrip is_empty is_space andb]. 
      change (is_empty (rstrip (upper " LIMIT 200"))) with false. cbv iota.
      change (rstrip (upper " LIMIT 200")) with " LIMIT 200".
      rewrite Eb at 1. apply app_assoc. }
    apply validate_query_true. rewrite S. split; [apply starts_kept, P|].
    intros kw Hin. destruct (dangerous_keywords_wordy kw Hin) as [Hk Hw].
    assert (Hh : head_is_word (b ++ " LIMIT 200") = false).
    { apply head_is_word_app; [apply all_space_head, Hb|reflexivity]. }
    unfold re_search_word in *.
    rewrite (re_search_from_app kw _ _ Hk Hw Hh), (K kw Hin).
    apply (search_after_spaces kw b " LIMIT 200" Hk Hw Hb).
    intros before. apply (cap_tail_clean kw before Hin).
Qed.

Lemma capped_statement_still_valid_witness :
  validate_query (Gateway.with_limit "  select UPDATED_AT from T ; ") = true.
Proof.
  apply capped_statement_still_valid. reflexivity.
Defined.

End ValidatorMoreFacts.

(** ** The domain filter *)

Module RelevanceFacts.
Import PyStr PyStrFacts PyText PyTextFacts Relevance.

Lemma matches_forbidden_iff (patterns : list string) (m : string) :
  matches_forbidden patterns m = true <->
  exists pattern, In pattern patterns /\ contains pattern m = true.
Proof.
  induction patterns as [|p ps IH]; simpl.
  - split; [discriminate|]. intros (p & [] & _).
  - destruct (contains p m) eqn:E.
    + split; [eauto|reflexivity].
    + rewrite IH. split.
      * intros (q & Hq & Hc). eauto.
      * intros (q & [<-|Hq] & Hc); [congruence|eauto].
Qed.

Lemma count_words_lstrip (s : string) :
  count_words false (lstrip s) = count_words false s.
Proof.
  induction s as [|c s IH]; [reflexivity|]. simpl.
  destruct (is_space c) eqn:E; [exact IH|]. simpl. rewrite E. reflexivity.
Qed.

Lemma count_words_spaces (b : string) (inside : bool) :
  all_space b = true -> count_words inside b = 0%nat.
Proof.
  revert inside. induction b as [|c b IH]; intros inside H; [reflexivity|].
  simpl in *. apply andb_true_iff in H. destruct H as [Hc Hb].
  rewrite Hc. apply IH, Hb.
Qed.

Lemma count_words_app_spaces (s b : string) (inside : bool) :
  all_space b = true -> count_words inside (s ++ b) = count_words inside s.
Proof.
  intros Hb. revert inside. induction s as [|c s IH]; intros inside.
  - rewrite app_nil. simpl. apply count_words_spaces, Hb.
  - rewrite app_cons. simpl. rewrite !IH. reflexivity.
Qed.

Lemma count_words_strip (s : string) :
  count_words false (strip s) = count_words false s.
Proof.
  destruct (rstrip_split (lstrip s)) as (b & Eb & Hb). unfold strip.
  rewrite <- (count_words_lstrip s). rewrite Eb at 2.
  rewrite (count_words_app_spaces _ b false Hb). reflexivity.
Qed.

Lemma domain_filter_shape (user_message : string) :
  let message_lower := strip (lower user_message) in
  (_check_domain_relevance user_message = blocked
   \/ _check_domain_relevance user_message = relevant)
  /\
  (_check_domain_relevance user_message = blocked <->
   (forall greeting, In greeting basic_greetings ->
                     contains greeting message_lower = false)
   /\ (3 < count_words false message_lower)%nat
   /\ exists pattern, In pattern forbidden_patterns
                      /\ contains pattern message_lower = true).
Proof.
  intros message_lower. unfold _check_domain_relevance. fold message_lower.
  destruct (existsb (fun greeting => contains greeting message_lower) basic_greetings)
    eqn:G.
  - split; [auto|]. split; [discriminate|]. intros (H & _).
    apply existsb_exists in G. destruct G as (g & Hg & Hc).
    rewrite (H g Hg) in Hc. discriminate.
  - assert (G' : forall greeting, In greeting basic_greetings ->
                                  contains greeting message_lower = false).
    { intros g Hg. destruct (contains g message_lower) eqn:E; [|reflexivity].
      assert (X : existsb (fun greeting => contains greeting message_lower)
                    basic_greetings = true).
      { apply existsb_exists. eauto. }
      congruence. }
    destruct (Nat.leb (count_words false message_lower) 3) eqn:W.
    + split; [auto|]. split; [discriminate|]. intros (_ & H & _).
      apply Nat.leb_le in W. lia.
    + apply Nat.leb_gt in W.
      destruct (matches_forbidden forbidden_patterns message_lower) eqn:F.
      * split; [auto|]. split; [|reflexivity]. intros _.
        apply matches_forbidden_iff in F. auto.
      * split; [destruct (existsb _ bi_keywords); auto|].
        split.
        -- destruct (existsb _ bi_keywords); discriminate.
        -- intros (_ & _ & H). apply matches_forbidden_iff in H. congruence.
Qed.

(** X12. The domain filter blocks a message exactly when its lower-case,
    trimmed text contains none of the greetings, has more than three words
    and contains one of the forbidden patterns; every other message is
    relevant, with the empty suggestion.  The list of BI keywords has no
    influence on the verdict. *)
Theorem domain_filter_verdict (user_message : string) :
  let message_lower := strip (lower user_message) in
  (_check_domain_relevance user_message = blocked
   \/ _check_domain_relevance user_message = relevant)
  /\
  (_check_domain_relevance user_message = blocked <->
   (forall greeting, In greeting basic_greetings ->
                     contains greeting message_lower = false)
   /\ (3 < count_words false message_lower)%nat
   /\ exists pattern, In pattern forbidden_patterns
                      /\ contains pattern message_lower = true).
Proof. exact (domain_filter_shape user_message). Qed.

(** X13. Greetings are looked for as parts of the text, not as words: a
    message whose lower-case text contains [machine learning],
    [relationship], [cooking] or [book] is never blocked, because these
    forbidden patterns contain the greetings [hi] and [ok]; and neither is
    a message of at most three words. *)
Theorem domain_filter_never_blocks (user_message : string) :
  (forall pattern,
      In pattern ["machine learning"; "relationship"; "cooking"; "book"] ->
      contains pattern (lower user_message) = true ->
      _check_domain_relevance user_message = relevant)
  /\ ((count_words false (lower user_message) <= 3)%nat ->
      _check_domain_relevance user_message = relevant).
Proof.
  split.
  - intros pattern Hin Hc.
    assert (G : exists greeting,
               In greeting basic_greetings /\ contains greeting pattern = true).
    { simpl in Hin. destruct Hin as [<-|[<-|[<-|[<-|[]]]]].
      - exists "hi". split; [simpl; tauto|reflexivity].
      - exists "hi". split; [simpl; tauto|reflexivity].
      - exists "ok". split; [simpl; tauto|reflexivity].
      - exists "ok". split; [simpl; tauto|reflexivity]. }
    destruct G as (g & Hg & Hgp).
    assert (Hgm : contains g (strip (lower user_message)) = true).
    { rewrite contains_strip.
      - apply (contains_trans g pattern _ Hgp Hc).
      - intros ->. simpl in Hg.
        repeat (destruct Hg as [Hg|Hg]; [discriminate|]). contradiction.
      - simpl in Hg.
        repeat (destruct Hg as [<-|Hg]; [reflexivity|]). contradiction.
      - simpl in Hg.
        repeat (destruct Hg as [<-|Hg]; [reflexivity|]). contradiction. }
    unfold _check_domain_relevance.
    assert (X : existsb (fun greeting => contains greeting (strip (lower user_message)))
                  basic_greetings = true).
    { apply existsb_exists. eauto. }
    rewrite X. reflexivity.
  - intros Hw.
    destruct (proj1 (domain_filter_shape user_message)) as [B|R]; [|exact R].
    exfalso. apply domain_filter_shape in B. destruct B as (_ & W & _).
    rewrite count_words_strip in W. lia.
Qed.

Lemma domain_filter_never_blocks_witness :
  _check_domain_relevance "Please recommend me a good book about machine learning"
  = relevant
  /\ _check_domain_relevance "  python   code please " = relevant.
Proof.
  split.
  - apply (proj1 (domain_filter_never_blocks _) "book");
      [simpl; tauto|reflexivity].
  - apply (proj2 (domain_filter_never_blocks _)). vm_compute. lia.
Defined.

End RelevanceFacts.

(** ** The date columns of the weekly digest and the ordered sampler *)

Module DigestFacts.
Import PyStr PyStrFacts PyText PyTextFacts Gateway Digest.
Import GatewayFacts GatewayExt GatewayMoreFacts SamplerFacts.

Lemma scan_columns_some (p : string) (names : list string)
      (oc : option string) (c : string) :
  scan_columns p names oc = Some c ->
  oc = Some c \/ (In c names /\ contains p (upper c) = true).
Proof.
  induction names as [|n names IH]; simpl; [auto|].
  destruct (contains p (upper n)) eqn:E.
  - intros [= <-]. auto.
  - intros H. destruct (IH H) as [|[]]; auto.
Qed.

Lemma scan_patterns_some (ps names : list string) (oc : option string) (c : string) :
  scan_patterns ps names oc = Some c ->
  oc = Some c
  \/ exists p, In p ps /\ In c names /\ contains p (upper c) = true.
Proof.
  revert oc. induction ps as [|p ps IH]; intros oc; simpl; [auto|].
  destruct (Gateway.truthy (scan_columns p names oc)).
  - intros H. destruct (scan_columns_some _ _ _ _ H) as [Ho|[Hn Hc]];
      [left; exact Ho|right; exists p; auto].
  - intros H. destruct (IH _ H) as [H'|(q & Hq & Hc)];
      [|right; exists q; tauto].
    destruct (scan_columns_some _ _ _ _ H') as [Ho|[Hn Hc]];
      [left; exact Ho|right; exists p; auto].
Qed.

Lemma scan_types_some (s : schema) (oc : option string) (c : string) :
  scan_types s oc = Some c ->
  oc = Some c \/ exists info, In (c, info) s /\ has_date_type info = true.
Proof.
  induction s as [|[n i] s IH]; simpl; [auto|].
  destruct (has_date_type i) eqn:E.
  - intros [= <-]. eauto.
  - intros H. destruct (IH H) as [|(info & Hin & Hd)]; eauto.
Qed.

Lemma identify_date_columns_In (s : schema) (c : string) (info : col_info) :
  In (c, info) s ->
  has_date_type info = true
  \/ existsb (fun pattern => contains pattern (upper c)) name_patterns = true ->
  In c (_identify_date_columns s).
Proof.
  induction s as [|[n i] s IH]; [intros []|].
  cbn [_identify_date_columns In]. intros [E|Hin] Hd.
  - injection E as -> ->.
    destruct (has_date_type info); [apply in_eq|].
    destruct Hd as [Hd|Hd]; [discriminate|]. rewrite Hd. apply in_eq.
  - destruct (has_date_type i); [apply in_cons; auto|].
    destruct (existsb (fun pattern => contains pattern (upper n)) name_patterns);
      [apply in_cons|]; auto.
Qed.

Lemma audit_pattern_is_dated (p : string) :
  In p audit_patterns ->
  exists q, In q name_patterns /\ contains q p = true.
Proof.
  unfold audit_patterns. simpl. intros H.
  repeat (destruct H as [<-|H];
          [first [ exists "DATE"; split; [simpl; tauto|reflexivity]
                 | exists "TIME"; split; [simpl; tauto|reflexivity]
                 | exists "WEEK"; split; [simpl; tauto|reflexivity]
                 | exists "CREATED"; split; [simpl; tauto|reflexivity]
                 | exists "UPDATED"; split; [simpl; tauto|reflexivity]
                 | exists "MODIFIED"; split; [simpl; tauto|reflexivity] ]|]).
  contradiction.
Qed.

(** Whatever column the ordered sampler picks from a metadata map, the
    weekly digest lists it among the date columns of the same map. *)
Lemma order_column_dated (s : schema) :
  (forall c, find_order_column s = Some c -> In c (_identify_date_columns s))
  /\ (_identify_date_columns s = [] ->
      find_order_column s = None
      /\ forall g table limit,
          ordered_sample_query g table limit (find_order_column s)
          = plain_sample_query g table limit).
Proof.
  assert (A : forall c, find_order_column s = Some c ->
                        In c (_identify_date_columns s)).
  { intros c H. unfold find_order_column in H.
    assert (N : scan_patterns audit_patterns (map fst s) None = Some c ->
                In c (_identify_date_columns s)).
    { intros Hn. destruct (scan_patterns_some _ _ _ _ Hn) as [|(p & Hp & Hc & Hm)];
        [discriminate|].
      apply in_map_iff in Hc. destruct Hc as ([c' info] & E & Hin).
      simpl in E. subst c'.
      apply (identify_date_columns_In s c info Hin). right.
      destruct (audit_pattern_is_dated p Hp) as (q & Hq & Hqp).
      apply existsb_exists. exists q. split; [exact Hq|].
      apply (contains_trans q p _ Hqp Hm). }
    destruct (negb (Gateway.truthy (scan_patterns audit_patterns (map fst s) None))).
    - destruct (scan_types_some _ _ _ H) as [Hn|(info & Hin & Hd)].
      + apply N, Hn.
      + apply (identify_date_columns_In s c info Hin). left. exact Hd.
    - apply N, H. }
  split; [exact A|].
  intros E.
  assert (F : find_order_column s = None).
  { destruct (find_order_column s) as [c|] eqn:Ec; [|reflexivity].
    pose proof (A c eq_refl) as Hin. rewrite E in Hin. destruct Hin. }
  split; [exact F|]. intros g table limit. rewrite F. reflexivity.
Qed.

Lemma get_table_schema_filled
      (wh : warehouse) (now later : Z) (table : string)
      (rs : list describe_row) (g : gateway) :
  schema_miss now table g ->
  describe wh (describe_query g table) = Returned rs ->
  exists g1,
    get_table_schema wh now later table g = (Returned (schema_of_rows rs []), g1)
    /\ sent g1 = (sent g ++ [describe_query g table])%list
    /\ database g1 = database g /\ schema_name g1 = schema_name g
    /\ forall wh' now' later',
        (now' - later < cache_ttl g)%Z ->
        get_table_schema wh' now' later' table g1
        = (Returned (schema_of_rows rs []), g1).
Proof.
  intros Hmiss D.
  eexists. split; [|split; [|split; [|split]]].
  - run_monad. destruct Hmiss as [Hm|Hv].
    + rewrite Hm, D. reflexivity.
    + rewrite Hv. destruct (schema_cache g !! table); rewrite D; reflexivity.
  - reflexivity.
  - reflexivity.
  - reflexivity.
  - intros wh' now' later' Hlt. apply get_table_schema_hit.
    + simpl. apply lookup_insert_eq.
    + unfold _is_cache_valid. simpl. apply Z.ltb_lt. exact Hlt.
Qed.

Lemma weekly_query_limit (g : gateway) (table date_col start_str end_str : string) :
  with_limit (weekly_query g table date_col start_str end_str)
  = weekly_query g table date_col start_str end_str.
Proof. apply with_limit_fixed. unfold weekly_query. find_limit. Qed.

Lemma query_weekly_data_eq (wh : warehouse)
      (table date_col start_str end_str : string) (g : gateway) :
  _query_weekly_data wh table date_col start_str end_str g
  = (match run wh (weekly_query g table date_col start_str end_str) with
     | Returned df => Returned df
     | Raised _ => Returned empty_frame
     end,
     log_sent (weekly_query g table date_col start_str end_str) g).
Proof.
  unfold _query_weekly_data, try_except. unfold bind at 1. unfold get at 1.
  rewrite execute_query_eq, weekly_query_limit.
  destruct (run wh _); reflexivity.
Qed.

(** X14. The weekly digest, table by table.  The digest reads the metadata
    of the table, and the ordered sampler reads it again.  Whatever column
    the sampler picks from a metadata map, the digest lists it among the
    date columns of the same map.  When the first read describes the table
    anew and finds a date column, the one statement that follows is the
    weekly statement for the first date column, sent with its own LIMIT
    1000 and without the cap of 200 rows.  When it finds no date column and
    the read of the sampler falls within the TTL of the fill, the sampler
    is served the same map from the cache, finds no order column either,
    and the statement is the plain sample of 50 rows, which is sent once
    more when it fails.  The rows gathered are those of the statement, and
    none when it fails. *)
Theorem digest_gathers_table
        (wh : warehouse) (now later now' later' : Z)
        (table start_str end_str : string) (rs : list describe_row) (g : gateway) :
  (forall s c, find_order_column s = Some c -> In c (_identify_date_columns s))
  /\
  (schema_miss now table g ->
   describe wh (describe_query g table) = Returned rs ->
   forall date_col others,
     _identify_date_columns (schema_of_rows rs []) = date_col :: others ->
     let stmt := weekly_query g table date_col start_str end_str in
     exists g',
       gather_table wh now later now' later' table start_str end_str g
       = (match run wh stmt with
          | Returned df => Returned df
          | Raised _ => Returned empty_frame
          end, g')
       /\ sent g' = (sent g ++ [describe_query g table; stmt])%list)
  /\
  (schema_miss now table g ->
   describe wh (describe_query g table) = Returned rs ->
   _identify_date_columns (schema_of_rows rs []) = [] ->
   (now' - later < cache_ttl g)%Z ->
   let stmt := plain_sample_query g table 50 in
   exists g',
     gather_table wh now later now' later' table start_str end_str g
     = (match run wh stmt with
        | Returned df => Returned df
        | Raised _ => Returned empty_frame
        end, g')
     /\ sent g' = (sent g ++ describe_query g table :: stmt
                   :: match run wh stmt with
                      | Returned _ => []
                      | Raised _ => [stmt]
                      end)%list).
Proof.
  split; [|split].
  - intros s c. apply (proj1 (order_column_dated s)).
  - intros Hmiss D date_col others Hd stmt.
    destruct (get_table_schema_filled wh now later table rs g Hmiss D)
      as (g1 & E & S1 & Db & Sc & _).
    assert (W : weekly_query g1 table date_col start_str end_str = stmt).
    { unfold stmt, weekly_query, qualified. rewrite Db, Sc. reflexivity. }
    unfold gather_table. unfold bind at 1. rewrite E, Hd.
    rewrite query_weekly_data_eq, W.
    eexists. split; [reflexivity|].
    cbn [sent log_sent]. rewrite S1, <- List.app_assoc. reflexivity.
  - intros Hmiss D Hd Hlt stmt.
    destruct (get_table_schema_filled wh now later table rs g Hmiss D)
      as (g1 & E & S1 & Db & Sc & Hit).
    assert (P : forall g2, database g2 = database g -> schema_name g2 = schema_name g ->
                           plain_sample_query g2 table 50 = stmt).
    { intros g2 D2 S2. unfold stmt, plain_sample_query, qualified.
      rewrite D2, S2. reflexivity. }
    assert (F : find_order_column (schema_of_rows rs []) = None).
    { apply (proj2 (order_column_dated _)), Hd. }
    pose proof (sampler_sends wh now' later' table 50 g1 g1 _ (Hit wh now' later' Hlt))
      as Q.
    unfold sampler_issues in Q. rewrite F in Q. cbn [ordered_sample_query] in Q.
    rewrite (P g1 Db Sc) in Q.
    unfold gather_table. unfold bind at 1. rewrite E, Hd, Q.
    destruct (run wh stmt) as [df|e] eqn:R.
    + eexists. split; [reflexivity|].
      cbn [sent log_sent]. rewrite S1, <- List.app_assoc. reflexivity.
    + rewrite get_table_sample_eq, (P (log_sent stmt g1) Db Sc), R.
      eexists. split; [reflexivity|].
      cbn [sent log_sent]. rewrite S1, <- !List.app_assoc. reflexivity.
Qed.

Lemma digest_gathers_table_witness :
  exists g',
    gather_table reporting_warehouse 10 11 12 13 "RPT_WOPS_TICKETS"
      "2025-07-14" "2025-07-20" (connect "DB" "PUBLIC")
    = (Returned empty_frame, g')
    /\ sent g' = ["DESCRIBE TABLE DB.PUBLIC.RPT_WOPS_TICKETS";
                  "SELECT * FROM DB.PUBLIC.RPT_WOPS_TICKETS LIMIT 50";
                  "SELECT * FROM DB.PUBLIC.RPT_WOPS_TICKETS LIMIT 50"].
Proof.
  exact (proj2 (proj2 (digest_gathers_table reporting_warehouse 10 11 12 13
                         "RPT_WOPS_TICKETS" "2025-07-14" "2025-07-20"
                         tickets_rows (connect "DB" "PUBLIC")))
           (or_introl eq_refl) eq_refl eq_refl eq_refl).
Defined.

End DigestFacts.

(** ** The result analyzer *)

Module AnalyzerFacts.
Import PyStr Gateway GatewayFacts Validator Orchestrator Analyzer.

Lemma analyze_eq clean generate_insights (wh : warehouse) (sql_query : string)
      (g : gateway) :
  _execute_and_analyze_query clean generate_insights wh sql_query g
  = if negb (validate_query sql_query) then (Returned rejected_answer, g)
    else
      (Returned
         match run wh (with_limit sql_query) with
         | Raised e => failed_answer e
         | Returned df =>
             match clean df with
             | Raised e => failed_answer e
             | Returned df_cleaned =>
                 analysed_answer df_cleaned
                   match generate_insights df_cleaned sql_query with
                   | Returned insights => insights
                   | Raised _ => []
                   end
             end
         end,
       log_sent (with_limit sql_query) g).
Proof.
  unfold _execute_and_analyze_query, try_except at 1.
  destruct (negb (validate_query sql_query)); [reflexivity|].
  unfold bind at 1. rewrite execute_query_eq.
  destruct (run wh (with_limit sql_query)) as [df|e]; [|reflexivity].
  unfold bind at 1, lift at 1.
  destruct (clean df) as [df'|e]; [|reflexivity].
  unfold bind, try_except, lift, ret.
  destruct (generate_insights df' sql_query); reflexivity.
Qed.

(** X15. [_execute_and_analyze_query] never raises and always answers with a
    success flag.  A statement the validator rejects is not handed to the
    warehouse: the connection is left as it was and the answer is the
    forbidden-operations error.  An accepted statement is sent once, in its
    capped form.  The flag is true exactly when the warehouse answered and
    the cleaning went through, and then the answer carries the records and
    their number and no error; otherwise it carries an error message and no
    data.  A failure of the insight step alone leaves the flag true. *)
Theorem analyzer_answer clean generate_insights (wh : warehouse)
        (sql_query : string) (g : gateway) :
  exists a g',
    _execute_and_analyze_query clean generate_insights wh sql_query g
    = (Returned a, g')
    /\ (validate_query sql_query = false -> a = rejected_answer /\ g' = g)
    /\ (validate_query sql_query = true ->
        sent g' = (sent g ++ [with_limit sql_query])%list)
    /\ (a !! "success" = Some (JBool true)
        \/ (a !! "success" = Some (JBool false)
            /\ a !! "data" = None
            /\ exists e, a !! "error" = Some (JStr e)))
    /\ (a !! "success" = Some (JBool true) <->
        validate_query sql_query = true
        /\ exists df df_cleaned,
            run wh (with_limit sql_query) = Returned df
            /\ clean df = Returned df_cleaned
            /\ a !! "data" = Some (records df_cleaned)
            /\ a !! "row_count"
               = Some (JNum (Z.of_nat (List.length (rows df_cleaned))))
            /\ a !! "error" = None).
Proof.
  rewrite analyze_eq.
  destruct (validate_query sql_query) eqn:V; cbn [negb].
  - destruct (run wh (with_limit sql_query)) as [df|e] eqn:R.
    + destruct (clean df) as [df'|e] eqn:C.
      * eexists _, _. split; [reflexivity|].
        split; [discriminate|]. split; [reflexivity|].
        split; [left; reflexivity|].
        split; [|reflexivity]. intros _. split; [reflexivity|].
        exists df, df'. repeat split; auto.
      * eexists _, _. split; [reflexivity|].
        split; [discriminate|]. split; [reflexivity|].
        split; [right; split; [reflexivity|split; [reflexivity|eexists; reflexivity]]|].
        split; [discriminate|].
        intros (_ & df0 & df1 & [= <-] & C' & _). congruence.
    + eexists _, _. split; [reflexivity|].
      split; [discriminate|]. split; [reflexivity|].
      split; [right; split; [reflexivity|split; [reflexivity|eexists; reflexivity]]|].
      split; [discriminate|].
      intros (_ & df0 & df1 & R' & _). discriminate.
  - eexists _, _. split; [reflexivity|].
    split; [auto|]. split; [discriminate|].
    split; [right; split; [reflexivity|split; [reflexivity|eexists; reflexivity]]|].
    split; [discriminate|]. intros [H _]. discriminate.
Qed.

Lemma analyzer_answer_witness :
  exists a g',
    _execute_and_analyze_query (fun df => Returned df) (fun _ _ => Raised "timeout")
      (demo_warehouse 3) "DROP TABLE T" (connect "DB" "PUBLIC")
    = (Returned a, g')
    /\ a = rejected_answer /\ g' = connect "DB" "PUBLIC".
Proof.
  destruct (analyzer_answer (fun df => Returned df) (fun _ _ => Raised "timeout")
              (demo_warehouse 3) "DROP TABLE T" (connect "DB" "PUBLIC"))
    as (a & g' & E & H & _).
  exists a, g'. split; [exact E|]. apply H. reflexivity.
Defined.

End AnalyzerFacts.

(** ** The tables of the schema context *)

Module SchemaContextFacts.
Import PyStr Gateway GatewayExt SchemaContext.

Lemma mem_In (t : string) (l : list string) : mem t l = true <-> In t l.
Proof.
  unfold mem. rewrite existsb_exists. split.
  - intros (x & Hx & E). apply String.eqb_eq in E. congruence.
  - intros H. exists t. split; [exact H|apply String.eqb_refl].
Qed.

Lemma add_priority_eq (priority tables acc : list string) :
  add_priority priority tables acc
  = (acc ++ List.filter (fun t => mem t tables) priority)%list.
Proof.
  revert acc. induction priority as [|t pr IH]; intros acc; simpl.
  - rewrite List.app_nil_r. reflexivity.
  - destruct (mem t tables); rewrite IH; [rewrite <- List.app_assoc|]; reflexivity.
Qed.

Lemma add_remaining_prefix (tables acc : list string) :
  exists rest, add_remaining tables acc = (acc ++ rest)%list.
Proof.
  revert acc. induction tables as [|t ts IH]; intros acc; simpl.
  - exists []. rewrite List.app_nil_r. reflexivity.
  - destruct (negb (mem t acc) && Nat.ltb (List.length acc) 5).
    + destruct (IH (acc ++ [t])%list) as [rest ->]. exists (t :: rest).
      rewrite <- List.app_assoc. reflexivity.
    + apply IH.
Qed.

Lemma add_remaining_from (tables acc : list string) (x : string) :
  In x (add_remaining tables acc) -> In x acc \/ In x tables.
Proof.
  revert acc. induction tables as [|t ts IH]; intros acc; simpl; [auto|].
  destruct (negb (mem t acc) && Nat.ltb (List.length acc) 5); intros H.
  - destruct (IH _ H) as [H'|H']; [|auto].
    apply in_app_or in H'. destruct H' as [H'|[<-|[]]]; auto.
  - destruct (IH _ H); auto.
Qed.

Lemma add_remaining_NoDup (tables acc : list string) :
  List.NoDup acc -> List.NoDup (add_remaining tables acc).
Proof.
  revert acc. induction tables as [|t ts IH]; intros acc H; simpl; [exact H|].
  destruct (mem t acc) eqn:E; simpl; [apply IH, H|].
  destruct (Nat.ltb (List.length acc) 5); [|apply IH, H].
  apply IH. apply List.NoDup_app; [exact H|constructor; [intros []|constructor]|].
  intros x Hx [<-|[]]. apply mem_In in Hx. congruence.
Qed.

Lemma add_remaining_length (tables acc : list string) :
  (List.length acc <= 5)%nat -> (List.length (add_remaining tables acc) <= 5)%nat.
Proof.
  revert acc. induction tables as [|t ts IH]; intros acc H; simpl; [exact H|].
  destruct (negb (mem t acc)); simpl; [|apply IH, H].
  destruct (Nat.ltb (List.length acc) 5) eqn:E; [|apply IH, H].
  apply Nat.ltb_lt in E. apply IH. rewrite length_app. simpl. lia.
Qed.

Lemma add_remaining_all (tables acc : list string) (t : string) :
  In t tables ->
  In t (add_remaining tables acc)
  \/ (5 <= List.length (add_remaining tables acc))%nat.
Proof.
  revert acc. induction tables as [|x ts IH]; intros acc; simpl; [intros []|].
  intros [->|Hin].
  - destruct (mem t acc) eqn:E; simpl.
    + left. apply mem_In in E.
      destruct (add_remaining_prefix ts acc) as [rest ->].
      apply in_or_app. auto.
    + destruct (Nat.ltb (List.length acc) 5) eqn:L.
      * left. destruct (add_remaining_prefix ts (acc ++ [t])%list) as [rest ->].
        apply in_or_app. left. apply in_or_app. right. left. reflexivity.
      * right. apply Nat.ltb_ge in L.
        destruct (add_remaining_prefix ts acc) as [rest ->].
        rewrite length_app. lia.
  - destruct (negb (mem x acc) && Nat.ltb (List.length acc) 5); apply IH, Hin.
Qed.

Lemma priority_tables_NoDup : List.NoDup priority_tables.
Proof.
  unfold priority_tables.
  repeat (constructor; [simpl; intros H;
                        repeat (destruct H as [H|H]; [discriminate|]); exact H|]).
  constructor.
Qed.

(** X16. The tables whose metadata [_get_dynamic_schema_context] asks
    for: the priority tables that are available come first, in the order of
    the priority list; no table is asked for twice; only available tables
    are asked for; at most five tables are asked for; and when the
    available tables are at most five different ones, as the table list of
    the gateway is, every one of them is asked for.  (A table whose
    metadata comes back empty gets no line in the context.) *)
Theorem schema_context_tables (tables : list string) :
  List.NoDup (ordered_tables tables)
  /\ (forall t, In t (ordered_tables tables) -> In t tables)
  /\ (List.length (ordered_tables tables) <= 5)%nat
  /\ (exists rest,
         ordered_tables tables
         = (List.filter (fun t => mem t tables) priority_tables ++ rest)%list)
  /\ (List.NoDup tables -> (List.length tables <= 5)%nat ->
      forall t, In t tables -> In t (ordered_tables tables)).
Proof.
  unfold ordered_tables. rewrite add_priority_eq. simpl app.
  set (first := List.filter (fun t => mem t tables) priority_tables).
  assert (F1 : List.NoDup first).
  { apply List.NoDup_filter, priority_tables_NoDup. }
  assert (F2 : forall t, In t first -> In t tables).
  { intros t H. apply List.filter_In in H. apply mem_In, H. }
  assert (F3 : (List.length first <= 5)%nat).
  { pose proof (List.filter_length_le (fun t => mem t tables) priority_tables) as H.
    change (List.length priority_tables) with 4%nat in H. unfold first. lia. }
  assert (I : forall t, In t (add_remaining tables first) -> In t tables).
  { intros t H. destruct (add_remaining_from _ _ _ H); auto. }
  split; [apply add_remaining_NoDup, F1|].
  split; [exact I|].
  split; [apply add_remaining_length, F3|].
  split; [apply add_remaining_prefix|].
  intros Hn Hl t Hin.
  destruct (add_remaining_all tables first t Hin) as [H|H]; [exact H|].
  assert (Inc : incl tables (add_remaining tables first)).
  { apply (List.NoDup_length_incl (add_remaining_NoDup tables first F1)).
    - lia.
    - intros x Hx. apply I, Hx. }
  apply Inc, Hin.
Qed.

Lemma schema_context_tables_witness :
  In "RPT_WOPS_TICKETS" (ordered_tables allowed_tables).
Proof.
  apply (proj2 (proj2 (proj2 (proj2 (schema_context_tables allowed_tables))))).
  - unfold allowed_tables.
    repeat (constructor; [simpl; intros H;
                          repeat (destruct H as [H|H]; [discriminate|]); exact H|]).
    constructor.
  - simpl. lia.
  - simpl. tauto.
Defined.

End SchemaContextFacts.

(** ** More on the parsing of the reply *)

Module OrchestratorMoreFacts.
Import PyStr PyStrFacts PyText PyTextFacts Validator ValidatorFacts Orchestrator Replies.

Lemma first_sql_line_some (lines : list string) (line : string) :
  first_sql_line lines = Some line ->
  (exists l, In l lines /\ line = strip l)
  /\ startswith (upper line) "SELECT" || startswith (upper line) "WITH" = true.
Proof.
  induction lines as [|l lines IH]; simpl; [discriminate|].
  destruct (startswith (upper (strip l)) "SELECT"
            || startswith (upper (strip l)) "WITH") eqn:E.
  - intros [= <-]. split; [eauto|exact E].
  - intros H. destruct (IH H) as [(l' & Hin & El) P]. split; [eauto|exact P].
Qed.

Lemma first_sql_line_none (lines : list string) :
  first_sql_line lines = None ->
  forall l, In l lines ->
            startswith (upper (strip l)) "SELECT"
            || startswith (upper (strip l)) "WITH" = false.
Proof.
  induction lines as [|l lines IH]; simpl; [intros _ l []|].
  destruct (startswith (upper (strip l)) "SELECT"
            || startswith (upper (strip l)) "WITH") eqn:E; [discriminate|].
  intros H l' [<-|Hin]; [exact E|apply IH; assumption].
Qed.

Lemma split_lines_nonempty (s : string) : split_lines s <> [].
Proof.
  induction s as [|c s IH]; simpl; [discriminate|].
  destruct (split_lines s); [discriminate|].
  destruct (Nat.eqb (code c) 10); discriminate.
Qed.

Lemma split_lines_one_line (s l : string) :
  In l (split_lines s) -> one_line l = true.
Proof.
  revert l. induction s as [|c s IH]; simpl; intros l.
  - intros [<-|[]]. reflexivity.
  - destruct (split_lines s) as [|x xs] eqn:E.
    + destruct (split_lines_nonempty s E).
    + destruct (Nat.eqb (code c) 10) eqn:N.
      * intros [<-|H]; [reflexivity|apply IH, H].
      * intros [<-|H]; [|apply IH; right; exact H].
        simpl. rewrite N. simpl. apply IH. left. reflexivity.
Qed.

Lemma one_line_lstrip (s : string) : one_line s = true -> one_line (lstrip s) = true.
Proof.
  induction s as [|c s IH]; simpl; [auto|]. intros H.
  apply andb_true_iff in H. destruct H as [Hc Hs].
  destruct (is_space c); [apply IH, Hs|]. simpl. rewrite Hc, Hs. reflexivity.
Qed.

Lemma one_line_rstrip (s : string) : one_line s = true -> one_line (rstrip s) = true.
Proof.
  induction s as [|c s IH]; simpl; [auto|]. intros H.
  apply andb_true_iff in H. destruct H as [Hc Hs].
  destruct (is_empty (rstrip s) && is_space c); [reflexivity|].
  simpl. rewrite Hc, (IH Hs). reflexivity.
Qed.

Lemma one_line_strip (s : string) : one_line s = true -> one_line (strip s) = true.
Proof. intros H. apply one_line_rstrip, one_line_lstrip, H. Qed.

(** X17. A reply that is not JSON.  A fenced SQL block, when there is one,
    gives the statement, trimmed, whatever the lines of the reply are.
    Without a fenced block the statement is the first line of the reply
    that, trimmed and in upper case, starts with SELECT or WITH: it is a
    single trimmed line, never more, and it always passes the first-word
    test of the validator, so that only the keyword scan decides whether it
    is executed.  When no line starts so, the parsed reply names no
    statement.  The explanation is the trimmed reply in every case. *)
Theorem plain_reply_statement json_loads findall_sql_blocks (response : string) :
  startswith (strip response) "{" = false ->
  let parsed := _parse_ai_response json_loads findall_sql_blocks response in
  parsed !! "explanation" = Some (JStr (strip response))
  /\ (forall block rest,
         findall_sql_blocks response = block :: rest ->
         parsed !! "sql_query" = Some (JStr (strip block)))
  /\ (findall_sql_blocks response = [] ->
      (forall line,
          first_sql_line (split_lines response) = Some line ->
          parsed !! "sql_query" = Some (JStr line)
          /\ (exists l, In l (split_lines response) /\ line = strip l)
          /\ one_line line = true
          /\ strip line = line
          /\ validate_query line = scan_keywords dangerous_keywords (upper line))
      /\ (first_sql_line (split_lines response) = None ->
          parsed !! "sql_query" = Some JNull
          /\ truth_value (parsed !! "sql_query") = false)).
Proof.
  intros Hb parsed. subst parsed. unfold _parse_ai_response. rewrite Hb.
  split; [reflexivity|]. split.
  - intros block rest ->. reflexivity.
  - intros ->. split.
    + intros line E. rewrite E. split; [reflexivity|].
      destruct (first_sql_line_some _ _ E) as [(l & Hin & El) P].
      split; [eauto|].
      split; [rewrite El; apply one_line_strip, (split_lines_one_line _ _ Hin)|].
      assert (S : strip line = line) by (rewrite El; apply strip_idem).
      split; [exact S|].
      unfold validate_query. rewrite strip_upper, S, P. reflexivity.
    + intros E. rewrite E. split; reflexivity.
Qed.

Lemma plain_reply_statement_witness :
  _parse_ai_response loads_json_reply (fun _ => []) lines_reply !! "sql_query"
  = Some (JStr "select AGENT_NAME").
Proof.
  refine (proj1 (proj1 (proj2 (proj2
            (plain_reply_statement loads_json_reply (fun _ => []) lines_reply eq_refl))
            eq_refl) "select AGENT_NAME" _)).
  reflexivity.
Defined.

End OrchestratorMoreFacts.

(** ** More on the charts *)

Module ChartsMoreFacts.
Import PyStr PyStrFacts Charts ChartsFacts ChartsExt.

Lemma firstn_In {A} (n : nat) (l : list A) (x : A) :
  In x (firstn n l) -> In x l.
Proof.
  revert l. induction n as [|n IH]; intros [|y l]; simpl; try tauto.
  intros [H|H]; auto.
Qed.

Lemma trend_chart_ok (data : dataframe) (date_col numeric_col : string) (c : chart) :
  In c (trend_chart data date_col numeric_col) -> chart_ok c /\ ch_type c = Line.
Proof.
  unfold trend_chart. destruct (String.eqb date_col numeric_col); [intros []|].
  destruct (df_col data date_col) as [keys|]; [|intros []].
  destruct (df_col data numeric_col) as [[vals|vals]|]; try (intros []).
  destruct (Nat.leb 2 _) eqn:L; [|intros []].
  intros [<-|[]]. apply Nat.leb_le in L.
  unfold chart_ok. cbn [ch_labels ch_data ch_type].
  rewrite !length_map. auto.
Qed.

Lemma comparison_chart_ok (data : dataframe) (cat_col numeric_col : string) (c : chart) :
  In c (comparison_chart data cat_col numeric_col) -> chart_ok c /\ ch_type c = Bar.
Proof.
  unfold comparison_chart.
  destruct (df_col data cat_col) as [keys|]; [|intros []].
  destruct (df_col data numeric_col) as [[vals|vals]|]; try (intros []).
  set (sorted := sort_by _ _).
  set (limited := if Nat.ltb 10 (List.length sorted) then firstn 10 sorted else sorted).
  assert (B : (List.length limited <= 10)%nat).
  { unfold limited. destruct (Nat.ltb 10 (List.length sorted)) eqn:E.
    - apply List.firstn_le_length.
    - apply Nat.ltb_ge in E. exact E. }
  destruct (Nat.leb 2 (List.length limited)) eqn:L; [|intros []].
  intros [<-|[]]. apply Nat.leb_le in L.
  unfold chart_ok. cbn [ch_labels ch_data ch_type].
  rewrite !length_map. auto.
Qed.

Lemma distribution_charts_ok (data : dataframe) (nums cats : list string)
      (query : string) (c : chart) :
  In c (_generate_distribution_charts data nums cats query) ->
  chart_ok c /\ ch_type c = Doughnut.
Proof.
  unfold _generate_distribution_charts.
  destruct cats as [|cat_col cats]; [intros []|].
  destruct (Nat.leb (nrows data) 20); [|intros []].
  destruct (df_col data cat_col) as [keys|]; [|intros []].
  destruct (Nat.leb 2 _) eqn:L; [|intros []].
  intros [<-|[]]. apply Nat.leb_le in L.
  unfold chart_ok. cbn [ch_labels ch_data ch_type].
  rewrite !length_map. repeat split; auto. apply List.firstn_le_length.
Qed.

Lemma trend_charts_ok (data : dataframe) (nums cats : list string)
      (query : string) (c : chart) :
  In c (_generate_trend_charts data nums cats query) ->
  chart_ok c /\ ch_type c = Line.
Proof.
  unfold _generate_trend_charts.
  destruct (date_columns (map fst data)) as [|date_col ds]; [intros []|].
  destruct nums as [|n ns]; [intros []|].
  intros H. apply in_flat_map in H. destruct H as (x & _ & H).
  apply (trend_chart_ok _ _ _ _ H).
Qed.

Lemma comparison_charts_ok (data : dataframe) (nums cats : list string)
      (query : string) (c : chart) :
  In c (_generate_comparison_charts data nums cats query) ->
  chart_ok c /\ ch_type c = Bar.
Proof.
  unfold _generate_comparison_charts.
  destruct cats as [|cat_col cs]; [intros []|].
  destruct nums as [|n ns]; [intros []|].
  intros H. apply in_flat_map in H. destruct H as (x & _ & H).
  apply (comparison_chart_ok _ _ _ _ H).
Qed.

(** X18. Whatever the result table, [generate_charts_from_data] returns at
    most three charts, and every chart has at least two labels and exactly
    one number for each label; a bar chart has at most ten labels and a
    doughnut chart at most eight.  An empty table gets no chart. *)
Theorem charts_well_formed (data : dataframe) (query : string)
        (insights : list string) :
  (List.length (generate_charts_from_data data query insights) <= 3)%nat
  /\ (forall c, In c (generate_charts_from_data data query insights) -> chart_ok c)
  /\ (df_empty data = true -> generate_charts_from_data data query insights = []).
Proof.
  unfold generate_charts_from_data.
  destruct (df_empty data); [split; [simpl; lia|split; [intros c []|reflexivity]]|].
  split; [apply List.firstn_le_length|]. split; [|discriminate].
  intros c H. apply firstn_In in H.
  apply in_app_or in H. destruct H as [H|H].
  - apply (trend_charts_ok _ _ _ _ _ H).
  - apply in_app_or in H. destruct H as [H|H].
    + apply (comparison_charts_ok _ _ _ _ _ H).
    + apply (distribution_charts_ok _ _ _ _ _ H).
Qed.

Lemma head_names (n : nat) (data : dataframe) : map fst (head n data) = map fst data.
Proof. unfold head. rewrite map_map. reflexivity. Qed.

Lemma head_numeric (n : nat) (data : dataframe) :
  numeric_columns (head n data) = numeric_columns data.
Proof.
  unfold numeric_columns, head.
  induction data as [|[name [v|v]] data IH]; simpl; [reflexivity|exact IH|].
  rewrite IH. reflexivity.
Qed.

Lemma head_categorical (n : nat) (data : dataframe) :
  categorical_columns (head n data) = categorical_columns data.
Proof.
  unfold categorical_columns, head.
  induction data as [|[name [v|v]] data IH]; simpl; [reflexivity| |exact IH].
  rewrite IH. reflexivity.
Qed.

(** X19. Charts need something to group by and something to measure.  A
    table without a text column and without a column named like a date
    gets no chart; a table without a numeric column gets no line and no bar
    chart: its only possible chart is the doughnut. *)
Theorem charts_need_groups (data : dataframe) (query : string)
        (insights : list string) :
  (categorical_columns data = [] -> date_columns (map fst data) = [] ->
   generate_charts_from_data data query insights = [])
  /\ (numeric_columns data = [] ->
      forall c, In c (generate_charts_from_data data query insights) ->
                ch_type c = Doughnut).
Proof.
  unfold generate_charts_from_data.
  destruct (df_empty data); [split; [reflexivity|intros _ c []]|].
  set (sample := if Nat.ltb 50 (nrows data) then head 50 data else data).
  assert (N : numeric_columns sample = numeric_columns data).
  { unfold sample. destruct (Nat.ltb 50 (nrows data)); [apply head_numeric|reflexivity]. }
  assert (C : categorical_columns sample = categorical_columns data).
  { unfold sample. destruct (Nat.ltb 50 (nrows data)); [apply head_categorical|reflexivity]. }
  assert (D : map fst sample = map fst data).
  { unfold sample. destruct (Nat.ltb 50 (nrows data)); [apply head_names|reflexivity]. }
  rewrite N, C. split.
  - intros Hc Hd. rewrite Hc.
    unfold _generate_trend_charts, _generate_comparison_charts,
      _generate_distribution_charts.
    rewrite D, Hd. reflexivity.
  - intros Hn c H. rewrite Hn in H. apply firstn_In in H.
    assert (T : _generate_trend_charts sample [] (categorical_columns data) query = []).
    { unfold _generate_trend_charts. destruct (date_columns _); reflexivity. }
    assert (B : _generate_comparison_charts sample [] (categorical_columns data) query
                = []).
    { unfold _generate_comparison_charts.
      destruct (categorical_columns data); reflexivity. }
    rewrite T, B in H. cbn [app] in H.
    apply (distribution_charts_ok _ _ _ _ _ H).
Qed.

Lemma charts_need_groups_witness :
  generate_charts_from_data
    [("NUM_TICKETS", IntCol [3; 5; 8]%Z); ("AHT_MINUTES", IntCol [12; 9; 14]%Z)]
    "compare tickets by handle time" [] = [].
Proof.
  apply (proj1 (charts_need_groups _ _ _)); reflexivity.
Defined.

(** *** The order of the bars *)












End ChartsMoreFacts.

(** ** From the reply to the answer, with the analyzer in between *)

Module PipelineFacts.
Import PyStr Gateway GatewayFacts Validator Orchestrator OrchestratorFacts
       Analyzer AnalyzerFacts.

Lemma process_with_statement json_loads findall_sql_blocks execute_and_analyze
      charts_for session_info (content q : string) :
  _parse_ai_response json_loads findall_sql_blocks content !! "sql_query"
  = Some (JStr q) ->
  q <> "" ->
  process_natural_language_query json_loads findall_sql_blocks
    execute_and_analyze charts_for session_info (Returned content)
  = let result :=
      update (_parse_ai_response json_loads findall_sql_blocks content)
             (execute_and_analyze (JStr q)) in
    if truth_value (result !! "data") then
      match result !! "data" with
      | Some (JNum _) | Some (JBool _) => error_answer "object has no len()"
      | _ =>
          match charts_for result with
          | Some charts => with_session_info session_info (<["charts" := charts]> result)
          | None => with_session_info session_info result
          end
      end
    else with_session_info session_info result.
Proof.
  intros H Hq. unfold process_natural_language_query. rewrite H.
  destruct q; [congruence|]. reflexivity.
Qed.

Lemma plain_parsed_lookups json_loads findall_sql_blocks (content : string) :
  startswith (strip content) "{" = false ->
  let parsed := _parse_ai_response json_loads findall_sql_blocks content in
  parsed !! "explanation" = Some (JStr (strip content))
  /\ parsed !! "data" = None /\ parsed !! "success" = None
  /\ parsed !! "error" = None /\ parsed !! "charts" = None
  /\ parsed !! "row_count" = None.
Proof.
  intros Hb. unfold _parse_ai_response. rewrite Hb. cbv zeta.
  split; [reflexivity|]. split; [reflexivity|]. split; [reflexivity|].
  split; [reflexivity|]. split; reflexivity.
Qed.

(** X21. A reply in plain words whose statement the validator rejects: the
    warehouse receives nothing, and the answer has the success flag false,
    the forbidden-operations error, no data and no charts, while it still
    reports the statement and the explanation of the reply. *)
Theorem rejected_statement_answer
        json_loads findall_sql_blocks execute_and_analyze charts_for session_info
        clean generate_insights (wh : warehouse) (g : gateway) (content q : string) :
  startswith (strip content) "{" = false ->
  _parse_ai_response json_loads findall_sql_blocks content !! "sql_query"
  = Some (JStr q) ->
  q <> "" ->
  validate_query q = false ->
  fst (_execute_and_analyze_query clean generate_insights wh q g)
  = Returned (execute_and_analyze (JStr q)) ->
  let answer :=
    process_natural_language_query json_loads findall_sql_blocks
      execute_and_analyze charts_for session_info (Returned content) in
  snd (_execute_and_analyze_query clean generate_insights wh q g) = g
  /\ answer !! "success" = Some (JBool false)
  /\ answer !! "error" = Some (JStr "Query contains forbidden operations")
  /\ answer !! "data" = None
  /\ answer !! "charts" = None
  /\ answer !! "sql_query" = Some (JStr q)
  /\ answer !! "explanation" = Some (JStr (strip content)).
Proof.
  intros Hb Hsql Hq V Hex answer.
  rewrite analyze_eq, V in Hex. cbn [negb fst] in Hex. injection Hex as Hex.
  split; [rewrite analyze_eq, V; reflexivity|].
  destruct (plain_parsed_lookups json_loads findall_sql_blocks content Hb)
    as (P1 & P2 & P3 & P4 & P5 & _).
  set (parsed := _parse_ai_response json_loads findall_sql_blocks content) in *.
  assert (D : (rejected_answer ∪ parsed) !! "data" = None).
  { apply lookup_union_None. split; [reflexivity|exact P2]. }
  assert (A : answer = with_session_info session_info (rejected_answer ∪ parsed)).
  { unfold answer. rewrite (process_with_statement _ _ _ _ _ _ q Hsql Hq).
    cbv zeta. unfold update. fold parsed. rewrite <- Hex, D. reflexivity. }
  rewrite A. rewrite !with_session_info_other by discriminate.
  split; [apply lookup_union_Some_l; reflexivity|].
  split; [apply lookup_union_Some_l; reflexivity|].
  split; [exact D|].
  split; [apply lookup_union_None; split; [reflexivity|exact P5]|].
  split.
  - rewrite lookup_union_r by reflexivity. exact Hsql.
  - rewrite lookup_union_r by reflexivity. exact P1.
Qed.

Lemma rejected_statement_answer_witness :
  process_natural_language_query loads_json_reply
    (fun _ => ["select 1; DROP TABLE T"])
    (fun _ => rejected_answer) (fun _ => None) None (Returned "Run this")
  !! "success" = Some (JBool false).
Proof.
  exact (proj1 (proj2 (rejected_statement_answer loads_json_reply
                  (fun _ => ["select 1; DROP TABLE T"])
                  (fun _ => rejected_answer) (fun _ => None) None
                  (fun df => Returned df) (fun _ _ => Returned [])
                  unreachable_warehouse (connect "DB" "PUBLIC")
                  "Run this" "select 1; DROP TABLE T"
                  eq_refl eq_refl ltac:(discriminate) eq_refl eq_refl))).
Defined.

(** X22. A reply in plain words whose statement is accepted, answered by
    the warehouse and cleaned: the answer has the success flag true, the
    records and their number, no error, the explanation of the reply, and
    the statement as the model wrote it, not in its capped form.  Charts
    are attached only when there is at least one record, and then exactly
    when the chart step yields some. *)
Theorem accepted_statement_answer
        json_loads findall_sql_blocks execute_and_analyze charts_for session_info
        clean generate_insights (wh : warehouse) (g : gateway) (content q : string)
        (df df_cleaned : frame) :
  startswith (strip content) "{" = false ->
  _parse_ai_response json_loads findall_sql_blocks content !! "sql_query"
  = Some (JStr q) ->
  q <> "" ->
  validate_query q = true ->
  run wh (with_limit q) = Returned df ->
  clean df = Returned df_cleaned ->
  fst (_execute_and_analyze_query clean generate_insights wh q g)
  = Returned (execute_and_analyze (JStr q)) ->
  let parsed := _parse_ai_response json_loads findall_sql_blocks content in
  let answer :=
    process_natural_language_query json_loads findall_sql_blocks
      execute_and_analyze charts_for session_info (Returned content) in
  sent (snd (_execute_and_analyze_query clean generate_insights wh q g))
  = (sent g ++ [with_limit q])%list
  /\ answer !! "success" = Some (JBool true)
  /\ answer !! "data" = Some (records df_cleaned)
  /\ answer !! "row_count" = Some (JNum (Z.of_nat (List.length (rows df_cleaned))))
  /\ answer !! "error" = None
  /\ answer !! "sql_query" = Some (JStr q)
  /\ answer !! "explanation" = Some (JStr (strip content))
  /\ (rows df_cleaned = [] -> answer !! "charts" = None)
  /\ (rows df_cleaned <> [] ->
      answer !! "charts" = charts_for (update parsed (execute_and_analyze (JStr q)))).
Proof.
  intros Hb Hsql Hq V R C Hex parsed answer.
  rewrite analyze_eq, V, R, C in Hex. cbn [negb fst] in Hex. injection Hex as Hex.
  split; [rewrite analyze_eq, V; reflexivity|].
  destruct (plain_parsed_lookups json_loads findall_sql_blocks content Hb)
    as (P1 & P2 & P3 & P4 & P5 & P6).
  fold parsed in P1, P2, P3, P4, P5, P6, Hsql.
  set (a := execute_and_analyze (JStr q)) in *.
  set (result := update parsed a).
  assert (L1 : result !! "success" = Some (JBool true)).
  { unfold result, update. apply lookup_union_Some_l. rewrite <- Hex. reflexivity. }
  assert (L2 : result !! "data" = Some (records df_cleaned)).
  { unfold result, update. apply lookup_union_Some_l. rewrite <- Hex. reflexivity. }
  assert (L3 : result !! "row_count"
               = Some (JNum (Z.of_nat (List.length (rows df_cleaned))))).
  { unfold result, update. apply lookup_union_Some_l. rewrite <- Hex. reflexivity. }
  assert (L4 : result !! "error" = None).
  { unfold result, update. apply lookup_union_None. split; [|exact P4].
    rewrite <- Hex. reflexivity. }
  assert (L5 : result !! "sql_query" = Some (JStr q)).
  { unfold result, update. rewrite lookup_union_r; [exact Hsql|].
    rewrite <- Hex. reflexivity. }
  assert (L6 : result !! "explanation" = Some (JStr (strip content))).
  { unfold result, update. rewrite lookup_union_r; [exact P1|].
    rewrite <- Hex. reflexivity. }
  assert (L7 : result !! "charts" = None).
  { unfold result, update. apply lookup_union_None. split; [|exact P5].
    rewrite <- Hex. reflexivity. }
  assert (A : answer
              = if truth_value (Some (records df_cleaned)) then
                  match charts_for result with
                  | Some charts =>
                      with_session_info session_info (<["charts" := charts]> result)
                  | None => with_session_info session_info result
                  end
                else with_session_info session_info result).
  { unfold answer. rewrite (process_with_statement _ _ _ _ _ _ q Hsql Hq).
    cbv zeta. fold parsed. fold a. fold result. rewrite L2. reflexivity. }
  assert (K : forall key, key <> "session_info" -> key <> "charts" ->
                          answer !! key = result !! key).
  { intros key K1 K2. rewrite A.
    destruct (truth_value (Some (records df_cleaned)));
      [destruct (charts_for result)|];
      rewrite with_session_info_other by exact K1;
      [apply lookup_insert_ne; congruence|reflexivity|reflexivity]. }
  rewrite !K by discriminate.
  split; [exact L1|]. split; [exact L2|]. split; [exact L3|].
  split; [exact L4|]. split; [exact L5|]. split; [exact L6|]. split.
  - intros E. rewrite A. unfold records. rewrite E. cbn [map truth_value].
    rewrite with_session_info_other by discriminate. exact L7.
  - intros E. rewrite A. unfold records.
    destruct (rows df_cleaned) as [|r rs]; [congruence|]. cbn [map truth_value].
    destruct (charts_for result) as [charts|];
      rewrite with_session_info_other by discriminate.
    + apply lookup_insert_eq.
    + exact L7.
Qed.

Lemma accepted_statement_answer_witness :
  process_natural_language_query loads_json_reply
    (fun _ => ["select 1"])
    (fun _ => analysed_answer GatewayExt.sample_frame [])
    (fun _ => None) None (Returned "Run this")
  !! "success" = Some (JBool true).
Proof.
  exact (proj1 (proj2 (accepted_statement_answer loads_json_reply
                  (fun _ => ["select 1"])
                  (fun _ => analysed_answer GatewayExt.sample_frame [])
                  (fun _ => None) None
                  (fun df => Returned df) (fun _ _ => Returned [])
                  GatewayExt.sample_warehouse (connect "DB" "PUBLIC")
                  "Run this" "select 1" GatewayExt.sample_frame GatewayExt.sample_frame
                  eq_refl eq_refl ltac:(discriminate) eq_refl eq_refl eq_refl eq_refl))).
Defined.

End PipelineFacts.

(** ** Cleaning a result table *)

Module CleanerFacts.
Import PyStr Cleaner.

Lemma clean_by_column str_of_float (df : dataframe) :
  _clean_dataframe_for_json str_of_float df
  = map (fun nc => (fst nc, clean_column str_of_float (snd nc))) df.
Proof.
  unfold _clean_dataframe_for_json. rewrite !map_map. reflexivity.
Qed.

Lemma clean_object_column str_of_float (cells : list obj) :
  clean_column str_of_float (RObject cells) = CObject (map (clean_obj str_of_float) cells).
Proof.
  unfold clean_column. cbn [replace_inf convert where_notnull].
  rewrite !map_map. reflexivity.
Qed.

Lemma clean_float_column str_of_float (cells : list float) :
  clean_column str_of_float (RFloat64 cells) = CFloat64 (map clean_float cells).
Proof.
  unfold clean_column. cbn [replace_inf convert where_notnull].
  rewrite map_map. f_equal. apply map_ext. intros [q| | |]; reflexivity.
Qed.

Lemma clean_obj_shape str_of_float (o : obj) :
  clean_obj str_of_float o = ONone \/ exists s, clean_obj str_of_float o = OStr s.
Proof.
  unfold clean_obj, to_text.
  destruct (String.eqb (py_str str_of_float (replace_inf_obj o)) "nan");
    cbn [notnull_obj]; eauto.
Qed.

Lemma clean_float_shape (f : float) :
  clean_float f = None \/ exists q, clean_float f = Some (Finite q).
Proof. destruct f; cbn; eauto. Qed.

Lemma clean_column_no_token str_of_float (c : raw_column) :
  emits_token (clean_column str_of_float c) = false.
Proof.
  destruct c as [cells|cells|cells|cells].
  - rewrite clean_object_column. cbn [emits_token].
    induction cells as [|o cells IH]; [reflexivity|].
    cbn [map existsb]. rewrite IH, orb_false_r.
    destruct (clean_obj_shape str_of_float o) as [->|[s ->]]; reflexivity.
  - reflexivity.
  - rewrite clean_float_column. cbn [emits_token].
    induction cells as [|f cells IH]; [reflexivity|].
    cbn [map existsb]. rewrite IH, orb_false_r.
    destruct (clean_float_shape f) as [->|[q ->]]; reflexivity.
  - reflexivity.
Qed.

(** C8, as the code has it.  The cleaned table has the columns of the raw
    table, and none of its cells is a float NaN or infinity, so that its
    serialization has no NaN and no Infinity token.  In a column of floats
    NaN and both infinities come out as the missing marker of the nullable
    dtype and the finite numbers stay; columns of integers and of truth
    values keep their cells.  In a column of dtype [object] every
    cell comes out as a text or as [None]: a float NaN or infinity and the
    text [nan] come out as [None], but [None] itself, which is how a NULL
    of a text column arrives, comes out as the text [None] and not as a
    null. *)
Theorem clean_dataframe_cells (str_of_float : Q -> string) (df : dataframe) :
  let cleaned := _clean_dataframe_for_json str_of_float df in
  map fst cleaned = map fst df
  /\ (forall name col, In (name, col) cleaned -> emits_token col = false)
  /\ (forall name cells,
         In (name, RFloat64 cells) df ->
         In (name, CFloat64 (map clean_float cells)) cleaned)
  /\ (forall name cells,
         In (name, RObject cells) df ->
         In (name, CObject (map (clean_obj str_of_float) cells)) cleaned)
  /\ (forall name cells,
         In (name, RInt64 cells) df -> In (name, CInt64 (map Some cells)) cleaned)
  /\ (forall name cells,
         In (name, RBool cells) df -> In (name, CBool cells) cleaned)
  /\ (forall f,
         clean_float f
         = match f with Finite q => Some (Finite q) | _ => None end)
  /\ (forall o,
         (clean_obj str_of_float o = ONone
          \/ exists s, clean_obj str_of_float o = OStr s)
         /\ match o with
            | ONone => clean_obj str_of_float o = OStr "None"
            | OFloat NaN | OFloat PosInf | OFloat NegInf =>
                clean_obj str_of_float o = ONone
            | OStr s =>
                clean_obj str_of_float o
                = if String.eqb s "nan" then ONone else OStr s
            | _ => True
            end)
  /\ _clean_dataframe_for_json str_of_float regions_raw
     = [("REGION", CObject [OStr "EAST"; OStr "None"; OStr "WEST"]);
        ("SHARE", CFloat64 [Some (Finite (Qmake 3 1)); None; None])].
Proof.
  intros cleaned. subst cleaned. rewrite clean_by_column.
  split; [|split; [|split; [|split; [|split; [|split; [|split; [|split]]]]]]].
  - rewrite map_map. reflexivity.
  - intros name col H. apply in_map_iff in H.
    destruct H as ([n c] & [= <- <-] & _). apply clean_column_no_token.
  - intros name cells H. apply in_map_iff.
    exists (name, RFloat64 cells). split; [|exact H].
    cbn [fst snd]. rewrite clean_float_column. reflexivity.
  - intros name cells H. apply in_map_iff.
    exists (name, RObject cells). split; [|exact H].
    cbn [fst snd]. rewrite clean_object_column. reflexivity.
  - intros name cells H. apply in_map_iff.
    exists (name, RInt64 cells). split; [reflexivity|exact H].
  - intros name cells H. apply in_map_iff.
    exists (name, RBool cells). split; [reflexivity|exact H].
  - intros [q| | |]; reflexivity.
  - intros o. split; [apply clean_obj_shape|].
    destruct o as [|[q| | |]|z|s|b|text]; try exact I; try reflexivity.
    unfold clean_obj, to_text. cbn [replace_inf_obj py_str].
    destruct (String.eqb s "nan"); reflexivity.
  - reflexivity.
Qed.

End CleanerFacts.
